(** * BlockCopier: the concurrent block-copy engine, embedded from the C++ sources

    Sources embedded here:
    - [FileBackup/include/IOUtils.h]     ([IOContext], [IOUtils])
    - [FileBackup/include/BlockCopier.h] ([BlockCopier])
    - [FileBackup/src/IOUtils.cpp]       ([IssueRead], [IssueWrite],
                                          [OnReadCompletion], [OnWriteCompletion])
    - [FileBackup/src/BlockCopier.cpp]   ([Initialize], [StartCopy])
    - [FileBackup/src/main.cpp]          (the part of [wmain] that drives the copier)

    Machine integers are [Z] with the wrap-around of their C++ type written
    out.  The code runs in a state monad over [World]: the single
    [BlockCopier] instance together with the list of operating-system calls
    and error/warning log lines made so far.  Results of operating-system
    calls are inputs of the functions that make them. *)

From Stdlib Require Import String ZArith List Bool Lia.
From Stdlib Require Import Strings.Byte.
Import ListNotations.
Local Open Scope Z_scope.

(* ===================================================================== *)
(** ** Machine integers and platform constants *)
(* ===================================================================== *)

Module Win.

Definition HANDLE := Z.

(** [DWORD] is a 32-bit unsigned integer. *)
Definition to_DWORD (x : Z) : Z := x mod 2 ^ 32.
(** [int] is a 32-bit two's complement integer. *)
Definition to_int (x : Z) : Z := (x + 2 ^ 31) mod 2 ^ 32 - 2 ^ 31.
(** [LONGLONG] is a 64-bit two's complement integer. *)
Definition to_LONGLONG (x : Z) : Z := (x + 2 ^ 63) mod 2 ^ 64 - 2 ^ 63.

Definition DWORD_MAX : Z := 2 ^ 32 - 1.
Definition INT_MIN : Z := - 2 ^ 31.
Definition INT_MAX : Z := 2 ^ 31 - 1.
Definition LLONG_MIN : Z := - 2 ^ 63.
Definition LLONG_MAX : Z := 2 ^ 63 - 1.

Definition is_DWORD (x : Z) : Prop := 0 <= x <= DWORD_MAX.
Definition is_int (x : Z) : Prop := INT_MIN <= x <= INT_MAX.
Definition is_LONGLONG (x : Z) : Prop := LLONG_MIN <= x <= LLONG_MAX.

(** Values of [windows.h] / [winerror.h]. *)
Definition INVALID_HANDLE_VALUE : HANDLE := -1.
Definition ERROR_SUCCESS : Z := 0.
Definition ERROR_GEN_FAILURE : Z := 31.
Definition ERROR_HANDLE_EOF : Z := 38.

End Win.
Import Win.

(** Outcome of [ReadFileEx] / [WriteFileEx] / [QueueUserAPC]: the call
    returned nonzero, or it returned zero and [GetLastError] gives [err]. *)
Inductive SubmitResult : Type :=
| Submitted
| Failed (err : Z).

(* ===================================================================== *)
(** ** Data model (IOUtils.h, BlockCopier.h) *)
(* ===================================================================== *)

Record OVERLAPPED : Type := mkOVERLAPPED {
  Offset : Z;
  OffsetHigh : Z;
  hEvent : Z
}.

(** [struct IOContext].  [buf] is the address returned by [VirtualAlloc]
    (0 is [nullptr]); [buf_data] is the content of the [bufSize] bytes at
    that address, indexed from 0.  [curInst] tells whether the back pointer
    is set: there is a single [BlockCopier]. *)
Record IOContext : Type := mkIOContext {
  overlapped : OVERLAPPED;
  buf : Z;
  buf_data : Z -> byte;
  bufSize : Z;
  completed : bool;
  readOffset : Z;
  bytesTransferred : Z;
  curInst : bool
}.

(** The four atomics of [class IOUtils]. *)
Record IOUtils : Type := mkIOUtils {
  m_pendingIOs : Z;
  m_fileOffset : Z;
  m_readComplete : bool;
  m_errOccurred : bool
}.

(** A [std::thread] object of [m_workerThreads]. *)
Record Worker : Type := mkWorker {
  joinable : bool;
  native_handle : HANDLE
}.

Record BlockCopier : Type := mkBlockCopier {
  m_hSrc : HANDLE;
  m_hDest : HANDLE;
  m_srcFileSize : Z;
  m_destCapacity : Z;
  m_destSectorSize : Z;
  m_numOfThreads : Z;
  m_blockSize : Z;
  m_cntxts : list IOContext;
  m_workerThreads : list Worker;
  ioUtilsObj : IOUtils;
  m_bytesReadTotal : Z;
  m_bytesWrittenTotal : Z
}.

Definition DEFAULT_BLOCK_SIZE_MB : Z := 1.
Definition DEFAULT_MAX_OUTSTANDING_IO : Z := 4.

(** [IOUtils::IOUtils()]. *)
Definition IOUtils_new : IOUtils := mkIOUtils 0 0 false false.

(** [BlockCopier::BlockCopier()]. *)
Definition BlockCopier_new : BlockCopier :=
  mkBlockCopier INVALID_HANDLE_VALUE INVALID_HANDLE_VALUE 0 0 0
    DEFAULT_MAX_OUTSTANDING_IO (DEFAULT_BLOCK_SIZE_MB * 1024 * 1024)
    [] [] IOUtils_new 0 0.

(* ----- field updates ----- *)

Definition set_pendingIOs (v : Z) (io : IOUtils) : IOUtils :=
  mkIOUtils v (m_fileOffset io) (m_readComplete io) (m_errOccurred io).
Definition set_fileOffset (v : Z) (io : IOUtils) : IOUtils :=
  mkIOUtils (m_pendingIOs io) v (m_readComplete io) (m_errOccurred io).
Definition set_readComplete (v : bool) (io : IOUtils) : IOUtils :=
  mkIOUtils (m_pendingIOs io) (m_fileOffset io) v (m_errOccurred io).
Definition set_errOccurred (v : bool) (io : IOUtils) : IOUtils :=
  mkIOUtils (m_pendingIOs io) (m_fileOffset io) (m_readComplete io) v.

Definition set_overlapped (v : OVERLAPPED) (c : IOContext) : IOContext :=
  mkIOContext v (buf c) (buf_data c) (bufSize c) (completed c)
    (readOffset c) (bytesTransferred c) (curInst c).
Definition set_hEvent (v : Z) (c : IOContext) : IOContext :=
  set_overlapped
    (mkOVERLAPPED (Offset (overlapped c)) (OffsetHigh (overlapped c)) v) c.
Definition set_buf_data (v : Z -> byte) (c : IOContext) : IOContext :=
  mkIOContext (overlapped c) (buf c) v (bufSize c) (completed c)
    (readOffset c) (bytesTransferred c) (curInst c).
Definition set_completed (v : bool) (c : IOContext) : IOContext :=
  mkIOContext (overlapped c) (buf c) (buf_data c) (bufSize c) v
    (readOffset c) (bytesTransferred c) (curInst c).
Definition set_readOffset (v : Z) (c : IOContext) : IOContext :=
  mkIOContext (overlapped c) (buf c) (buf_data c) (bufSize c) (completed c)
    v (bytesTransferred c) (curInst c).
Definition set_bytesTransferred (v : Z) (c : IOContext) : IOContext :=
  mkIOContext (overlapped c) (buf c) (buf_data c) (bufSize c) (completed c)
    (readOffset c) v (curInst c).
Definition set_curInst (v : bool) (c : IOContext) : IOContext :=
  mkIOContext (overlapped c) (buf c) (buf_data c) (bufSize c) (completed c)
    (readOffset c) (bytesTransferred c) v.

(** [memset(cntxt->buf + start, 0, len)]. *)
Definition memset0 (start len : Z) (c : IOContext) : IOContext :=
  set_buf_data
    (fun i => if (start <=? i) && (i <? start + len) then x00 else buf_data c i)
    c.

Definition set_ioUtilsObj (v : IOUtils) (b : BlockCopier) : BlockCopier :=
  mkBlockCopier (m_hSrc b) (m_hDest b) (m_srcFileSize b) (m_destCapacity b)
    (m_destSectorSize b) (m_numOfThreads b) (m_blockSize b) (m_cntxts b)
    (m_workerThreads b) v (m_bytesReadTotal b) (m_bytesWrittenTotal b).
Definition set_bytesReadTotal (v : Z) (b : BlockCopier) : BlockCopier :=
  mkBlockCopier (m_hSrc b) (m_hDest b) (m_srcFileSize b) (m_destCapacity b)
    (m_destSectorSize b) (m_numOfThreads b) (m_blockSize b) (m_cntxts b)
    (m_workerThreads b) (ioUtilsObj b) v (m_bytesWrittenTotal b).
Definition set_bytesWrittenTotal (v : Z) (b : BlockCopier) : BlockCopier :=
  mkBlockCopier (m_hSrc b) (m_hDest b) (m_srcFileSize b) (m_destCapacity b)
    (m_destSectorSize b) (m_numOfThreads b) (m_blockSize b) (m_cntxts b)
    (m_workerThreads b) (ioUtilsObj b) (m_bytesReadTotal b) v.
Definition set_workerThreads (v : list Worker) (b : BlockCopier) : BlockCopier :=
  mkBlockCopier (m_hSrc b) (m_hDest b) (m_srcFileSize b) (m_destCapacity b)
    (m_destSectorSize b) (m_numOfThreads b) (m_blockSize b) (m_cntxts b)
    v (ioUtilsObj b) (m_bytesReadTotal b) (m_bytesWrittenTotal b).
Definition set_cntxts (v : list IOContext) (b : BlockCopier) : BlockCopier :=
  mkBlockCopier (m_hSrc b) (m_hDest b) (m_srcFileSize b) (m_destCapacity b)
    (m_destSectorSize b) (m_numOfThreads b) (m_blockSize b) v
    (m_workerThreads b) (ioUtilsObj b) (m_bytesReadTotal b)
    (m_bytesWrittenTotal b).

(* ===================================================================== *)
(** ** Observable effects *)
(* ===================================================================== *)

Inductive LogLevel : Type := LVL_WARNING | LVL_ERROR.

(** One tag per [LOG_ERROR] / [LOG_WARNING] call site of the embedded
    functions.  [LOG_DEBUG] and [LOG_INFO] lines are not recorded. *)
Inductive LogMsg : Type :=
| MsgReadFileExFailed
| MsgWriteFileExFailed
| MsgInvalidContext
| MsgReadError
| MsgSectorSizeZero
| MsgBufferTooSmall
| MsgIssueWriteFailed
| MsgWriteError
| MsgInvalidThreads
| MsgInvalidBlockSize
| MsgOpenSourceFailed
| MsgOpenDestFailed
| MsgSourceSizeFailed
| MsgDestCapacityFailed
| MsgDestTooSmall
| MsgCopyAborted
| MsgSectorSizeFailed
| MsgBlockNotSectorMultiple
| MsgBufferAllocFailed
| MsgContextBufferAllocFailed
| MsgBufferMisaligned
| MsgNotInitialized
| MsgQueueApcFailed
| MsgFlushFailed
| MsgCompletedWithErrors
| MsgInitializeFailed
| MsgStartCopyFailed
| MsgWorkerErrorDetected
| MsgWorkerUnexpectedReadFailure.

(** Calls that leave the process, in program order.  The submissions
    [ReadFileEx] / [WriteFileEx] also record the value [m_pendingIOs] has at
    the moment of the call. *)
Inductive Event : Type :=
| EvCreateFileW (path : string) (result : HANDLE)
| EvCloseHandle (h : HANDLE)
| EvReadFileEx (h : HANDLE) (offLow offHigh nBytes : Z) (pending : Z)
| EvWriteFileEx (h : HANDLE) (offLow offHigh nBytes : Z) (pending : Z)
| EvThreadStart (i : nat)
| EvQueueUserAPC (i : nat)
| EvJoin (i : nat)
| EvFlushFileBuffers (h : HANDLE)
| EvLog (lvl : LogLevel) (msg : LogMsg).

(** Events by which copying work starts: a worker thread or an I/O
    submission. *)
Definition starts_work (e : Event) : bool :=
  match e with
  | EvReadFileEx _ _ _ _ _ | EvWriteFileEx _ _ _ _ _ | EvThreadStart _ => true
  | _ => false
  end.

(** The log line of the capacity check (BlockCopier.cpp line 133). *)
Definition is_capacity_reject (e : Event) : bool :=
  match e with
  | EvLog LVL_ERROR MsgDestTooSmall => true
  | _ => false
  end.

Definition is_apc_event (e : Event) : bool :=
  match e with
  | EvQueueUserAPC _ => true
  | _ => false
  end.

(** The state a thread runs in: the copier, and the calls this thread has
    made so far, oldest first.  Calls made by other threads are not
    recorded here. *)
Record World : Type := mkWorld {
  copier : BlockCopier;
  events : list Event
}.

Definition io (w : World) : IOUtils := ioUtilsObj (copier w).

(** A fresh process: a default-constructed copier, nothing done yet. *)
Definition World_new : World := mkWorld BlockCopier_new [].

(* ===================================================================== *)
(** ** The state monad the code runs in *)
(* ===================================================================== *)

Definition M (A : Type) : Type := World -> A * World.

Definition ret {A : Type} (a : A) : M A := fun w => (a, w).

Definition bind {A B : Type} (m : M A) (k : A -> M B) : M B :=
  fun w => let (a, w') := m w in k a w'.

Declare Scope m_scope.
Delimit Scope m_scope with M.
Notation "x <- m ;; k" := (bind m (fun x => k))
  (at level 61, m at next level, right associativity) : m_scope.
Notation "m ;; k" := (bind m (fun _ => k))
  (at level 61, right associativity) : m_scope.
Notation "' pat <- m ;; k" := (bind m (fun x => match x with pat => k end))
  (at level 61, pat pattern, m at next level, right associativity) : m_scope.
Local Open Scope m_scope.

Definition modify_copier (f : BlockCopier -> BlockCopier) : M unit :=
  fun w => (tt, mkWorld (f (copier w)) (events w)).

Definition modify_io (f : IOUtils -> IOUtils) : M unit :=
  modify_copier (fun b => set_ioUtilsObj (f (ioUtilsObj b)) b).

Definition emit (e : Event) : M unit :=
  fun w => (tt, mkWorld (copier w) (events w ++ [e])).

Definition log (lvl : LogLevel) (msg : LogMsg) : M unit := emit (EvLog lvl msg).

Definition when (b : bool) (m : M unit) : M unit := if b then m else ret tt.

(** [std::atomic] operations on the members of [ioUtilsObj]. *)
Definition load {A : Type} (field : IOUtils -> A) : M A :=
  fun w => (field (io w), w).

Definition store_readComplete (v : bool) : M unit := modify_io (set_readComplete v).
Definition store_errOccurred (v : bool) : M unit := modify_io (set_errOccurred v).
Definition store_pendingIOs (v : Z) : M unit := modify_io (set_pendingIOs v).
Definition store_fileOffset (v : Z) : M unit := modify_io (set_fileOffset v).

(** [m_fileOffset.fetch_add(d)]: returns the previous value. *)
Definition fetch_add_fileOffset (d : Z) : M Z :=
  old <- load m_fileOffset ;;
  modify_io (set_fileOffset (to_LONGLONG (old + d))) ;;
  ret old.

(** [m_pendingIOs.fetch_add(d)] and [fetch_sub(d)] (as [fetch_add (-d)]). *)
Definition fetch_add_pendingIOs (d : Z) : M Z :=
  old <- load m_pendingIOs ;;
  modify_io (set_pendingIOs (to_int (old + d))) ;;
  ret old.

Definition fetch_sub_pendingIOs (d : Z) : M Z := fetch_add_pendingIOs (- d).

Definition fetch_add_bytesReadTotal (d : Z) : M unit :=
  modify_copier (fun b => set_bytesReadTotal (to_LONGLONG (m_bytesReadTotal b + d)) b).

Definition fetch_add_bytesWrittenTotal (d : Z) : M unit :=
  modify_copier
    (fun b => set_bytesWrittenTotal (to_LONGLONG (m_bytesWrittenTotal b + d)) b).

(** [BlockCopier::getDestSectorSize], [BlockCopier::getDestHandle]. *)
Definition getDestSectorSize : M Z := fun w => (m_destSectorSize (copier w), w).
Definition getDestHandle : M HANDLE := fun w => (m_hDest (copier w), w).

(** The submissions. *)
Definition ReadFileEx (h : HANDLE) (c : IOContext) (nBytes : Z) : M unit :=
  p <- load m_pendingIOs ;;
  emit (EvReadFileEx h (Offset (overlapped c)) (OffsetHigh (overlapped c)) nBytes p).

Definition WriteFileEx (h : HANDLE) (c : IOContext) (nBytes : Z) : M unit :=
  p <- load m_pendingIOs ;;
  emit (EvWriteFileEx h (Offset (overlapped c)) (OffsetHigh (overlapped c)) nBytes p).

(* ===================================================================== *)
(** ** IOUtils.cpp *)
(* ===================================================================== *)

(** Result of the claim step of [IssueRead] (IOUtils.cpp lines 55-72). *)
Inductive Claim : Type :=
| Claimed (curOffset bytesToRead : Z)
| NoMoreReads (curOffset : Z).

Definition claim_offset (c : Claim) : Z :=
  match c with
  | Claimed o _ => o
  | NoMoreReads o => o
  end.

(** IOUtils.cpp lines 55-72: one [fetch_add] on [m_fileOffset], the
    end-of-source test, and the length of the read. *)
Definition claim_block (blockSize totalFileSize : Z) : M Claim :=
  curOffset <- fetch_add_fileOffset blockSize ;;
  if curOffset >=? totalFileSize then
    store_readComplete true ;;
    ret (NoMoreReads curOffset)
  else
    let bytesToRead :=
      if to_LONGLONG (curOffset + blockSize) >? totalFileSize
      then to_DWORD (to_LONGLONG (totalFileSize - curOffset))
      else blockSize in
    if bytesToRead =? 0 then
      store_readComplete true ;;
      ret (NoMoreReads curOffset)
    else ret (Claimed curOffset bytesToRead).

(** [IOUtils::IssueRead] (lines 46-98).  [os] is the outcome of
    [ReadFileEx], should the call be reached. *)
Definition IssueRead (os : SubmitResult) (handle : HANDLE) (cntxt : IOContext)
    (blockSize totalFileSize : Z) : M (bool * IOContext) :=
  rc <- load m_readComplete ;;
  err <- load m_errOccurred ;;
  if rc || err then ret (false, cntxt)
  else
    cl <- claim_block blockSize totalFileSize ;;
    match cl with
    | NoMoreReads _ => ret (false, cntxt)
    | Claimed curOffset bytesToRead =>
      let cntxt :=
        set_overlapped
          (mkOVERLAPPED
             (to_DWORD (Z.land curOffset 0xFFFFFFFF))
             (to_DWORD (Z.land (Z.shiftr curOffset 32) 0xFFFFFFFF))
             0) cntxt in
      let cntxt := set_completed false cntxt in
      let cntxt := set_readOffset curOffset cntxt in
      let cntxt := set_bytesTransferred 0 cntxt in
      _ <- fetch_add_pendingIOs 1 ;;
      ReadFileEx handle cntxt bytesToRead ;;
      match os with
      | Submitted => ret (true, cntxt)
      | Failed err =>
        (if negb (err =? ERROR_HANDLE_EOF) then
           log LVL_ERROR MsgReadFileExFailed ;;
           store_errOccurred true
         else store_readComplete true) ;;
        _ <- fetch_sub_pendingIOs 1 ;;
        ret (false, cntxt)
      end
    end.

(** [IOUtils::IssueWrite] (lines 101-129). *)
Definition IssueWrite (os : SubmitResult) (handle : HANDLE) (cntxt : IOContext)
    (bytesToWrite : Z) : M (bool * IOContext) :=
  err <- load m_errOccurred ;;
  if err then ret (false, cntxt)
  else
    let cntxt := set_hEvent 0 cntxt in
    let cntxt := set_completed false cntxt in
    _ <- fetch_add_pendingIOs 1 ;;
    WriteFileEx handle cntxt bytesToWrite ;;
    match os with
    | Submitted => ret (true, cntxt)
    | Failed _ =>
      log LVL_ERROR MsgWriteFileExFailed ;;
      store_errOccurred true ;;
      _ <- fetch_sub_pendingIOs 1 ;;
      ret (false, cntxt)
    end.

(** [IOUtils::OnReadCompletion] (lines 134-197).  [lpOverlapped] is [None]
    for a null pointer; the context the pointer designates is returned as
    the handler leaves it.  [os] is the outcome of [WriteFileEx], should
    the write be submitted. *)
Definition OnReadCompletion (os : SubmitResult)
    (errCode numOfBytesTransfered : Z) (lpOverlapped : option IOContext)
  : M (option IOContext) :=
  match lpOverlapped with
  | None => log LVL_ERROR MsgInvalidContext ;; ret None
  | Some cntxt =>
    if negb (curInst cntxt) then
      log LVL_ERROR MsgInvalidContext ;; ret (Some cntxt)
    else
      _ <- fetch_sub_pendingIOs 1 ;;
      if negb (errCode =? ERROR_SUCCESS) then
        (if negb (errCode =? ERROR_HANDLE_EOF) then
           log LVL_ERROR MsgReadError ;;
           store_errOccurred true
         else
           when (numOfBytesTransfered =? 0) (store_readComplete true)) ;;
        ret (Some (set_completed true cntxt))
      else if numOfBytesTransfered =? 0 then
        store_readComplete true ;;
        ret (Some (set_completed true cntxt))
      else
        fetch_add_bytesReadTotal numOfBytesTransfered ;;
        let bytesToWritePadded := numOfBytesTransfered in
        sector <- getDestSectorSize ;;
        destSectorSize <-
          (if sector =? 0 then log LVL_WARNING MsgSectorSizeZero ;; ret 4096
           else ret sector) ;;
        let unaligned := negb (bytesToWritePadded mod destSectorSize =? 0) in
        let padding :=
          to_DWORD (destSectorSize - bytesToWritePadded mod destSectorSize) in
        if unaligned && (to_DWORD (bytesToWritePadded + padding) >? bufSize cntxt)
        then
          log LVL_ERROR MsgBufferTooSmall ;;
          store_errOccurred true ;;
          ret (Some (set_completed true cntxt))
        else
          let cntxt :=
            if unaligned then memset0 bytesToWritePadded padding cntxt
            else cntxt in
          let bytesToWritePadded :=
            if unaligned then to_DWORD (bytesToWritePadded + padding)
            else bytesToWritePadded in
          let cntxt := set_bytesTransferred bytesToWritePadded cntxt in
          hDest <- getDestHandle ;;
          ' (ok, cntxt) <- IssueWrite os hDest cntxt (bytesTransferred cntxt) ;;
          when (negb ok)
            (log LVL_ERROR MsgIssueWriteFailed ;; store_errOccurred true) ;;
          ret (Some cntxt)
  end.

(** [IOUtils::OnWriteCompletion] (lines 199-219). *)
Definition OnWriteCompletion (errCode numOfBytesTransfered : Z)
    (lpOverlapped : option IOContext) : M (option IOContext) :=
  match lpOverlapped with
  | None => log LVL_ERROR MsgInvalidContext ;; ret None
  | Some cntxt =>
    if negb (curInst cntxt) then
      log LVL_ERROR MsgInvalidContext ;; ret (Some cntxt)
    else
      _ <- fetch_sub_pendingIOs 1 ;;
      when (negb (errCode =? ERROR_SUCCESS))
        (log LVL_ERROR MsgWriteError ;; store_errOccurred true) ;;
      fetch_add_bytesWrittenTotal numOfBytesTransfered ;;
      ret (Some (set_completed true cntxt))
  end.

(* ===================================================================== *)
(** ** BlockCopier.cpp: Initialize *)
(* ===================================================================== *)

Definition set_hSrc (v : HANDLE) (b : BlockCopier) : BlockCopier :=
  mkBlockCopier v (m_hDest b) (m_srcFileSize b) (m_destCapacity b)
    (m_destSectorSize b) (m_numOfThreads b) (m_blockSize b) (m_cntxts b)
    (m_workerThreads b) (ioUtilsObj b) (m_bytesReadTotal b)
    (m_bytesWrittenTotal b).
Definition set_hDest (v : HANDLE) (b : BlockCopier) : BlockCopier :=
  mkBlockCopier (m_hSrc b) v (m_srcFileSize b) (m_destCapacity b)
    (m_destSectorSize b) (m_numOfThreads b) (m_blockSize b) (m_cntxts b)
    (m_workerThreads b) (ioUtilsObj b) (m_bytesReadTotal b)
    (m_bytesWrittenTotal b).
Definition set_srcFileSize (v : Z) (b : BlockCopier) : BlockCopier :=
  mkBlockCopier (m_hSrc b) (m_hDest b) v (m_destCapacity b)
    (m_destSectorSize b) (m_numOfThreads b) (m_blockSize b) (m_cntxts b)
    (m_workerThreads b) (ioUtilsObj b) (m_bytesReadTotal b)
    (m_bytesWrittenTotal b).
Definition set_destCapacity (v : Z) (b : BlockCopier) : BlockCopier :=
  mkBlockCopier (m_hSrc b) (m_hDest b) (m_srcFileSize b) v
    (m_destSectorSize b) (m_numOfThreads b) (m_blockSize b) (m_cntxts b)
    (m_workerThreads b) (ioUtilsObj b) (m_bytesReadTotal b)
    (m_bytesWrittenTotal b).
Definition set_destSectorSize (v : Z) (b : BlockCopier) : BlockCopier :=
  mkBlockCopier (m_hSrc b) (m_hDest b) (m_srcFileSize b) (m_destCapacity b)
    v (m_numOfThreads b) (m_blockSize b) (m_cntxts b)
    (m_workerThreads b) (ioUtilsObj b) (m_bytesReadTotal b)
    (m_bytesWrittenTotal b).
Definition set_numOfThreads (v : Z) (b : BlockCopier) : BlockCopier :=
  mkBlockCopier (m_hSrc b) (m_hDest b) (m_srcFileSize b) (m_destCapacity b)
    (m_destSectorSize b) v (m_blockSize b) (m_cntxts b)
    (m_workerThreads b) (ioUtilsObj b) (m_bytesReadTotal b)
    (m_bytesWrittenTotal b).
Definition set_blockSize (v : Z) (b : BlockCopier) : BlockCopier :=
  mkBlockCopier (m_hSrc b) (m_hDest b) (m_srcFileSize b) (m_destCapacity b)
    (m_destSectorSize b) (m_numOfThreads b) v (m_cntxts b)
    (m_workerThreads b) (ioUtilsObj b) (m_bytesReadTotal b)
    (m_bytesWrittenTotal b).

Definition get {A : Type} (field : BlockCopier -> A) : M A :=
  fun w => (field (copier w), w).

(** What the operating system, the [DiskUtils] queries and the user answer
    during [Initialize]. *)
Record InitEnv : Type := mkInitEnv {
  (** [CreateFileW] on the source and on the destination path *)
  env_open_src : HANDLE;
  env_open_dest : HANDLE;
  (** [diskUtilsObj.GetDiskOrDriveSize] on the source and the destination *)
  env_srcSize : Z;
  env_destSize : Z;
  (** [diskUtilsObj.GetVolumeSectorSize] on the destination *)
  env_sectorSize : Z;
  (** the integer read from [std::wcin] at the sector-size prompt *)
  env_proceed_choice : Z;
  (** [VirtualAlloc] for the buffer of context [i]; 0 is [nullptr] *)
  env_VirtualAlloc : nat -> Z
}.

Definition CloseHandle (h : HANDLE) : M unit := emit (EvCloseHandle h).

(** [IOContext::IOContext(bSize)]; [VirtualAlloc] hands out zeroed pages. *)
Definition IOContext_new (bSize : Z) (addr : Z) : IOContext :=
  mkIOContext (mkOVERLAPPED 0 0 0) addr (fun _ => x00) bSize false 0 0 false.

(** The loop of lines 179-197, at index [i] with [n] iterations to go. *)
Fixpoint make_contexts (env : InitEnv) (n : nat) (i : nat) : M bool :=
  match n with
  | O => ret true
  | S n' =>
    blockSize <- get m_blockSize ;;
    let newCntxt := IOContext_new blockSize (env_VirtualAlloc env i) in
    when (buf newCntxt =? 0) (log LVL_ERROR MsgContextBufferAllocFailed) ;;
    if buf newCntxt =? 0 then
      log LVL_ERROR MsgBufferAllocFailed ;;
      ret false
    else
      let newCntxt := set_curInst true newCntxt in
      sector <- get m_destSectorSize ;;
      if negb (buf newCntxt mod sector =? 0) then
        log LVL_ERROR MsgBufferMisaligned ;;
        hSrc <- get m_hSrc ;; CloseHandle hSrc ;;
        hDest <- get m_hDest ;; CloseHandle hDest ;;
        ret false
      else
        modify_copier (fun b => set_cntxts (m_cntxts b ++ [newCntxt]) b) ;;
        make_contexts env n' (S i)
  end.

(** Line 75: [static_cast<DWORD>(blockSizeMB) * 1024 * 1024], in [DWORD]
    arithmetic. *)
Definition block_bytes (blockSizeMB : Z) : Z :=
  to_DWORD (to_DWORD (to_DWORD blockSizeMB * 1024) * 1024).

(** [BlockCopier::Initialize] (lines 72-200). *)
Definition Initialize (env : InitEnv) (srcPath destPath : string)
    (nThreads blockSizeMB : Z) : M bool :=
  modify_copier (set_numOfThreads nThreads) ;;
  modify_copier (set_blockSize (block_bytes blockSizeMB)) ;;
  numOfThreads <- get m_numOfThreads ;;
  blockSize <- get m_blockSize ;;
  if (numOfThreads <=? 0) || (numOfThreads >? 64) then
    log LVL_ERROR MsgInvalidThreads ;; ret false
  else if blockSize <=? 0 then
    log LVL_ERROR MsgInvalidBlockSize ;; ret false
  else
    modify_copier (set_hSrc (env_open_src env)) ;;
    emit (EvCreateFileW srcPath (env_open_src env)) ;;
    hSrc <- get m_hSrc ;;
    if hSrc =? INVALID_HANDLE_VALUE then
      log LVL_ERROR MsgOpenSourceFailed ;; ret false
    else
      modify_copier (set_hDest (env_open_dest env)) ;;
      emit (EvCreateFileW destPath (env_open_dest env)) ;;
      hDest <- get m_hDest ;;
      if hDest =? INVALID_HANDLE_VALUE then
        log LVL_ERROR MsgOpenDestFailed ;;
        CloseHandle hSrc ;;
        ret false
      else
        modify_copier (set_srcFileSize (env_srcSize env)) ;;
        srcFileSize <- get m_srcFileSize ;;
        if srcFileSize =? 0 then
          log LVL_ERROR MsgSourceSizeFailed ;;
          CloseHandle hSrc ;; CloseHandle hDest ;;
          ret false
        else
          modify_copier (set_destCapacity (env_destSize env)) ;;
          destCapacity <- get m_destCapacity ;;
          if destCapacity =? 0 then
            log LVL_ERROR MsgDestCapacityFailed ;;
            CloseHandle hSrc ;; CloseHandle hDest ;;
            ret false
          else if destCapacity <? srcFileSize then
            log LVL_ERROR MsgDestTooSmall ;;
            log LVL_ERROR MsgCopyAborted ;;
            CloseHandle hSrc ;; CloseHandle hDest ;;
            ret false
          else
            modify_copier (set_destSectorSize (env_sectorSize env)) ;;
            sector <- get m_destSectorSize ;;
            proceed <-
              (if sector =? 0 then
                 log LVL_ERROR MsgSectorSizeFailed ;;
                 if env_proceed_choice env =? 0 then
                   CloseHandle hSrc ;; CloseHandle hDest ;;
                   ret false
                 else
                   modify_copier (set_destSectorSize 4096) ;;
                   ret true
               else ret true) ;;
            if negb proceed then ret false
            else
              sector <- get m_destSectorSize ;;
              if negb (blockSize mod sector =? 0) then
                log LVL_ERROR MsgBlockNotSectorMultiple ;;
                CloseHandle hSrc ;; CloseHandle hDest ;;
                ret false
              else
                modify_copier (set_cntxts []) ;;
                make_contexts env (Z.to_nat numOfThreads) 0.

(* ===================================================================== *)
(** ** BlockCopier.cpp: StartCopy, as run by the controlling thread *)
(* ===================================================================== *)

(** The worker threads run concurrently with [StartCopy] and write the
    atomics of [ioUtilsObj].  The controlling thread meets them only through
    the values it loads, so their effect enters as what it observes. *)
Record CopyEnv : Type := mkCopyEnv {
  (** [native_handle()] of worker [i] *)
  env_thread_handle : nat -> HANDLE;
  (** the atomics at the successive evaluations of the monitoring
      condition (line 235) *)
  env_polls : list IOUtils;
  (** the atomics when the wake-up guard (line 261) is evaluated *)
  env_at_wakeup : IOUtils;
  (** outcome of [QueueUserAPC] on worker [i] *)
  env_QueueUserAPC : nat -> SubmitResult;
  (** whether [WorkerThreadLoop] of worker [i] returns, so that [join()]
      on it returns *)
  env_worker_returns : nat -> bool;
  (** the atomics once every worker has been joined *)
  env_at_joined : IOUtils;
  (** outcome of [FlushFileBuffers] on the destination *)
  env_FlushFileBuffers : bool
}.

(** The workers have run: the atomics now hold [s]. *)
Definition observe (s : IOUtils) : M unit := modify_io (fun _ => s).

(** Lines 223-227: [emplace_back] of the worker threads [i .. i+n-1]. *)
Fixpoint launch_workers (env : CopyEnv) (n : nat) (i : nat) : M unit :=
  match n with
  | O => ret tt
  | S n' =>
    emit (EvThreadStart i) ;;
    modify_copier
      (fun b =>
         set_workerThreads
           (m_workerThreads b ++ [mkWorker true (env_thread_handle env i)]) b) ;;
    launch_workers env n' (S i)
  end.

(** Lines 235-256: the monitoring loop.  Each iteration evaluates the
    condition on the next observation; progress lines are [LOG_INFO].
    [true]: the loop was left.  [false]: the condition held at every
    observation, the controller is still in the loop. *)
Fixpoint monitor (polls : list IOUtils) : M bool :=
  match polls with
  | [] => ret false
  | s :: rest =>
    observe s ;;
    pending <- load m_pendingIOs ;;
    rc <- load m_readComplete ;;
    err <- load m_errOccurred ;;
    if ((pending >? 0) || negb rc) && negb err then monitor rest
    else ret true
  end.

(** Lines 262-282: the wake-up loop over the workers from index [i]. *)
Fixpoint wake_workers (env : CopyEnv) (ts : list Worker) (i : nat) : M unit :=
  match ts with
  | [] => ret tt
  | t :: rest =>
    when (joinable t && negb (native_handle t =? INVALID_HANDLE_VALUE))
      (emit (EvQueueUserAPC i) ;;
       match env_QueueUserAPC env i with
       | Submitted => ret tt
       | Failed err =>
         when (negb (err =? ERROR_GEN_FAILURE))
           (log LVL_ERROR MsgQueueApcFailed)
       end) ;;
    wake_workers env rest (S i)
  end.

(** Lines 289-294: join every joinable worker.  The first component of the
    result is [false] when some [join()] never returns; the second is the
    thread vector as the loop leaves it. *)
Fixpoint join_workers (env : CopyEnv) (ts : list Worker) (i : nat)
  : M (bool * list Worker) :=
  match ts with
  | [] => ret (true, [])
  | t :: rest =>
    if joinable t then
      emit (EvJoin i) ;;
      if env_worker_returns env i then
        ' (ok, rest') <- join_workers env rest (S i) ;;
        ret (ok, mkWorker false (native_handle t) :: rest')
      else ret (false, t :: rest)
    else
      ' (ok, rest') <- join_workers env rest (S i) ;;
      ret (ok, t :: rest')
  end.

Definition is_empty {A : Type} (l : list A) : bool :=
  match l with
  | [] => true
  | _ :: _ => false
  end.

(** [BlockCopier::StartCopy] (lines 202-316).  The result is [None] when
    the call does not return: the monitoring loop is never left or a
    [join()] blocks for ever. *)
Definition StartCopy (env : CopyEnv) : M (option bool) :=
  hSrc <- get m_hSrc ;;
  hDest <- get m_hDest ;;
  cntxts <- get m_cntxts ;;
  if (hSrc =? INVALID_HANDLE_VALUE) || (hDest =? INVALID_HANDLE_VALUE)
     || is_empty cntxts
  then
    log LVL_ERROR MsgNotInitialized ;; ret (Some false)
  else
    store_readComplete false ;;
    store_errOccurred false ;;
    store_fileOffset 0 ;;
    store_pendingIOs 0 ;;
    modify_copier (set_bytesReadTotal 0) ;;
    modify_copier (set_bytesWrittenTotal 0) ;;
    modify_copier (set_workerThreads []) ;;
    numOfThreads <- get m_numOfThreads ;;
    launch_workers env (Z.to_nat numOfThreads) 0 ;;
    exited <- monitor (env_polls env) ;;
    if negb exited then ret None
    else
      observe (env_at_wakeup env) ;;
      err <- load m_errOccurred ;;
      threads <- get m_workerThreads ;;
      when (negb err) (wake_workers env threads 0) ;;
      ' (joined, threads) <- join_workers env threads 0 ;;
      modify_copier (set_workerThreads threads) ;;
      if negb joined then ret None
      else
        observe (env_at_joined env) ;;
        emit (EvFlushFileBuffers hDest) ;;
        when (negb (env_FlushFileBuffers env))
          (log LVL_ERROR MsgFlushFailed ;; store_errOccurred true) ;;
        err <- load m_errOccurred ;;
        if err then
          log LVL_ERROR MsgCompletedWithErrors ;; ret (Some false)
        else ret (Some true).

(* ===================================================================== *)
(** ** main.cpp: the copier as [wmain] drives it (lines 57-82) *)
(* ===================================================================== *)

(** The process exit code, [None] when [StartCopy] does not return.  The
    destructor of the copier runs after the exit code is fixed and is not
    part of the model. *)
Definition wmain (ienv : InitEnv) (cenv : CopyEnv) (srcPath dstPath : string)
    (numThreads blockSizeMB : Z) : M (option Z) :=
  ok <- Initialize ienv srcPath dstPath numThreads blockSizeMB ;;
  if negb ok then
    log LVL_ERROR MsgInitializeFailed ;; ret (Some 1)
  else
    r <- StartCopy cenv ;;
    match r with
    | None => ret None
    | Some false => log LVL_ERROR MsgStartCopyFailed ;; ret (Some 1)
    | Some true => ret (Some 0)
    end.

(* ===================================================================== *)
(** ** Notions used to state the properties *)
(* ===================================================================== *)

(** A sequence of claim steps.  Between two steps the other threads may
    have changed anything but [m_fileOffset], which only the claim step
    and the reset at the start of [StartCopy] write. *)
Inductive claim_seq (b T : Z) : World -> list Claim -> Prop :=
| claim_seq_nil : forall w, claim_seq b T w []
| claim_seq_cons : forall w w1 w2 c cs,
    m_fileOffset (io w1) = m_fileOffset (io w) ->
    claim_block b T w1 = (c, w2) ->
    claim_seq b T w2 cs ->
    claim_seq b T w (c :: cs).

(** The contract of the offset allocator in the words of the
    specification: at offset [o] the claim is end-of-source when [o] has
    reached the total size [T], and otherwise the block at [o] of length
    [min (b, T - o)]. *)
Definition spec_claim (b T o : Z) : Claim :=
  if T <=? o then NoMoreReads o else Claimed o (Z.min b (T - o)).

(** Half-open intervals [[o1, o1+l1)] and [[o2, o2+l2)] do not meet. *)
Definition disjoint (o1 l1 o2 l2 : Z) : Prop :=
  o1 + l1 <= o2 \/ o2 + l2 <= o1.

(** [p] is the least multiple of [s] that is at least [n]. *)
Definition least_multiple_ge (s n p : Z) : Prop :=
  (s | p) /\ n <= p /\ forall q, (s | q) -> n <= q -> p <= q.

(** The monitoring condition of line 235 on one observation. *)
Definition keeps_monitoring (s : IOUtils) : bool :=
  ((m_pendingIOs s >? 0) || negb (m_readComplete s)) && negb (m_errOccurred s).

(** What [Initialize] requires of the copier for [StartCopy] to start. *)
Definition initialized (b : BlockCopier) : Prop :=
  m_hSrc b <> INVALID_HANDLE_VALUE /\ m_hDest b <> INVALID_HANDLE_VALUE /\
  m_cntxts b <> [].

(** No event of [es] starts copying work. *)
Definition quiet (es : list Event) : Prop :=
  forallb (fun e => negb (starts_work e)) es = true.

(** Whether the monitoring loop is left at one of the observations, and
    the atomics as last observed by it. *)
Definition monitor_exits (polls : list IOUtils) : bool :=
  existsb (fun s => negb (keeps_monitoring s)) polls.

Fixpoint monitor_view (polls : list IOUtils) (s0 : IOUtils) : IOUtils :=
  match polls with
  | [] => s0
  | s :: rest => if keeps_monitoring s then monitor_view rest s else s
  end.

(** The thread vector after [n] workers were launched from index [i]. *)
Definition launched (env : CopyEnv) (i n : nat) : list Worker :=
  map (fun k => mkWorker true (env_thread_handle env k)) (seq i n).

(** Workers among the first [n] whose thread handle is valid. *)
Definition wakeable (env : CopyEnv) (n : nat) : list nat :=
  filter (fun k => negb (env_thread_handle env k =? INVALID_HANDLE_VALUE))
    (seq 0 n).

(** Whether every one of the first [n] workers returns. *)
Definition workers_return (env : CopyEnv) (n : nat) : bool :=
  forallb (env_worker_returns env) (seq 0 n).

Definition is_join_event (e : Event) : bool :=
  match e with
  | EvJoin _ => true
  | _ => false
  end.

(** The sector size [Initialize] settles on (lines 142-159). *)
Definition settled_sector (env : InitEnv) : Z :=
  if env_sectorSize env =? 0 then 4096 else env_sectorSize env.

(** Every check of [Initialize] other than the capacity check passes. *)
Definition other_checks_pass (env : InitEnv) (nThreads blockSizeMB : Z) : Prop :=
  1 <= nThreads <= 64 /\ block_bytes blockSizeMB <> 0 /\
  env_open_src env <> INVALID_HANDLE_VALUE /\
  env_open_dest env <> INVALID_HANDLE_VALUE /\
  env_srcSize env <> 0 /\ env_destSize env <> 0 /\
  (env_sectorSize env = 0 -> env_proceed_choice env <> 0) /\
  block_bytes blockSizeMB mod settled_sector env = 0 /\
  forall i, (i < Z.to_nat nThreads)%nat ->
    env_VirtualAlloc env i <> 0 /\
    env_VirtualAlloc env i mod settled_sector env = 0.

(* ===================================================================== *)
(** ** Concrete inputs for the examples *)
(* ===================================================================== *)

(** A fresh copier whose atomics hold [s]. *)
Definition world_with_io (s : IOUtils) : World :=
  mkWorld (set_ioUtilsObj s BlockCopier_new) [].

(** A source of 10 bytes claimed in blocks of 4: three reads, then end of
    source. *)
Definition ex_claims : list Claim :=
  [Claimed 0 4; Claimed 4 4; Claimed 8 2; NoMoreReads 12].

(** A context with a buffer of [bSize] bytes at address 4096 whose back
    pointer is set. *)
Definition ex_context (bSize : Z) : IOContext :=
  set_curInst true (IOContext_new bSize 4096).

(** An initialised engine: handles 8 (source) and 9 (destination), the
    given destination sector size, one write in flight. *)
Definition ex_engine (sector : Z) : World :=
  mkWorld
    (set_ioUtilsObj (mkIOUtils 1 1024 false false)
       (set_destSectorSize sector (set_hDest 9 (set_hSrc 8 BlockCopier_new))))
    [].

(** A cooperative environment for [Initialize]: handles 8 and 9, the given
    source size and destination capacity, 512-byte sectors, buffers at
    multiples of 64 KiB. *)
Definition ex_init_env (srcSize destSize : Z) : InitEnv :=
  mkInitEnv 8 9 srcSize destSize 512 1 (fun i => 65536 * (Z.of_nat i + 1)).

(** A run of [StartCopy] with [n] observations of [s] in the monitoring
    loop, where every later load sees [s] as well, every worker returns and
    the flush answers [flushed]. *)
Definition ex_copy_env (n : nat) (s : IOUtils) (flushed : bool) : CopyEnv :=
  mkCopyEnv (fun i => 100 + Z.of_nat i) (repeat s n) s (fun _ => Submitted)
    (fun _ => true) s flushed.

(** The atomics of a drained copy, without and with an error. *)
Definition ex_drained : IOUtils := mkIOUtils 0 4194304 true false.
Definition ex_failed : IOUtils := mkIOUtils 1 2097152 false true.

(** The copier after a successful [Initialize] with two threads. *)
Definition ex_ready : World :=
  snd (Initialize (ex_init_env 1048576 1048576) "src" "dst" 2 1 World_new).

(* ===================================================================== *)
(** ** IOUtils.cpp: the callbacks the operating system calls *)
(* ===================================================================== *)

(** [StaticReadCompletion] (lines 222-233). *)
Definition StaticReadCompletion (os : SubmitResult)
    (errCode numOfBytesTransfered : Z) (lpOverlapped : option IOContext)
  : M (option IOContext) :=
  match lpOverlapped with
  | None => log LVL_ERROR MsgInvalidContext ;; ret None
  | Some cntxt =>
    if negb (curInst cntxt) then
      log LVL_ERROR MsgInvalidContext ;; ret (Some cntxt)
    else OnReadCompletion os errCode numOfBytesTransfered lpOverlapped
  end.

(** [StaticWriteCompletion] (lines 235-246). *)
Definition StaticWriteCompletion (errCode numOfBytesTransfered : Z)
    (lpOverlapped : option IOContext) : M (option IOContext) :=
  match lpOverlapped with
  | None => log LVL_ERROR MsgInvalidContext ;; ret None
  | Some cntxt =>
    if negb (curInst cntxt) then
      log LVL_ERROR MsgInvalidContext ;; ret (Some cntxt)
    else OnWriteCompletion errCode numOfBytesTransfered lpOverlapped
  end.

(** [DummyApcCompletion] (lines 248-251): a [LOG_DEBUG] line only. *)
Definition DummyApcCompletion : M unit := ret tt.

(* ===================================================================== *)
(** ** BlockCopier.cpp: WorkerThreadLoop, as run by one worker thread *)
(* ===================================================================== *)

(** What the operating system runs in the worker thread during one
    alertable wait: completion callbacks of operations submitted on the
    worker's own context, or the controller's no-op wake-up.  A read
    completion carries the outcome of the [WriteFileEx] its handler may
    submit. *)
Inductive Apc : Type :=
| ApcReadDone (errCode numOfBytesTransfered : Z) (osWrite : SubmitResult)
| ApcWriteDone (errCode numOfBytesTransfered : Z)
| ApcDummy.

(** One return of [SleepEx(INFINITE, TRUE)]: what the other threads did to
    the atomics while this worker waited, the callbacks that ran in it, and
    the outcome of the [ReadFileEx] the worker may submit next. *)
Record Wakeup : Type := mkWakeup {
  wk_others : IOUtils -> IOUtils;
  wk_apcs : list Apc;
  wk_read : SubmitResult
}.

Record WorkerEnv : Type := mkWorkerEnv {
  (** outcome of the [ReadFileEx] of the initial read *)
  we_first_read : SubmitResult;
  (** the successive returns of [SleepEx]; when they run out the worker
      waits for ever *)
  we_wakeups : list Wakeup
}.

(** How [WorkerThreadLoop] ends: by the [return] of line 26, by the loop
    condition of lines 31-32, by the [break] of line 43, of line 52 or of
    line 57, or not at all. *)
Inductive WorkerExit : Type :=
| ExitInitialRead
| ExitLoopCondition
| ExitErrorDetected
| ExitNoMoreReads
| ExitUnexpected
| ExitNever.

(** The callbacks of one wait, run on the worker's context. *)
Definition run_apc (a : Apc) (context : IOContext) : M IOContext :=
  match a with
  | ApcReadDone errCode n osWrite =>
    r <- StaticReadCompletion osWrite errCode n (Some context) ;;
    ret (match r with Some c => c | None => context end)
  | ApcWriteDone errCode n =>
    r <- StaticWriteCompletion errCode n (Some context) ;;
    ret (match r with Some c => c | None => context end)
  | ApcDummy => DummyApcCompletion ;; ret context
  end.

Fixpoint run_apcs (apcs : list Apc) (context : IOContext) : M IOContext :=
  match apcs with
  | [] => ret context
  | a :: rest => context <- run_apc a context ;; run_apcs rest context
  end.

(** The loop of lines 31-65. *)
Fixpoint worker_loop (wakeups : list Wakeup) (hSrc : HANDLE)
    (blockSize totalFileSize : Z) (context : IOContext)
  : M (WorkerExit * IOContext) :=
  err <- load m_errOccurred ;;
  rc <- load m_readComplete ;;
  pending <- load m_pendingIOs ;;
  if negb (negb err && negb (rc && (pending =? 0))) then
    ret (ExitLoopCondition, context)
  else
    match wakeups with
    | [] => ret (ExitNever, context)
    | wk :: rest =>
      modify_io (wk_others wk) ;;
      context <- run_apcs (wk_apcs wk) context ;;
      if completed context then
        let context := set_completed false context in
        err <- load m_errOccurred ;;
        if err then
          log LVL_ERROR MsgWorkerErrorDetected ;;
          ret (ExitErrorDetected, context)
        else
          rc <- load m_readComplete ;;
          if negb rc then
            ' (ok, context) <-
              IssueRead (wk_read wk) hSrc context blockSize totalFileSize ;;
            if negb ok then
              rc <- load m_readComplete ;;
              err <- load m_errOccurred ;;
              if rc || err then ret (ExitNoMoreReads, context)
              else
                log LVL_ERROR MsgWorkerUnexpectedReadFailure ;;
                ret (ExitUnexpected, context)
            else worker_loop rest hSrc blockSize totalFileSize context
          else worker_loop rest hSrc blockSize totalFileSize context
      else worker_loop rest hSrc blockSize totalFileSize context
    end.

(** [BlockCopier::WorkerThreadLoop] (lines 16-69).  [hDest] is passed and
    not used: the write handle is read from the copier. *)
Definition WorkerThreadLoop (env : WorkerEnv) (context : IOContext)
    (hSrc hDest : HANDLE) (blockSize totalFileSize : Z)
  : M (WorkerExit * IOContext) :=
  let context := set_curInst true context in
  ' (ok, context) <-
    IssueRead (we_first_read env) hSrc context blockSize totalFileSize ;;
  if negb ok then ret (ExitInitialRead, context)
  else worker_loop (we_wakeups env) hSrc blockSize totalFileSize context.

(* ===================================================================== *)
(** ** BlockCopier.h: the destructor; main.cpp: the whole of wmain *)
(* ===================================================================== *)

(** [BlockCopier::~BlockCopier] (BlockCopier.h lines 51-68).  [false] when
    a [join()] never returns. *)
Definition BlockCopier_destroy (env : CopyEnv) : M bool :=
  threads <- get m_workerThreads ;;
  ' (joined, threads) <- join_workers env threads 0 ;;
  modify_copier (set_workerThreads threads) ;;
  if negb joined then ret false
  else
    hSrc <- get m_hSrc ;;
    when (negb (hSrc =? INVALID_HANDLE_VALUE))
      (CloseHandle hSrc ;; modify_copier (set_hSrc INVALID_HANDLE_VALUE)) ;;
    hDest <- get m_hDest ;;
    when (negb (hDest =? INVALID_HANDLE_VALUE))
      (CloseHandle hDest ;; modify_copier (set_hDest INVALID_HANDLE_VALUE)) ;;
    ret true.

(** What the command line and the user answer to [wmain]: [_wtoi], and the
    value read from [std::cin] at the confirmation prompt. *)
Record CliEnv : Type := mkCliEnv {
  cli_wtoi : string -> Z;
  cli_proceed : bool
}.

(** main.cpp lines 6-39: the thread count and block size in MB, [None]
    when [wmain] prints the usage or rejects the values and returns 1. *)
Definition parse_args (wtoi : string -> Z) (argv : list string)
  : option (Z * Z) :=
  let argc := Z.of_nat (length argv) in
  if (argc <? 3) || (argc >? 5) then None
  else if (argc =? 4) && String.eqb (nth 3 argv EmptyString) "--usedefault"
  then Some (DEFAULT_MAX_OUTSTANDING_IO, DEFAULT_BLOCK_SIZE_MB)
  else if argc =? 5 then
    let numThreads := wtoi (nth 3 argv EmptyString) in
    let blockSizeMB := wtoi (nth 4 argv EmptyString) in
    if (numThreads <=? 0) || (blockSizeMB <=? 0) then None
    else Some (numThreads, blockSizeMB)
  else None.

(** [wmain] (main.cpp lines 4-83), with the destructor of the copier at the
    end of its scope.  The calls on the logger act on the logger only and
    are left to its own model. *)
Definition wmain_entry (cli : CliEnv) (ienv : InitEnv) (cenv : CopyEnv)
    (argv : list string) : M (option Z) :=
  match parse_args (cli_wtoi cli) argv with
  | None => ret (Some 1)
  | Some (numThreads, blockSizeMB) =>
    if negb (cli_proceed cli) then ret (Some 0)
    else
      code <- wmain ienv cenv (nth 1 argv EmptyString) (nth 2 argv EmptyString)
                numThreads blockSizeMB ;;
      match code with
      | None => ret None
      | Some c =>
        destroyed <- BlockCopier_destroy cenv ;;
        if destroyed then ret (Some c) else ret None
      end
  end.

(* ===================================================================== *)
(** ** DiskUtils.cpp: the size and sector queries [Initialize] relies on *)
(* ===================================================================== *)

(** A wide string is the list of its characters before the terminator;
    [path[i]] at the end of the string is the terminator 0. *)
Definition wchar_at (path : list Z) (i : nat) : Z := nth i path 0.
Definition wcslen (path : list Z) : Z := Z.of_nat (length path).

Definition BACKSLASH : Z := 92.
Definition DOT : Z := 46.
Definition COLON : Z := 58.
Definition ERROR_NOT_SUPPORTED : Z := 50.
Definition ERROR_INVALID_PARAMETER : Z := 87.

(** A call of the operating system made by [DiskUtils]. *)
Inductive DiskCall : Type :=
| IOCTL_DISK_GET_DRIVE_GEOMETRY (h : HANDLE)
| IOCTL_DISK_GET_LENGTH_INFO (h : HANDLE)
| IOCTL_DISK_GET_DRIVE_GEOMETRY_EX (h : HANDLE)
| GetFileSizeEx (h : HANDLE)
| GetDiskFreeSpaceExW (root : list Z).

(** What [DiskUtils] does that can be seen from outside: its calls, and
    its warning and error lines. *)
Inductive DiskEvent : Type :=
| DkCall (c : DiskCall)
| DkWarning
| DkError.

(** The answers of the operating system: the value a successful call
    stores, or the code [GetLastError] gives for [DeviceIoControl] on the
    geometry; and the [iswalpha] of the C library. *)
Record DiskEnv : Type := mkDiskEnv {
  dk_iswalpha : Z -> bool;
  dk_geometry : HANDLE -> Z + Z;
  dk_length_info : HANDLE -> option Z;
  dk_geometry_ex : HANDLE -> option Z;
  dk_file_size : HANDLE -> option Z;
  dk_free_space : list Z -> option Z
}.

(** The test of line 19 on the path. *)
Definition drive_letter_prefix (env : DiskEnv) (path : option (list Z)) : bool :=
  match path with
  | None => false
  | Some p =>
    (wchar_at p 0 =? BACKSLASH) && (wchar_at p 1 =? DOT) &&
    (wchar_at p 2 =? BACKSLASH) && dk_iswalpha env (wchar_at p 3) &&
    (wchar_at p 4 =? COLON)
  end.

(** [DiskUtils::GetVolumeSectorSize] (lines 5-29).  [path] may be null. *)
Definition GetVolumeSectorSize (env : DiskEnv) (hFile : HANDLE)
    (path : option (list Z)) (isSrc : bool) : Z * list DiskEvent :=
  match dk_geometry env hFile with
  | inl BytesPerSector =>
    (BytesPerSector, [DkCall (IOCTL_DISK_GET_DRIVE_GEOMETRY hFile)])
  | inr err =>
    if ((err =? ERROR_INVALID_PARAMETER) || (err =? ERROR_NOT_SUPPORTED))
       && drive_letter_prefix env path
    then (0, [DkCall (IOCTL_DISK_GET_DRIVE_GEOMETRY hFile); DkWarning])
    else (0, [DkCall (IOCTL_DISK_GET_DRIVE_GEOMETRY hFile); DkError])
  end.

(** The local [isDriveLetter] of lines 67-74. *)
Definition isDriveLetter (env : DiskEnv) (path : list Z) : bool :=
  if (wcslen path >=? 5) && (wchar_at path 0 =? BACKSLASH)
     && (wchar_at path 1 =? DOT) && (wchar_at path 2 =? BACKSLASH)
  then
    if dk_iswalpha env (wchar_at path 3) && (wchar_at path 4 =? COLON) then
      if (wcslen path =? 5)
         || ((wcslen path =? 6) && (wchar_at path 5 =? BACKSLASH))
      then true else false
    else false
  else false.

(** The buffer [driveLetterRoot] of lines 80-83: two characters copied
    from [path + 2], then a backslash. *)
Definition driveLetterRoot (path : list Z) : list Z :=
  [wchar_at path 2; wchar_at path 3; BACKSLASH].

(** [DiskUtils::GetDiskOrDriveSize] (lines 31-146).  The total number of
    bytes of [GetDiskFreeSpaceExW] is unsigned and is stored in a
    [LONGLONG]. *)
Definition GetDiskOrDriveSize (env : DiskEnv) (handle : HANDLE)
    (path : list Z) (isSrc : bool) : Z * list DiskEvent :=
  if isSrc then
    match dk_length_info env handle with
    | None =>
      match dk_file_size env handle with
      | Some QuadPart =>
        (QuadPart, [DkCall (IOCTL_DISK_GET_LENGTH_INFO handle);
                    DkCall (GetFileSizeEx handle)])
      | None =>
        (0, [DkCall (IOCTL_DISK_GET_LENGTH_INFO handle);
             DkCall (GetFileSizeEx handle); DkError])
      end
    | Some QuadPart =>
      (QuadPart, [DkCall (IOCTL_DISK_GET_LENGTH_INFO handle)])
    end
  else if isDriveLetter env path then
    let root := driveLetterRoot path in
    match dk_free_space env root with
    | Some totalNumOfBytes =>
      (to_LONGLONG totalNumOfBytes, [DkCall (GetDiskFreeSpaceExW root)])
    | None =>
      match dk_length_info env handle with
      | Some QuadPart =>
        (QuadPart, [DkCall (GetDiskFreeSpaceExW root);
                    DkCall (IOCTL_DISK_GET_LENGTH_INFO handle)])
      | None =>
        match dk_file_size env handle with
        | Some QuadPart =>
          (QuadPart, [DkCall (GetDiskFreeSpaceExW root);
                      DkCall (IOCTL_DISK_GET_LENGTH_INFO handle);
                      DkCall (GetFileSizeEx handle)])
        | None =>
          (0, [DkCall (GetDiskFreeSpaceExW root);
               DkCall (IOCTL_DISK_GET_LENGTH_INFO handle);
               DkCall (GetFileSizeEx handle); DkError])
        end
      end
    end
  else
    match dk_length_info env handle with
    | Some QuadPart =>
      (QuadPart, [DkCall (IOCTL_DISK_GET_LENGTH_INFO handle)])
    | None =>
      match dk_geometry_ex env handle with
      | Some QuadPart =>
        (QuadPart, [DkCall (IOCTL_DISK_GET_LENGTH_INFO handle);
                    DkCall (IOCTL_DISK_GET_DRIVE_GEOMETRY_EX handle)])
      | None =>
        (0, [DkCall (IOCTL_DISK_GET_LENGTH_INFO handle);
             DkCall (IOCTL_DISK_GET_DRIVE_GEOMETRY_EX handle); DkError])
      end
    end.

(** The environment answers of the operating system to one call, stored
    as the code stores them. *)
Definition answer (env : DiskEnv) (c : DiskCall) : option Z :=
  match c with
  | IOCTL_DISK_GET_DRIVE_GEOMETRY h =>
    match dk_geometry env h with inl v => Some v | inr _ => None end
  | IOCTL_DISK_GET_LENGTH_INFO h => dk_length_info env h
  | IOCTL_DISK_GET_DRIVE_GEOMETRY_EX h => dk_geometry_ex env h
  | GetFileSizeEx h => dk_file_size env h
  | GetDiskFreeSpaceExW root =>
    match dk_free_space env root with
    | Some v => Some (to_LONGLONG v)
    | None => None
    end
  end.

(** Asking the calls of a list in order until one succeeds: the answer of
    the first success, and 0 with an error line when all fail. *)
Fixpoint first_answer (env : DiskEnv) (plan : list DiskCall)
  : Z * list DiskEvent :=
  match plan with
  | [] => (0, [DkError])
  | c :: rest =>
    match answer env c with
    | Some v => (v, [DkCall c])
    | None =>
      let '(v, es) := first_answer env rest in (v, DkCall c :: es)
    end
  end.

(** The order in which the size of a source, of a destination given by a
    drive letter and of any other destination is asked for. *)
Definition size_plan (handle : HANDLE) (path : list Z) (isSrc drive : bool)
  : list DiskCall :=
  if isSrc then [IOCTL_DISK_GET_LENGTH_INFO handle; GetFileSizeEx handle]
  else if drive then
    [GetDiskFreeSpaceExW [BACKSLASH; wchar_at path 3; BACKSLASH];
     IOCTL_DISK_GET_LENGTH_INFO handle; GetFileSizeEx handle]
  else
    [IOCTL_DISK_GET_LENGTH_INFO handle; IOCTL_DISK_GET_DRIVE_GEOMETRY_EX handle].

(** The characters of a string as wide characters. *)
Definition wide (s : string) : list Z :=
  map (fun a => Z.of_N (Ascii.N_of_ascii a)) (list_ascii_of_string s).

(* ===================================================================== *)
(** ** LogUtils.cpp: the logger behind the [LOG_] macros *)
(* ===================================================================== *)

Module LogUtils.

(** [enum class LogLevel] (LogUtils.h lines 21-28). *)
Inductive LogLevel : Type :=
| DEBUG
| INFO
| WARNING
| ERROR_LEVEL
| CRITICAL
| NONE.

(** The value of the enumerator, which [operator<] compares. *)
Definition rank (l : LogLevel) : Z :=
  match l with
  | DEBUG => 0
  | INFO => 1
  | WARNING => 2
  | ERROR_LEVEL => 3
  | CRITICAL => 4
  | NONE => 5
  end.

(** A line as it is written: its level and its formatted message.  The
    time stamp and the process and thread ids in front of it are left
    out. *)
Definition Line : Type := (LogLevel * string)%type.

(** [DEFAULT_LOG_FILE_PATH] (LogUtils.h line 10). *)
Definition DEFAULT_LOG_FILE_PATH : string := "file_backup.log".

(** The logger and what it writes to: its three atomics; the file
    [m_logFileStream] is open on, if it is open; what has been written to
    [std::wcout]; the lines of every file, by path; and the number of
    complaints on [std::wcerr]. *)
Record Logger : Type := mkLogger {
  m_currentLogLevel : LogLevel;
  m_consoleLoggingEnabled : bool;
  m_fileLoggingEnabled : bool;
  m_logFileStream : option string;
  wcout : list Line;
  files : string -> list Line;
  wcerr : nat
}.

(** [m_logFileStream.is_open()]. *)
Definition is_open (g : Logger) : bool :=
  match m_logFileStream g with
  | Some _ => true
  | None => false
  end.

(** [LogUtils::LogUtils()] (lines 17-24), on a file system [fs]. *)
Definition Logger_new (fs : string -> list Line) : Logger :=
  mkLogger INFO true false None [] fs 0.

(** [SetLogLevel] (lines 90-92). *)
Definition SetLogLevel (level : LogLevel) (g : Logger) : Logger :=
  mkLogger level (m_consoleLoggingEnabled g) (m_fileLoggingEnabled g)
    (m_logFileStream g) (wcout g) (files g) (wcerr g).

(** [EnableConsoleLogging] (lines 94-96). *)
Definition EnableConsoleLogging (enable : bool) (g : Logger) : Logger :=
  mkLogger (m_currentLogLevel g) enable (m_fileLoggingEnabled g)
    (m_logFileStream g) (wcout g) (files g) (wcerr g).

Definition set_fileLoggingEnabled (enabled : bool) (g : Logger) : Logger :=
  mkLogger (m_currentLogLevel g) (m_consoleLoggingEnabled g) enabled
    (m_logFileStream g) (wcout g) (files g) (wcerr g).

(** [m_logFileStream.close()]. *)
Definition stream_close (g : Logger) : Logger :=
  mkLogger (m_currentLogLevel g) (m_consoleLoggingEnabled g)
    (m_fileLoggingEnabled g) None (wcout g) (files g) (wcerr g).

(** The file system with the lines of [path] replaced. *)
Definition write_file (path : string) (lines : list Line)
    (fs : string -> list Line) : string -> list Line :=
  fun p => if String.eqb p path then lines else fs p.

(** [m_logFileStream.open(filePath, out | (append ? app : trunc))]: on a
    stream that is open it fails and leaves the stream as it is; otherwise,
    when the file can be opened, the stream is open on it, and the file is
    emptied unless [append] is set. *)
Definition stream_open (filePath : string) (append can_open : bool)
    (g : Logger) : Logger :=
  if is_open g then g
  else if can_open then
    mkLogger (m_currentLogLevel g) (m_consoleLoggingEnabled g)
      (m_fileLoggingEnabled g) (Some filePath) (wcout g)
      (if append then files g else write_file filePath [] (files g))
      (wcerr g)
  else g.

(** [EnableFileLogging] (lines 98-121); [can_open] is whether the file can
    be opened. *)
Definition EnableFileLogging (enable : bool) (filePath : string)
    (append : bool) (can_open : bool) (g : Logger) : Logger :=
  let g :=
    if m_fileLoggingEnabled g && is_open g then stream_close g else g in
  let g := set_fileLoggingEnabled enable g in
  if enable then
    let g := stream_open filePath append can_open g in
    if negb (is_open g) then
      mkLogger (m_currentLogLevel g) (m_consoleLoggingEnabled g) false
        (m_logFileStream g) (wcout g) (files g) (S (wcerr g))
    else g
  else g.

(** [CloseFileLog] (lines 123-129). *)
Definition CloseFileLog (g : Logger) : Logger :=
  set_fileLoggingEnabled false
    (if is_open g then stream_close g else g).

(** [Log] (lines 163-198). *)
Definition Log (level : LogLevel) (message : string) (g : Logger) : Logger :=
  if rank level <? rank (m_currentLogLevel g) then g
  else
    let out :=
      if m_consoleLoggingEnabled g then wcout g ++ [(level, message)]
      else wcout g in
    let fs :=
      match m_logFileStream g with
      | Some path =>
        if m_fileLoggingEnabled g
        then write_file path (files g path ++ [(level, message)]) (files g)
        else files g
      | None => files g
      end in
    mkLogger (m_currentLogLevel g) (m_consoleLoggingEnabled g)
      (m_fileLoggingEnabled g) (m_logFileStream g) out fs (wcerr g).

(** The public logging methods (lines 201-234). *)
Definition Debug : string -> Logger -> Logger := Log DEBUG.
Definition Info : string -> Logger -> Logger := Log INFO.
Definition Warning : string -> Logger -> Logger := Log WARNING.
Definition Error : string -> Logger -> Logger := Log ERROR_LEVEL.
Definition Critical : string -> Logger -> Logger := Log CRITICAL.

(** [Initialize] (lines 26-67); [logType] and [logLevel] are the numbers
    read from [std::wcin].  The call [EnableFileLogging(false)] takes the
    default path and [append]. *)
Definition Initialize (logType logLevel : Z) (can_open : bool) (g : Logger)
  : Logger :=
  let g :=
    if logType =? 1 then
      EnableFileLogging false DEFAULT_LOG_FILE_PATH true can_open
        (EnableConsoleLogging true g)
    else if logType =? 2 then
      EnableFileLogging true DEFAULT_LOG_FILE_PATH true can_open
        (EnableConsoleLogging false g)
    else if logType =? 3 then
      EnableFileLogging true DEFAULT_LOG_FILE_PATH true can_open
        (EnableConsoleLogging true g)
    else g in
  let g :=
    if logLevel =? 0 then SetLogLevel DEBUG g
    else if logLevel =? 1 then SetLogLevel INFO g
    else if logLevel =? 2 then SetLogLevel WARNING g
    else if logLevel =? 3 then SetLogLevel ERROR_LEVEL g
    else if logLevel =? 4 then SetLogLevel CRITICAL g
    else if logLevel =? 5 then SetLogLevel NONE g
    else SetLogLevel INFO g in
  Info "Log Open" g.

(** [DeInitialize] (lines 69-73). *)
Definition DeInitialize (g : Logger) : Logger :=
  CloseFileLog (Info "Log Close" g).

(** A call on the logger through its public interface. *)
Inductive Op : Type :=
| OpSetLogLevel (level : LogLevel)
| OpEnableConsoleLogging (enable : bool)
| OpEnableFileLogging (enable : bool) (filePath : string)
    (append can_open : bool)
| OpCloseFileLog
| OpLog (level : LogLevel) (message : string)
| OpInitialize (logType logLevel : Z) (can_open : bool)
| OpDeInitialize.

Definition run_op (op : Op) (g : Logger) : Logger :=
  match op with
  | OpSetLogLevel level => SetLogLevel level g
  | OpEnableConsoleLogging enable => EnableConsoleLogging enable g
  | OpEnableFileLogging enable filePath append can_open =>
    EnableFileLogging enable filePath append can_open g
  | OpCloseFileLog => CloseFileLog g
  | OpLog level message => Log level message g
  | OpInitialize logType logLevel can_open =>
    Initialize logType logLevel can_open g
  | OpDeInitialize => DeInitialize g
  end.

Definition run_ops (ops : list Op) (g : Logger) : Logger :=
  fold_left (fun g op => run_op op g) ops g.

(** A call that asks for the log file [path] to be opened and emptied. *)
Definition truncates (path : string) (op : Op) : bool :=
  match op with
  | OpEnableFileLogging true filePath false _ => String.eqb path filePath
  | _ => false
  end.

(** The lines among [calls] that pass the filter of level [current]. *)
Definition passing (current : LogLevel) (calls : list Line) : list Line :=
  filter (fun l => negb (rank (fst l) <? rank current)) calls.

(** Logging the lines of [calls] one after the other. *)
Definition log_all (calls : list Line) (g : Logger) : Logger :=
  fold_left (fun g l => Log (fst l) (snd l) g) calls g.

(** Whether the file sink of [g] writes to [path]. *)
Definition writes_to (g : Logger) (path : string) : bool :=
  m_fileLoggingEnabled g &&
  match m_logFileStream g with
  | Some p => String.eqb path p
  | None => false
  end.

End LogUtils.

(* ===================================================================== *)
(** ** Notions used to state further properties *)
(* ===================================================================== *)

(** The latches are only ever set. *)
Definition latched (s s' : IOUtils) : Prop :=
  (m_readComplete s = true -> m_readComplete s' = true) /\
  (m_errOccurred s = true -> m_errOccurred s' = true).

(** The parts of a context that say where its buffer is and which block it
    holds. *)
Definition same_target (c c' : IOContext) : Prop :=
  buf c' = buf c /\ bufSize c' = bufSize c /\
  readOffset c' = readOffset c /\ curInst c' = curInst c /\
  Offset (overlapped c') = Offset (overlapped c) /\
  OffsetHigh (overlapped c') = OffsetHigh (overlapped c).

(** The configuration [Initialize] lays down. *)
Definition same_config (b b' : BlockCopier) : Prop :=
  m_hSrc b' = m_hSrc b /\ m_hDest b' = m_hDest b /\
  m_srcFileSize b' = m_srcFileSize b /\
  m_destCapacity b' = m_destCapacity b /\
  m_destSectorSize b' = m_destSectorSize b /\
  m_numOfThreads b' = m_numOfThreads b /\
  m_blockSize b' = m_blockSize b /\
  m_cntxts b' = m_cntxts b /\
  m_workerThreads b' = m_workerThreads b.

Definition is_submission (e : Event) : bool :=
  match e with
  | EvReadFileEx _ _ _ _ _ | EvWriteFileEx _ _ _ _ _ => true
  | _ => false
  end.

Definition is_close_event (e : Event) : bool :=
  match e with
  | EvCloseHandle _ => true
  | _ => false
  end.

(** The length the read-completion handler pads [n] bytes to for sectors
    of [s] bytes (IOUtils.cpp lines 178-188). *)
Definition padded_len (s n : Z) : Z :=
  if n mod s =? 0 then n else n + (s - n mod s).

(** The context as [IssueRead] prepares it for the block at [curOffset]
    (IOUtils.cpp lines 74-79). *)
Definition read_context (curOffset : Z) (c : IOContext) : IOContext :=
  set_bytesTransferred 0
    (set_readOffset curOffset
       (set_completed false
          (set_overlapped
             (mkOVERLAPPED
                (to_DWORD (Z.land curOffset 0xFFFFFFFF))
                (to_DWORD (Z.land (Z.shiftr curOffset 32) 0xFFFFFFFF))
                0) c))).

(** The context as the read-completion handler hands it to [IssueWrite]
    after a read of [n] bytes, for sectors of [s] bytes. *)
Definition padded_context (s n : Z) (c : IOContext) : IOContext :=
  set_bytesTransferred (padded_len s n)
    (if n mod s =? 0 then c else memset0 n (s - n mod s) c).

(** The context the loop of [Initialize] builds at index [i] (lines
    180-187). *)
Definition context_at (env : InitEnv) (blockSize : Z) (i : nat) : IOContext :=
  set_curInst true (IOContext_new blockSize (env_VirtualAlloc env i)).

(** What a context needs for unbuffered I/O in blocks of [blockSize] bytes
    on sectors of [sector] bytes. *)
Definition context_ready (blockSize sector : Z) (c : IOContext) : Prop :=
  bufSize c = blockSize /\ curInst c = true /\ completed c = false /\
  buf c <> 0 /\ buf c mod sector = 0.

(** The [CloseHandle] calls of a trace on handle [h]. *)
Definition closes_of (h : HANDLE) (es : list Event) : nat :=
  length (filter (fun e => match e with
                           | EvCloseHandle h' => h' =? h
                           | _ => false
                           end) es).

(** The parameters [Initialize] lets through (lines 83-92), in terms of
    its arguments. *)
Definition params_valid (nThreads blockSizeMB : Z) : bool :=
  (1 <=? nThreads) && (nThreads <=? 64) && negb (blockSizeMB mod 4096 =? 0).

(** Every check of [Initialize] before the context loop passes (lines
    83-169). *)
Definition checks_before_allocation (env : InitEnv) (nThreads blockSizeMB : Z)
  : Prop :=
  1 <= nThreads <= 64 /\ block_bytes blockSizeMB <> 0 /\
  env_open_src env <> INVALID_HANDLE_VALUE /\
  env_open_dest env <> INVALID_HANDLE_VALUE /\
  env_srcSize env <> 0 /\ env_destSize env <> 0 /\
  env_srcSize env <= env_destSize env /\
  (env_sectorSize env = 0 -> env_proceed_choice env <> 0) /\
  block_bytes blockSizeMB mod settled_sector env = 0.

(** The buffer of context [i] is allocated and aligned. *)
Definition buffer_ok (env : InitEnv) (i : nat) : Prop :=
  env_VirtualAlloc env i <> 0 /\
  env_VirtualAlloc env i mod settled_sector env = 0.

(** An environment as [ex_init_env] whose second allocation answers
    [addr]. *)
Definition ex_alloc_env (addr : Z) : InitEnv :=
  mkInitEnv 8 9 1048576 1048576 512 1
    (fun i => match i with O => 65536 | _ => addr end).

(** The thread vector after the [n] workers launched from index [i] were
    joined. *)
Definition joined (env : CopyEnv) (i n : nat) : list Worker :=
  map (fun k => mkWorker false (env_thread_handle env k)) (seq i n).

(** The [CloseHandle] calls of a trace, in order. *)
Definition closes (es : list Event) : list Event := filter is_close_event es.

(** A command line that asks for the default settings, and a user who
    confirms. *)
Definition ex_argv : list string :=
  ["FileBackup.exe"; "src"; "dst"; "--usedefault"]%string.

Definition ex_cli : CliEnv := mkCliEnv (fun _ => 0) true.

(* ----- one worker copying a whole source ----- *)

(** The length of the block at offset [o] of a source of [T] bytes. *)
Definition block_len (b T o : Z) : Z := Z.min b (T - o).

(** The two words of a file offset in an [OVERLAPPED]. *)
Definition lo_word (o : Z) : Z := to_DWORD (Z.land o 0xFFFFFFFF).
Definition hi_word (o : Z) : Z := to_DWORD (Z.land (Z.shiftr o 32) 0xFFFFFFFF).

(** An operating system that completes every operation in full: for each
    of [k] blocks from offset [o], one wait ends with the completion of the
    read, the next with the completion of the write that the read handler
    submitted.  No other thread touches the atomics. *)
Fixpoint ideal_wakeups (s b T o : Z) (k : nat) : list Wakeup :=
  match k with
  | O => []
  | S k' =>
    mkWakeup (fun x => x)
      [ApcReadDone ERROR_SUCCESS (block_len b T o) Submitted] Submitted ::
    mkWakeup (fun x => x)
      [ApcWriteDone ERROR_SUCCESS (padded_len s (block_len b T o))] Submitted ::
    ideal_wakeups s b T (o + b) k'
  end.

(** The submissions of a copy of [k] blocks from offset [o] by one worker:
    each block is read and then written at its own offset, one operation in
    flight at a time. *)
Fixpoint copy_trace (hSrc hDest : HANDLE) (s b T o : Z) (k : nat)
  : list Event :=
  match k with
  | O => []
  | S k' =>
    EvReadFileEx hSrc (lo_word o) (hi_word o) (block_len b T o) 1 ::
    EvWriteFileEx hDest (lo_word o) (hi_word o)
      (padded_len s (block_len b T o)) 1 ::
    copy_trace hSrc hDest s b T (o + b) k'
  end.

(** The engine between two operations of a copy. *)
Definition engine_state (b0 : BlockCopier) (pending offset : Z) (rc : bool)
    (rd wr : Z) (ev : list Event) : World :=
  mkWorld
    (set_bytesWrittenTotal wr
       (set_bytesReadTotal rd
          (set_ioUtilsObj (mkIOUtils pending offset rc false) b0)))
    ev.

(** The copier as [StartCopy] hands it to the workers: counters reset. *)
Definition fresh_engine (b0 : BlockCopier) (ev : list Event) : World :=
  engine_state b0 0 0 false 0 0 ev.

(** The file sink of the logger is enabled exactly when its stream is
    open. *)
Definition file_sink_consistent (g : LogUtils.Logger) : Prop :=
  LogUtils.m_fileLoggingEnabled g = LogUtils.is_open g.

(** The configuration of the logger. *)
Definition same_sinks (g g' : LogUtils.Logger) : Prop :=
  LogUtils.m_consoleLoggingEnabled g' = LogUtils.m_consoleLoggingEnabled g /\
  LogUtils.m_fileLoggingEnabled g' = LogUtils.m_fileLoggingEnabled g /\
  LogUtils.m_logFileStream g' = LogUtils.m_logFileStream g.

(** Nothing was written between [g] and [g']. *)
Definition nothing_written (g g' : LogUtils.Logger) : Prop :=
  LogUtils.wcout g' = LogUtils.wcout g /\
  forall path, LogUtils.files g' path = LogUtils.files g path.

(** Letters of the C locale. *)
Definition ex_iswalpha (c : Z) : bool :=
  ((65 <=? c) && (c <=? 90)) || ((97 <=? c) && (c <=? 122)).

(** A disk whose geometry query is refused and whose length is known only
    through the extended geometry. *)
Definition ex_disk_env : DiskEnv :=
  mkDiskEnv ex_iswalpha (fun _ => inr ERROR_INVALID_PARAMETER)
    (fun _ => None) (fun _ => Some 1000204886016) (fun _ => None)
    (fun _ => Some 999).

(** The operating system took the operation: its completion will be
    delivered. *)
Definition accepted (os : SubmitResult) : bool :=
  match os with
  | Submitted => true
  | Failed _ => false
  end.






(** A completion callback acts on a context only when the pointer and its
    back pointer are set. *)
Definition valid_context (lpOverlapped : option IOContext) : bool :=
  match lpOverlapped with
  | Some c => curInst c
  | None => false
  end.

(** The world after one more error line. *)
Definition logged (msg : LogMsg) (w : World) : World :=
  mkWorld (copier w) (events w ++ [EvLog LVL_ERROR msg]).

(* ===================================================================== *)
(** ** Proof automation *)
(* ===================================================================== *)

(** Unfolding of the monad and of the atomic operations. *)
Ltac run_m :=
  cbv beta iota zeta delta
    [bind ret when load log emit get observe
     store_readComplete store_errOccurred store_pendingIOs store_fileOffset
     fetch_sub_pendingIOs fetch_add_pendingIOs fetch_add_fileOffset
     fetch_add_bytesReadTotal fetch_add_bytesWrittenTotal
     getDestSectorSize getDestHandle ReadFileEx WriteFileEx CloseHandle
     modify_io modify_copier io] in *;
  cbn [fst snd copier events ioUtilsObj m_pendingIOs m_fileOffset
       m_readComplete m_errOccurred set_ioUtilsObj set_pendingIOs
       set_fileOffset set_readComplete set_errOccurred
       m_hSrc m_hDest m_srcFileSize m_destCapacity m_destSectorSize
       m_numOfThreads m_blockSize m_cntxts m_workerThreads
       m_bytesReadTotal m_bytesWrittenTotal
       set_bytesReadTotal set_bytesWrittenTotal set_workerThreads set_cntxts
       set_hSrc set_hDest set_srcFileSize set_destCapacity set_destSectorSize
       set_numOfThreads set_blockSize] in *.

(** The same, reducing the boolean connectives on the way. *)
Ltac run_b := run_m; cbn [negb orb andb] in *; run_m.

(* ===================================================================== *)
(** ** Machine integers in range *)
(* ===================================================================== *)

Lemma to_DWORD_id (x : Z) : is_DWORD x -> to_DWORD x = x.
Proof.
  unfold is_DWORD, DWORD_MAX, to_DWORD. intros H.
  apply Z.mod_small. lia.
Qed.

Lemma to_int_id (x : Z) : is_int x -> to_int x = x.
Proof.
  unfold is_int, INT_MIN, INT_MAX, to_int. intros H.
  rewrite Z.mod_small by lia. lia.
Qed.

Lemma to_LONGLONG_id (x : Z) : is_LONGLONG x -> to_LONGLONG x = x.
Proof.
  unfold is_LONGLONG, LLONG_MIN, LLONG_MAX, to_LONGLONG. intros H.
  rewrite Z.mod_small by lia. lia.
Qed.

(* ===================================================================== *)
(** ** The offset allocator *)
(* ===================================================================== *)

(** One claim step, while the 64-bit counter is in range, is the contract
    at the offset it finds, advances the counter by the block size and
    touches nothing else than [m_fileOffset] and [m_readComplete]. *)
Lemma claim_block_step (b T : Z) (w : World) :
  0 < b <= DWORD_MAX -> is_LONGLONG T ->
  0 <= m_fileOffset (io w) -> m_fileOffset (io w) + b <= LLONG_MAX ->
  exists w',
    claim_block b T w = (spec_claim b T (m_fileOffset (io w)), w') /\
    m_fileOffset (io w') = m_fileOffset (io w) + b /\
    m_readComplete (io w') =
      (if T <=? m_fileOffset (io w) then true else m_readComplete (io w)) /\
    m_errOccurred (io w') = m_errOccurred (io w) /\
    m_pendingIOs (io w') = m_pendingIOs (io w) /\
    events w' = events w.
Proof.
  intros Hb HT Ho Hmax.
  unfold is_LONGLONG, LLONG_MIN, LLONG_MAX, DWORD_MAX in *.
  unfold claim_block, spec_claim. run_m.
  set (o := m_fileOffset (ioUtilsObj (copier w))) in *.
  assert (Hadd : to_LONGLONG (o + b) = o + b).
  { apply to_LONGLONG_id. unfold is_LONGLONG, LLONG_MIN, LLONG_MAX. lia. }
  rewrite Hadd.
  destruct (Z.geb_spec o T) as [Hge | Hlt].
  - destruct (Z.leb_spec T o); [| lia].
    eexists. split; [reflexivity |]. cbn. repeat split; reflexivity.
  - destruct (Z.leb_spec T o); [lia |].
    destruct (Z.gtb_spec (o + b) T) as [Hshort | Hfull].
    + assert (Hsub : to_DWORD (to_LONGLONG (T - o)) = T - o).
      { rewrite to_LONGLONG_id
          by (unfold is_LONGLONG, LLONG_MIN, LLONG_MAX; lia).
        apply to_DWORD_id. unfold is_DWORD, DWORD_MAX. lia. }
      rewrite Hsub.
      destruct (Z.eqb_spec (T - o) 0); [lia |].
      rewrite Z.min_r by lia.
      eexists. split; [reflexivity |]. cbn. repeat split; reflexivity.
    + destruct (Z.eqb_spec b 0); [lia |].
      rewrite Z.min_l by lia.
      eexists. split; [reflexivity |]. cbn. repeat split; reflexivity.
Qed.

(** The [i]-th claim of a sequence that starts at offset [k * b] is the
    contract at offset [(k + i) * b]. *)
Lemma claim_seq_nth (b T : Z) :
  0 < b <= DWORD_MAX -> is_LONGLONG T ->
  forall w cs, claim_seq b T w cs ->
  forall k, 0 <= k -> m_fileOffset (io w) = k * b ->
  (k + Z.of_nat (length cs)) * b <= LLONG_MAX ->
  forall i c, nth_error cs i = Some c ->
  c = spec_claim b T ((k + Z.of_nat i) * b).
Proof.
  intros Hb HT w cs Hseq.
  induction Hseq as [w | w w1 w2 c cs Hsame Hstep Hseq IH];
    intros k Hk Hoff Hmax i c' Hnth.
  - destruct i; discriminate.
  - cbn [length] in Hmax. rewrite Nat2Z.inj_succ in Hmax.
    destruct (claim_block_step b T w1 Hb HT) as (w' & Heq & Hoff' & _).
    + rewrite Hsame, Hoff. nia.
    + rewrite Hsame, Hoff. nia.
    + rewrite Hstep in Heq. injection Heq as Hc Hw. subst w'.
      destruct i as [| i].
      * cbn in Hnth. injection Hnth as <-.
        rewrite Hc, Hsame, Hoff. f_equal. cbn. lia.
      * cbn [nth_error] in Hnth.
        rewrite (IH (k + 1)) with (i := i) (c := c'); try assumption.
        -- f_equal. rewrite Nat2Z.inj_succ. lia.
        -- lia.
        -- rewrite Hoff', Hsame, Hoff. lia.
        -- lia.
Qed.

(** The low and high words stored in [overlapped] recompose the offset. *)
Lemma offset_words (o : Z) :
  0 <= o <= LLONG_MAX ->
  to_DWORD (Z.land o 0xFFFFFFFF)
  + 2 ^ 32 * to_DWORD (Z.land (Z.shiftr o 32) 0xFFFFFFFF) = o.
Proof.
  unfold LLONG_MAX, to_DWORD. intros Ho.
  change 0xFFFFFFFF with (Z.ones 32).
  rewrite !Z.land_ones by lia.
  rewrite Z.shiftr_div_pow2 by lia.
  rewrite !Z.mod_mod by lia.
  assert (Hhi : 0 <= o / 2 ^ 32 < 2 ^ 32).
  { split.
    - apply Z.div_pos; lia.
    - apply Z.div_lt_upper_bound; lia. }
  rewrite (Z.mod_small (o / 2 ^ 32)) by assumption.
  pose proof (Z.div_mod o (2 ^ 32)). lia.
Qed.

(** [IssueRead] at end of source: no read, [m_readComplete] set. *)
Lemma IssueRead_eof (os : SubmitResult) (h : HANDLE) (cntxt : IOContext)
    (b T : Z) (w : World) :
  0 < b <= DWORD_MAX -> is_LONGLONG T ->
  0 <= m_fileOffset (io w) -> m_fileOffset (io w) + b <= LLONG_MAX ->
  m_readComplete (io w) = false -> m_errOccurred (io w) = false ->
  T <= m_fileOffset (io w) ->
  exists w',
    IssueRead os h cntxt b T w = ((false, cntxt), w') /\
    m_readComplete (io w') = true /\
    m_fileOffset (io w') = m_fileOffset (io w) + b /\
    events w' = events w.
Proof.
  intros Hb HT Ho Hmax Hrc Herr Heof.
  destruct (claim_block_step b T w Hb HT Ho Hmax)
    as (w' & Heq & Hoff & Hrc' & _ & _ & Hev).
  unfold spec_claim in Heq.
  destruct (Z.leb_spec T (m_fileOffset (io w))); [| lia].
  exists w'. unfold IssueRead. run_m.
  rewrite Hrc, Herr. cbn [orb]. rewrite Heq.
  repeat split; assumption.
Qed.

(** [IssueRead] before end of source: [ReadFileEx] is called at the claimed
    offset for [min (b, T - o)] bytes, after [m_pendingIOs] was raised. *)
Lemma IssueRead_submits (os : SubmitResult) (h : HANDLE) (cntxt : IOContext)
    (b T : Z) (w : World) :
  0 < b <= DWORD_MAX -> is_LONGLONG T ->
  0 <= m_fileOffset (io w) -> m_fileOffset (io w) + b <= LLONG_MAX ->
  m_readComplete (io w) = false -> m_errOccurred (io w) = false ->
  m_fileOffset (io w) < T ->
  exists ok c' w' tl,
    IssueRead os h cntxt b T w = ((ok, c'), w') /\
    readOffset c' = m_fileOffset (io w) /\
    Offset (overlapped c') + 2 ^ 32 * OffsetHigh (overlapped c')
      = m_fileOffset (io w) /\
    m_fileOffset (io w') = m_fileOffset (io w) + b /\
    events w' =
      events w ++
      EvReadFileEx h (Offset (overlapped c')) (OffsetHigh (overlapped c'))
        (Z.min b (T - m_fileOffset (io w)))
        (to_int (m_pendingIOs (io w) + 1)) :: tl /\
    (ok = true <-> os = Submitted).
Proof.
  intros Hb HT Ho Hmax Hrc Herr Hlt.
  destruct (claim_block_step b T w Hb HT Ho Hmax)
    as (w' & Heq & Hoff & Hrc' & Herr' & Hp & Hev).
  unfold spec_claim in Heq.
  destruct (Z.leb_spec T (m_fileOffset (io w))); [lia |].
  unfold IssueRead. run_m.
  rewrite Hrc, Herr. cbn [orb]. rewrite Heq.
  assert (Hw : 0 <= m_fileOffset (ioUtilsObj (copier w)) <= LLONG_MAX)
    by (unfold DWORD_MAX in Hb; lia).
  destruct os as [| err].
  - do 3 eexists. exists []. split; [reflexivity |].
    cbn. rewrite Hev, Hp.
    repeat split; auto using offset_words.
  - destruct (negb (err =? ERROR_HANDLE_EOF)).
    + do 4 eexists. split; [reflexivity |].
      cbn. rewrite Hev, Hp, <- app_assoc. cbn.
      repeat split; auto using offset_words; discriminate.
    + do 3 eexists. exists []. split; [reflexivity |].
      cbn. rewrite Hev, Hp.
      repeat split; auto using offset_words; discriminate.
Qed.

(** C1.  Offset allocator contract.  For a block size [b > 0] and a total
    size [T]: the claim step of [IssueRead] is one fetch-and-add of [b] on
    [m_fileOffset], and the claimed offset [o] is the value before it; when
    [o >= T] the call issues no read, returns [false] and sets
    [m_readComplete]; otherwise [ReadFileEx] is called at offset [o] for
    [min (b, T - o)] bytes.  Consequently, in any sequence of claims that
    starts from [m_fileOffset = 0], whatever the other threads do to the
    other atomics in between, the [i]-th claimed offset is [i * b], a
    multiple of [b], and the intervals of two different claims are
    disjoint.  The 64-bit counter is assumed not to overflow. *)
Theorem offset_allocator_contract
    (b T : Z) (w w0 : World) (cs : list Claim)
    (os : SubmitResult) (h : HANDLE) (cntxt : IOContext) :
  0 < b <= DWORD_MAX -> is_LONGLONG T ->
  0 <= m_fileOffset (io w) -> m_fileOffset (io w) + b <= LLONG_MAX ->
  m_readComplete (io w) = false -> m_errOccurred (io w) = false ->
  m_fileOffset (io w0) = 0 -> claim_seq b T w0 cs ->
  Z.of_nat (length cs) * b <= LLONG_MAX ->
  let o := m_fileOffset (io w) in
  (exists w', claim_block b T w = (spec_claim b T o, w') /\
              m_fileOffset (io w') = o + b) /\
  (T <= o ->
   exists w', IssueRead os h cntxt b T w = ((false, cntxt), w') /\
              m_readComplete (io w') = true /\ events w' = events w) /\
  (o < T ->
   exists ok c' w' tl,
     IssueRead os h cntxt b T w = ((ok, c'), w') /\
     Offset (overlapped c') + 2 ^ 32 * OffsetHigh (overlapped c') = o /\
     events w' =
       events w ++
       EvReadFileEx h (Offset (overlapped c')) (OffsetHigh (overlapped c'))
         (Z.min b (T - o)) (to_int (m_pendingIOs (io w) + 1)) :: tl) /\
  (forall i c, nth_error cs i = Some c ->
     claim_offset c = Z.of_nat i * b /\ (b | claim_offset c)) /\
  (forall i j o1 l1 o2 l2, i <> j ->
     nth_error cs i = Some (Claimed o1 l1) ->
     nth_error cs j = Some (Claimed o2 l2) ->
     l1 = Z.min b (T - o1) /\ l2 = Z.min b (T - o2) /\ disjoint o1 l1 o2 l2).
Proof.
  intros Hb HT Ho Hmax Hrc Herr H0 Hseq Hlen o.
  assert (Hnth : forall i c, nth_error cs i = Some c ->
                 c = spec_claim b T (Z.of_nat i * b)).
  { intros i c Hi.
    apply (claim_seq_nth b T Hb HT w0 cs Hseq 0); try assumption; lia. }
  assert (Hclaimed : forall i o1 l1, nth_error cs i = Some (Claimed o1 l1) ->
                     o1 = Z.of_nat i * b /\ l1 = Z.min b (T - o1)).
  { intros i o1 l1 Hi. apply Hnth in Hi. unfold spec_claim in Hi.
    destruct (T <=? Z.of_nat i * b); [discriminate |].
    injection Hi as -> ->. split; reflexivity. }
  split; [| split; [| split; [| split]]].
  - destruct (claim_block_step b T w Hb HT Ho Hmax) as (w' & Heq & Hoff & _).
    exists w'. split; assumption.
  - intros Heof.
    destruct (IssueRead_eof os h cntxt b T w Hb HT Ho Hmax Hrc Herr Heof)
      as (w' & Heq & Hrc' & _ & Hev).
    exists w'. repeat split; assumption.
  - intros Hlt.
    destruct (IssueRead_submits os h cntxt b T w Hb HT Ho Hmax Hrc Herr Hlt)
      as (ok & c' & w' & tl & Heq & _ & Hwords & _ & Hev & _).
    exists ok, c', w', tl. repeat split; assumption.
  - intros i c Hi. apply Hnth in Hi. subst c.
    assert (Hoff : claim_offset (spec_claim b T (Z.of_nat i * b))
                   = Z.of_nat i * b).
    { unfold spec_claim. destruct (T <=? Z.of_nat i * b); reflexivity. }
    rewrite Hoff. split; [reflexivity |].
    exists (Z.of_nat i). reflexivity.
  - intros i j o1 l1 o2 l2 Hij Hi Hj.
    destruct (Hclaimed i o1 l1 Hi) as [Ho1 Hl1].
    destruct (Hclaimed j o2 l2 Hj) as [Ho2 Hl2].
    repeat split; try assumption.
    unfold disjoint. unfold DWORD_MAX in Hb.
    destruct (Nat.lt_total i j) as [Hlt | [Heq | Hgt]]; [| contradiction |].
    + left. nia.
    + right. nia.
Qed.

(** The contract on a source of 10 bytes claimed in blocks of 4. *)
Lemma ex_claim_seq : claim_seq 4 10 World_new ex_claims.
Proof.
  unfold ex_claims.
  eapply claim_seq_cons; [reflexivity | reflexivity |].
  eapply claim_seq_cons; [reflexivity | reflexivity |].
  eapply claim_seq_cons; [reflexivity | reflexivity |].
  eapply claim_seq_cons; [reflexivity | reflexivity |].
  apply claim_seq_nil.
Defined.

Lemma offset_allocator_contract_witness :
  let b := 4 in
  let T := 10 in
  let w := world_with_io (mkIOUtils 0 8 false false) in
  let cntxt := ex_context 4 in
  let o := m_fileOffset (io w) in
  (exists w', claim_block b T w = (spec_claim b T o, w') /\
              m_fileOffset (io w') = o + b) /\
  (T <= o ->
   exists w', IssueRead Submitted 7 cntxt b T w = ((false, cntxt), w') /\
              m_readComplete (io w') = true /\ events w' = events w) /\
  (o < T ->
   exists ok c' w' tl,
     IssueRead Submitted 7 cntxt b T w = ((ok, c'), w') /\
     Offset (overlapped c') + 2 ^ 32 * OffsetHigh (overlapped c') = o /\
     events w' =
       events w ++
       EvReadFileEx 7 (Offset (overlapped c')) (OffsetHigh (overlapped c'))
         (Z.min b (T - o)) (to_int (m_pendingIOs (io w) + 1)) :: tl) /\
  (forall i c, nth_error ex_claims i = Some c ->
     claim_offset c = Z.of_nat i * b /\ (b | claim_offset c)) /\
  (forall i j o1 l1 o2 l2, i <> j ->
     nth_error ex_claims i = Some (Claimed o1 l1) ->
     nth_error ex_claims j = Some (Claimed o2 l2) ->
     l1 = Z.min b (T - o1) /\ l2 = Z.min b (T - o2) /\ disjoint o1 l1 o2 l2).
Proof.
  intros b T w cntxt.
  apply (offset_allocator_contract b T w World_new ex_claims Submitted 7 cntxt).
  - unfold DWORD_MAX. cbn. lia.
  - unfold is_LONGLONG, LLONG_MIN, LLONG_MAX. cbn. lia.
  - cbn. lia.
  - unfold LLONG_MAX. cbn. lia.
  - reflexivity.
  - reflexivity.
  - reflexivity.
  - exact ex_claim_seq.
  - unfold LLONG_MAX. cbn. lia.
Defined.

(* ===================================================================== *)
(** ** The read/write pipeline *)
(* ===================================================================== *)

(** [IssueWrite] in closed form. *)
Lemma IssueWrite_run (os : SubmitResult) (h : HANDLE) (c : IOContext)
    (n : Z) (w : World) :
  IssueWrite os h c n w =
  if m_errOccurred (io w) then ((false, c), w)
  else
    let c1 := set_completed false (set_hEvent 0 c) in
    let p1 := to_int (m_pendingIOs (io w) + 1) in
    let ev :=
      EvWriteFileEx h (Offset (overlapped c)) (OffsetHigh (overlapped c)) n p1 in
    match os with
    | Submitted =>
      ((true, c1),
       mkWorld (set_ioUtilsObj (set_pendingIOs p1 (io w)) (copier w))
         (events w ++ [ev]))
    | Failed _ =>
      ((false, c1),
       mkWorld
         (set_ioUtilsObj
            (set_pendingIOs (to_int (p1 - 1)) (set_errOccurred true (io w)))
            (copier w))
         (events w ++ [ev; EvLog LVL_ERROR MsgWriteFileExFailed]))
    end.
Proof.
  unfold IssueWrite. run_m.
  destruct (m_errOccurred (ioUtilsObj (copier w))); [reflexivity |].
  destruct os; cbn; [reflexivity |].
  rewrite <- app_assoc. reflexivity.
Qed.

(** Rounding [n] up to the sector size [s] the way the handler does stays
    within a buffer whose size is a multiple of [s]. *)
Lemma padding_fits (s n B : Z) :
  0 < s -> 0 < n <= B -> (s | B) -> n mod s <> 0 ->
  n + (s - n mod s) <= B /\ 0 < s - n mod s <= s.
Proof.
  intros Hs Hn [k Hk] Hmod.
  pose proof (Z.mod_pos_bound n s Hs) as Hbound.
  pose proof (Z.div_mod n s ltac:(lia)) as Hdm.
  split; [| lia].
  assert (Hlt : n / s < k).
  { apply Z.div_lt_upper_bound; [lia |].
    assert (n <> s * k) by (intros ->; rewrite Z.mul_comm, Z.mod_mul in Hmod; lia).
    nia. }
  nia.
Qed.

Lemma padded_is_least (s n : Z) :
  0 < s -> 0 < n ->
  least_multiple_ge s n (if n mod s =? 0 then n else n + (s - n mod s)).
Proof.
  intros Hs Hn.
  pose proof (Z.mod_pos_bound n s Hs) as Hbound.
  pose proof (Z.div_mod n s ltac:(lia)) as Hdm.
  destruct (Z.eqb_spec (n mod s) 0) as [H0 | Hne].
  - repeat split.
    + exists (n / s). lia.
    + lia.
    + intros q _ Hq. exact Hq.
  - repeat split.
    + exists (n / s + 1). lia.
    + lia.
    + intros q [k Hk] Hq. subst q.
      assert (n / s < k) by nia. nia.
Qed.

(** A successful read of [n > 0] bytes, up to the call of [IssueWrite]:
    [s] is the sector size the handler pads to. *)
Lemma OnReadCompletion_pads (os : SubmitResult) (n : Z) (c : IOContext)
    (w : World) (s : Z) :
  curInst c = true -> 0 < n <= bufSize c -> is_DWORD (bufSize c) ->
  0 < s -> (s | bufSize c) ->
  s = (if m_destSectorSize (copier w) =? 0 then 4096
       else m_destSectorSize (copier w)) ->
  exists p cp w1,
    least_multiple_ge s n p /\ p <= bufSize c /\
    bytesTransferred cp = p /\ overlapped cp = overlapped c /\
    (forall i, n <= i < p -> buf_data cp i = x00) /\
    (forall i, ~ n <= i < p -> buf_data cp i = buf_data c i) /\
    io w1 = set_pendingIOs (to_int (m_pendingIOs (io w) - 1)) (io w) /\
    events w1 =
      events w ++
      (if m_destSectorSize (copier w) =? 0
       then [EvLog LVL_WARNING MsgSectorSizeZero] else []) /\
    OnReadCompletion os ERROR_SUCCESS n (Some c) w =
      (let '((ok, c2), w2) :=
         IssueWrite os (m_hDest (copier w)) cp p w1 in
       if ok then (Some c2, w2)
       else (Some c2,
             mkWorld (set_ioUtilsObj (set_errOccurred true (io w2)) (copier w2))
               (events w2 ++ [EvLog LVL_ERROR MsgIssueWriteFailed]))).
Proof.
  intros Hcur Hn HB Hs Hdiv Hsec.
  unfold is_DWORD, DWORD_MAX in HB.
  pose proof (padded_is_least s n Hs ltac:(lia)) as Hleast.
  assert (Hsmall : s <= bufSize c).
  { destruct Hdiv as [k Hk]. assert (0 < k) by nia. nia. }
  unfold OnReadCompletion. run_m. rewrite Hcur. cbn [negb].
  change (ERROR_SUCCESS =? ERROR_SUCCESS) with true. cbn [negb].
  destruct (Z.eqb_spec n 0) as [? | _]; [lia |].
  run_m.
  destruct (Z.eqb_spec (m_destSectorSize (copier w)) 0) as [Hz | Hnz];
    run_m; rewrite <- Hsec; clear Hsec;
    destruct (Z.eqb_spec (n mod s) 0) as [H0 | Hne]; cbn [negb andb] in *.
  1, 3:
    match goal with
    | |- context [IssueWrite _ _ _ _ ?wz] =>
      exists n, (set_bytesTransferred n c), wz
    end;
    cbn [bytesTransferred set_bytesTransferred overlapped buf_data]; run_m;
    (split; [exact Hleast |]);
    (split; [lia |]);
    (split; [reflexivity |]);
    (split; [reflexivity |]);
    (split; [intros i Hi; lia |]);
    (split; [reflexivity |]);
    (split; [reflexivity |]);
    (split; [rewrite ?app_nil_r; reflexivity |]);
    destruct (IssueWrite os (m_hDest (copier w)) (set_bytesTransferred n c) n _)
      as [[ok c2] w2];
    destruct ok; reflexivity.
  all:
    destruct (padding_fits s n (bufSize c) Hs Hn Hdiv Hne) as [Hfit Hpad];
    rewrite (to_DWORD_id (s - n mod s)) by (unfold is_DWORD, DWORD_MAX; lia);
    rewrite (to_DWORD_id (n + (s - n mod s)))
      by (unfold is_DWORD, DWORD_MAX; lia);
    (destruct (Z.gtb_spec (n + (s - n mod s)) (bufSize c)) as [? | _]; [lia |]);
    match goal with
    | |- context [IssueWrite _ _ _ _ ?wz] =>
      exists (n + (s - n mod s)),
        (set_bytesTransferred (n + (s - n mod s)) (memset0 n (s - n mod s) c)),
        wz
    end;
    cbn [bytesTransferred set_bytesTransferred overlapped buf_data memset0
         set_buf_data]; run_m;
    (split; [exact Hleast |]);
    (split; [lia |]);
    (split; [reflexivity |]);
    (split; [reflexivity |]);
    (split;
     [intros i Hi;
      destruct (Z.leb_spec n i); [| lia];
      destruct (Z.ltb_spec i (n + (s - n mod s))); [| lia];
      reflexivity |]);
    (split;
     [intros i Hi;
      destruct (Z.leb_spec n i); [| reflexivity];
      destruct (Z.ltb_spec i (n + (s - n mod s))); [lia |];
      reflexivity |]);
    (split; [reflexivity |]);
    (split; [rewrite ?app_nil_r; reflexivity |]);
    destruct (IssueWrite os (m_hDest (copier w))
                (set_bytesTransferred (n + (s - n mod s))
                   (memset0 n (s - n mod s) c))
                (n + (s - n mod s)) _) as [[ok c2] w2];
    destruct ok; reflexivity.
Qed.

(** A successful read of [n > 0] bytes, to the end of the handler. *)
Lemma OnReadCompletion_success (os : SubmitResult) (n : Z) (c : IOContext)
    (w : World) (s : Z) :
  curInst c = true -> 0 < n <= bufSize c -> is_DWORD (bufSize c) ->
  0 < s -> (s | bufSize c) ->
  s = (if m_destSectorSize (copier w) =? 0 then 4096
       else m_destSectorSize (copier w)) ->
  exists p cp c' w',
    least_multiple_ge s n p /\ p <= bufSize c /\
    bytesTransferred cp = p /\ overlapped cp = overlapped c /\
    (forall i, n <= i < p -> buf_data cp i = x00) /\
    (forall i, ~ n <= i < p -> buf_data cp i = buf_data c i) /\
    OnReadCompletion os ERROR_SUCCESS n (Some c) w = (Some c', w') /\
    let warn :=
      if m_destSectorSize (copier w) =? 0
      then [EvLog LVL_WARNING MsgSectorSizeZero] else [] in
    let p0 := to_int (m_pendingIOs (io w) - 1) in
    let wr :=
      EvWriteFileEx (m_hDest (copier w)) (Offset (overlapped c))
        (OffsetHigh (overlapped c)) p (to_int (p0 + 1)) in
    if m_errOccurred (io w) then
      c' = cp /\
      events w' = events w ++ warn ++ [EvLog LVL_ERROR MsgIssueWriteFailed] /\
      io w' = mkIOUtils p0 (m_fileOffset (io w)) (m_readComplete (io w)) true
    else
      c' = set_completed false (set_hEvent 0 cp) /\
      match os with
      | Submitted =>
        events w' = events w ++ warn ++ [wr] /\
        io w' = mkIOUtils (to_int (p0 + 1)) (m_fileOffset (io w))
                  (m_readComplete (io w)) false
      | Failed _ =>
        events w' =
          events w ++ warn ++
          [wr; EvLog LVL_ERROR MsgWriteFileExFailed;
           EvLog LVL_ERROR MsgIssueWriteFailed] /\
        io w' = mkIOUtils (to_int (to_int (p0 + 1) - 1)) (m_fileOffset (io w))
                  (m_readComplete (io w)) true
      end.
Proof.
  intros Hcur Hn HB Hs Hdiv Hsec.
  destruct (OnReadCompletion_pads os n c w s Hcur Hn HB Hs Hdiv Hsec)
    as (p & cp & w1 & Hleast & Hfit & Hbt & Hov & Hzero & Hkeep & Hio & Hev & Heq).
  rewrite IssueWrite_run in Heq.
  assert (Herr1 : m_errOccurred (io w1) = m_errOccurred (io w))
    by (rewrite Hio; reflexivity).
  assert (Hp1 : m_pendingIOs (io w1) = to_int (m_pendingIOs (io w) - 1))
    by (rewrite Hio; reflexivity).
  assert (Hfo1 : m_fileOffset (io w1) = m_fileOffset (io w))
    by (rewrite Hio; reflexivity).
  assert (Hrc1 : m_readComplete (io w1) = m_readComplete (io w))
    by (rewrite Hio; reflexivity).
  rewrite Herr1 in Heq.
  exists p, cp.
  destruct (m_errOccurred (io w)) eqn:Herr.
  - eexists _, _.
    do 6 (split; [assumption |]). split; [exact Heq |].
    cbn zeta. split; [reflexivity |]. split.
    + cbn. rewrite Hev, <- app_assoc. reflexivity.
    + unfold io in *. cbn. rewrite Hio. reflexivity.
  - destruct os as [| e]; cbn zeta in Heq; eexists _, _;
      (do 6 (split; [assumption |])); (split; [exact Heq |]);
      cbn zeta; (split; [reflexivity |]); split.
    + cbn. rewrite Hev, Hov, Hp1, <- app_assoc. reflexivity.
    + unfold io in *. cbn. rewrite Hio.
      unfold set_pendingIOs. cbn. rewrite Herr. reflexivity.
    + cbn. rewrite Hev, Hov, Hp1, <- !app_assoc. reflexivity.
    + unfold io in *. cbn. rewrite Hio. reflexivity.
Qed.

(** C3.  Padding correctness.  In the read-completion handler, for a
    successful read of [n > 0] bytes, a destination sector size [s > 0] and
    a buffer of [B] bytes with [s] dividing [B] and [n <= B]: the padded
    length stored in the context and handed to the write is the least
    multiple of [s] that is at least [n], the buffer bytes [[n, padded)] are
    zero and the bytes read are untouched, and the "buffer too small" error
    branch is not taken: the handler goes on to [IssueWrite], which submits
    the write of [padded] bytes unless [m_errOccurred] is already set. *)
Theorem padding_correct (os : SubmitResult) (n : Z) (c : IOContext) (w : World) :
  curInst c = true -> 0 < n <= bufSize c -> is_DWORD (bufSize c) ->
  0 < m_destSectorSize (copier w) ->
  (m_destSectorSize (copier w) | bufSize c) ->
  exists p c' w' es,
    OnReadCompletion os ERROR_SUCCESS n (Some c) w = (Some c', w') /\
    least_multiple_ge (m_destSectorSize (copier w)) n p /\
    p <= bufSize c /\
    bytesTransferred c' = p /\
    (forall i, n <= i < p -> buf_data c' i = x00) /\
    (forall i, 0 <= i < n -> buf_data c' i = buf_data c i) /\
    events w' = events w ++ es /\
    ~ In (EvLog LVL_ERROR MsgBufferTooSmall) es /\
    (m_errOccurred (io w) = false ->
     In (EvWriteFileEx (m_hDest (copier w)) (Offset (overlapped c))
           (OffsetHigh (overlapped c)) p
           (to_int (to_int (m_pendingIOs (io w) - 1) + 1))) es /\
     (os = Submitted -> m_errOccurred (io w') = false /\ completed c' = false)).
Proof.
  intros Hcur Hn HB Hs Hdiv.
  destruct (OnReadCompletion_success os n c w (m_destSectorSize (copier w))
              Hcur Hn HB Hs Hdiv)
    as (p & cp & c' & w' & Hleast & Hfit & Hbt & Hov & Hzero & Hkeep & Heq & Hres).
  { destruct (Z.eqb_spec (m_destSectorSize (copier w)) 0); [lia | reflexivity]. }
  cbn zeta in Hres.
  destruct (Z.eqb_spec (m_destSectorSize (copier w)) 0) as [? | _]; [lia |].
  cbn [app] in Hres.
  exists p, c', w'.
  destruct (m_errOccurred (io w)) eqn:Herr.
  - destruct Hres as (-> & Hev & Hio).
    eexists. do 6 (split; [first [eassumption | intros; apply Hkeep; lia] |]).
    split; [exact Hev |]. split.
    + intros [H | []]. discriminate.
    + discriminate.
  - destruct Hres as (-> & Hres).
    destruct os as [| e]; destruct Hres as (Hev & Hio); eexists;
      (split; [exact Heq |]); (split; [exact Hleast |]);
      (split; [exact Hfit |]); (split; [exact Hbt |]);
      (split; [exact Hzero |]);
      (split; [intros; apply Hkeep; lia |]);
      (split; [exact Hev |]); split.
    + intros [H | []]. discriminate.
    + intros _. split; [left; reflexivity |].
      intros _. rewrite Hio. split; reflexivity.
    + intros [H | [H | [H | []]]]; discriminate.
    + intros _. split; [left; reflexivity |]. discriminate.
Qed.

(** A one-byte read with 512-byte sectors is padded to 512 bytes. *)
Lemma padding_correct_witness :
  exists p c' w' es,
    OnReadCompletion Submitted ERROR_SUCCESS 1 (Some (ex_context 1024))
      (ex_engine 512) = (Some c', w') /\
    least_multiple_ge 512 1 p /\
    p <= 1024 /\
    bytesTransferred c' = p /\
    (forall i, 1 <= i < p -> buf_data c' i = x00) /\
    (forall i, 0 <= i < 1 -> buf_data c' i = buf_data (ex_context 1024) i) /\
    events w' = [] ++ es /\
    ~ In (EvLog LVL_ERROR MsgBufferTooSmall) es /\
    (false = false ->
     In (EvWriteFileEx 9 0 0 p (to_int (to_int (1 - 1) + 1))) es /\
     (Submitted = Submitted ->
      m_errOccurred (io w') = false /\ completed c' = false)).
Proof.
  apply (padding_correct Submitted 1 (ex_context 1024) (ex_engine 512)).
  - reflexivity.
  - cbn. lia.
  - unfold is_DWORD, DWORD_MAX. cbn. lia.
  - cbn. lia.
  - exists 2. reflexivity.
Defined.

(** C10.  Sector-size fallback in the pipeline.  When the engine's
    destination sector size is 0 at a successful read completion, the
    handler logs a warning and pads to 4096 instead: for a read of [n > 0]
    bytes into a buffer whose size is a multiple of 4096, the write length is
    the least multiple of 4096 that is at least [n], no error branch of the
    handler is taken, and [m_errOccurred] stays clear when the write is
    submitted. *)
Theorem sector_size_zero_fallback (os : SubmitResult) (n : Z) (c : IOContext)
    (w : World) :
  curInst c = true -> 0 < n <= bufSize c -> is_DWORD (bufSize c) ->
  (4096 | bufSize c) ->
  m_destSectorSize (copier w) = 0 ->
  exists p c' w' tl,
    OnReadCompletion os ERROR_SUCCESS n (Some c) w = (Some c', w') /\
    least_multiple_ge 4096 n p /\
    bytesTransferred c' = p /\
    events w' = events w ++ EvLog LVL_WARNING MsgSectorSizeZero :: tl /\
    ~ In (EvLog LVL_ERROR MsgBufferTooSmall) tl /\
    (m_errOccurred (io w) = false ->
     In (EvWriteFileEx (m_hDest (copier w)) (Offset (overlapped c))
           (OffsetHigh (overlapped c)) p
           (to_int (to_int (m_pendingIOs (io w) - 1) + 1))) tl /\
     (os = Submitted -> m_errOccurred (io w') = false)).
Proof.
  intros Hcur Hn HB Hdiv Hzero.
  destruct (OnReadCompletion_success os n c w 4096 Hcur Hn HB ltac:(lia) Hdiv)
    as (p & cp & c' & w' & Hleast & Hfit & Hbt & Hov & _ & _ & Heq & Hres).
  { rewrite Hzero. reflexivity. }
  cbn zeta in Hres. rewrite Hzero in Hres.
  change (0 =? 0) with true in Hres. cbn [app] in Hres.
  exists p, c', w'.
  destruct (m_errOccurred (io w)) eqn:Herr.
  - destruct Hres as (-> & Hev & Hio).
    eexists. split; [exact Heq |]. split; [exact Hleast |].
    split; [exact Hbt |]. split; [exact Hev |]. split.
    + intros [H | []]. discriminate.
    + discriminate.
  - destruct Hres as (-> & Hres).
    destruct os as [| e]; destruct Hres as (Hev & Hio); eexists;
      (split; [exact Heq |]); (split; [exact Hleast |]);
      (split; [exact Hbt |]); (split; [exact Hev |]); split.
    + intros [H | []]. discriminate.
    + intros _. split; [left; reflexivity |].
      intros _. rewrite Hio. reflexivity.
    + intros [H | [H | [H | []]]]; discriminate.
    + intros _. split; [left; reflexivity |]. discriminate.
Qed.

(** A 5000-byte read with sector size 0 is written as 8192 bytes. *)
Lemma sector_size_zero_fallback_witness :
  exists p c' w' tl,
    OnReadCompletion Submitted ERROR_SUCCESS 5000 (Some (ex_context 8192))
      (ex_engine 0) = (Some c', w') /\
    least_multiple_ge 4096 5000 p /\
    bytesTransferred c' = p /\
    events w' = [] ++ EvLog LVL_WARNING MsgSectorSizeZero :: tl /\
    ~ In (EvLog LVL_ERROR MsgBufferTooSmall) tl /\
    (false = false ->
     In (EvWriteFileEx 9 0 0 p (to_int (to_int (1 - 1) + 1))) tl /\
     (Submitted = Submitted -> m_errOccurred (io w') = false)).
Proof.
  apply (sector_size_zero_fallback Submitted 5000 (ex_context 8192) (ex_engine 0)).
  - reflexivity.
  - cbn. lia.
  - unfold is_DWORD, DWORD_MAX. cbn. lia.
  - exists 2. reflexivity.
  - reflexivity.
Defined.

(** C4, as stated, fails.  A completion with code [ERROR_HANDLE_EOF] and 512
    bytes transferred leaves [m_readComplete] clear; a completion with a
    non-EOF error code and 0 bytes sets [m_errOccurred] and leaves
    [m_readComplete] clear. *)
Lemma eof_policy_counterexample :
  (let r := OnReadCompletion Submitted ERROR_HANDLE_EOF 512
              (Some (ex_context 1024)) (ex_engine 512) in
   m_readComplete (io (snd r)) <> true) /\
  (let r := OnReadCompletion Submitted 5 0
              (Some (ex_context 1024)) (ex_engine 512) in
   m_errOccurred (io (snd r)) = true /\ m_readComplete (io (snd r)) <> true).
Proof.
  cbn. repeat split; discriminate.
Qed.

(** C4, amended.  For a completion whose code is [ERROR_HANDLE_EOF], or whose
    code is [ERROR_SUCCESS] with 0 bytes transferred, the handler decrements
    [m_pendingIOs], sets the context's [completed] flag and returns without
    touching [m_errOccurred], without logging an error and without issuing a
    write.  [m_readComplete] is set when 0 bytes were transferred; with the
    EOF code and a non-zero byte count it is left as it was. *)
Theorem eof_policy (os : SubmitResult) (errCode n : Z) (c : IOContext)
    (w : World) :
  curInst c = true ->
  errCode = ERROR_HANDLE_EOF \/ (errCode = ERROR_SUCCESS /\ n = 0) ->
  exists w',
    OnReadCompletion os errCode n (Some c) w = (Some (set_completed true c), w') /\
    completed (set_completed true c) = true /\
    m_errOccurred (io w') = m_errOccurred (io w) /\
    events w' = events w /\
    m_readComplete (io w') = (if n =? 0 then true else m_readComplete (io w)) /\
    m_pendingIOs (io w') = to_int (m_pendingIOs (io w) - 1) /\
    m_fileOffset (io w') = m_fileOffset (io w).
Proof.
  intros Hcur [-> | [-> ->]]; unfold OnReadCompletion; run_m; rewrite Hcur;
    cbn [negb].
  - change (ERROR_HANDLE_EOF =? ERROR_SUCCESS) with false.
    change (ERROR_HANDLE_EOF =? ERROR_HANDLE_EOF) with true.
    cbn [negb]. destruct (n =? 0); run_m; eexists;
      (split; [reflexivity |]); cbn; repeat split; reflexivity.
  - change (ERROR_SUCCESS =? ERROR_SUCCESS) with true.
    cbn [negb]. change (0 =? 0) with true. run_m. eexists.
    split; [reflexivity |]. cbn. repeat split; reflexivity.
Qed.

Lemma eof_policy_witness :
  exists w',
    OnReadCompletion Submitted ERROR_HANDLE_EOF 0 (Some (ex_context 1024))
      (ex_engine 512) = (Some (set_completed true (ex_context 1024)), w') /\
    completed (set_completed true (ex_context 1024)) = true /\
    m_errOccurred (io w') = false /\
    events w' = [] /\
    m_readComplete (io w') = true /\
    m_pendingIOs (io w') = to_int (1 - 1) /\
    m_fileOffset (io w') = 1024.
Proof.
  apply (eof_policy Submitted ERROR_HANDLE_EOF 0 (ex_context 1024)
           (ex_engine 512)).
  - reflexivity.
  - left. reflexivity.
Defined.

(** C8, as stated, fails.  When [WriteFileEx] fails at once, [IssueWrite]
    sets [m_errOccurred] and brings [m_pendingIOs] back, but leaves the
    context's [completed] flag clear, and so does the read-completion
    handler that called it. *)
Lemma issue_write_failure_counterexample :
  (let r := IssueWrite (Failed 5) 9 (set_completed true (ex_context 1024)) 512
              (ex_engine 512) in
   fst (fst r) = false /\ m_errOccurred (io (snd r)) = true /\
   m_pendingIOs (io (snd r)) = 1 /\ completed (snd (fst r)) <> true) /\
  (let r := OnReadCompletion (Failed 5) ERROR_SUCCESS 512
              (Some (ex_context 1024)) (ex_engine 512) in
   m_errOccurred (io (snd r)) = true /\
   option_map completed (fst r) = Some false).
Proof.
  cbn. repeat split; try reflexivity; discriminate.
Qed.

(** C8, amended.  A call to [IssueWrite] that finds [m_errOccurred] set
    returns [false] and changes nothing.  Otherwise [m_pendingIOs] is
    incremented by 1 before the submission ([WriteFileEx] is called with the
    incremented count in place), and on immediate submission failure
    [m_errOccurred] is set and [m_pendingIOs] is decremented by 1; the
    context's [completed] flag is cleared before the submission and is not
    set on failure, neither by [IssueWrite] nor by the read-completion
    handler that called it. *)
Theorem issue_write_failure_handling (os : SubmitResult) (h : HANDLE)
    (c : IOContext) (n : Z) (w : World) :
  is_int (m_pendingIOs (io w)) -> m_pendingIOs (io w) < INT_MAX ->
  let p := m_pendingIOs (io w) in
  (m_errOccurred (io w) = true -> IssueWrite os h c n w = ((false, c), w)) /\
  (m_errOccurred (io w) = false ->
   exists ok c' w' tl,
     IssueWrite os h c n w = ((ok, c'), w') /\
     events w' =
       events w ++
       EvWriteFileEx h (Offset (overlapped c)) (OffsetHigh (overlapped c)) n
         (p + 1) :: tl /\
     completed c' = false /\
     match os with
     | Submitted =>
       ok = true /\ tl = [] /\
       m_pendingIOs (io w') = p + 1 /\ m_errOccurred (io w') = false
     | Failed _ =>
       ok = false /\ tl = [EvLog LVL_ERROR MsgWriteFileExFailed] /\
       m_pendingIOs (io w') = p /\ m_errOccurred (io w') = true
     end) /\
  (forall e rn rc,
     os = Failed e -> m_errOccurred (io w) = false ->
     curInst rc = true -> 0 < rn <= bufSize rc -> is_DWORD (bufSize rc) ->
     0 < m_destSectorSize (copier w) ->
     (m_destSectorSize (copier w) | bufSize rc) ->
     exists c' w',
       OnReadCompletion os ERROR_SUCCESS rn (Some rc) w = (Some c', w') /\
       completed c' = false /\ m_errOccurred (io w') = true).
Proof.
  intros Hp Hmax p. subst p.
  unfold is_int, INT_MIN, INT_MAX in *.
  assert (Hinc : to_int (m_pendingIOs (io w) + 1) = m_pendingIOs (io w) + 1)
    by (apply to_int_id; unfold is_int, INT_MIN, INT_MAX; lia).
  assert (Hdec : to_int (m_pendingIOs (io w) + 1 - 1) = m_pendingIOs (io w)).
  { replace (m_pendingIOs (io w) + 1 - 1) with (m_pendingIOs (io w)) by lia.
    apply to_int_id. unfold is_int, INT_MIN, INT_MAX. lia. }
  split; [| split].
  - intros Herr. rewrite IssueWrite_run, Herr. reflexivity.
  - intros Herr. rewrite IssueWrite_run, Herr. cbn zeta. rewrite Hinc.
    destruct os as [| e].
    + do 3 eexists. exists []. split; [reflexivity |].
      cbn. rewrite Herr. repeat split; reflexivity.
    + do 4 eexists. split; [reflexivity |].
      cbn. rewrite Hdec. repeat split; reflexivity.
  - intros e rn rc -> Herr Hcur Hrn HB Hs Hdiv.
    destruct (OnReadCompletion_success (Failed e) rn rc w
                (m_destSectorSize (copier w)) Hcur Hrn HB Hs Hdiv)
      as (q & cp & c' & w' & _ & _ & _ & _ & _ & _ & Heq & Hres).
    { destruct (Z.eqb_spec (m_destSectorSize (copier w)) 0); [lia | reflexivity]. }
    cbn zeta in Hres. rewrite Herr in Hres.
    destruct Hres as (-> & _ & Hio).
    eexists _, _. split; [exact Heq |]. rewrite Hio.
    split; reflexivity.
Qed.

Lemma issue_write_failure_handling_witness :
  let w := ex_engine 512 in
  let c := ex_context 1024 in
  let os := Failed 5 in
  let p := m_pendingIOs (io w) in
  (m_errOccurred (io w) = true -> IssueWrite os 9 c 512 w = ((false, c), w)) /\
  (m_errOccurred (io w) = false ->
   exists ok c' w' tl,
     IssueWrite os 9 c 512 w = ((ok, c'), w') /\
     events w' =
       events w ++
       EvWriteFileEx 9 (Offset (overlapped c)) (OffsetHigh (overlapped c)) 512
         (p + 1) :: tl /\
     completed c' = false /\
     match os with
     | Submitted =>
       ok = true /\ tl = [] /\
       m_pendingIOs (io w') = p + 1 /\ m_errOccurred (io w') = false
     | Failed _ =>
       ok = false /\ tl = [EvLog LVL_ERROR MsgWriteFileExFailed] /\
       m_pendingIOs (io w') = p /\ m_errOccurred (io w') = true
     end) /\
  (forall e rn rc,
     os = Failed e -> m_errOccurred (io w) = false ->
     curInst rc = true -> 0 < rn <= bufSize rc -> is_DWORD (bufSize rc) ->
     0 < m_destSectorSize (copier w) ->
     (m_destSectorSize (copier w) | bufSize rc) ->
     exists c' w',
       OnReadCompletion os ERROR_SUCCESS rn (Some rc) w = (Some c', w') /\
       completed c' = false /\ m_errOccurred (io w') = true).
Proof.
  intros w c os.
  apply (issue_write_failure_handling os 9 c 512 w).
  - unfold is_int, INT_MIN, INT_MAX. cbn. lia.
  - unfold INT_MAX. cbn. lia.
Defined.

(* ===================================================================== *)
(** ** Initialize *)
(* ===================================================================== *)

Lemma quiet_app (es1 es2 : list Event) :
  quiet es1 -> quiet es2 -> quiet (es1 ++ es2).
Proof.
  unfold quiet. intros H1 H2. rewrite forallb_app, H1, H2. reflexivity.
Qed.

(** The context loop allocates and checks, it starts no work and leaves
    everything but [m_cntxts] alone. *)
Lemma make_contexts_quiet (env : InitEnv) (n : nat) :
  forall (i : nat) (w : World),
  exists ok w' es,
    make_contexts env n i w = (ok, w') /\
    events w' = events w ++ es /\ quiet es /\
    existsb is_capacity_reject es = false /\
    ioUtilsObj (copier w') = ioUtilsObj (copier w) /\
    m_blockSize (copier w') = m_blockSize (copier w).
Proof.
  induction n as [| n IH]; intros i w.
  - exists true, w, []. cbn. rewrite app_nil_r. repeat split; reflexivity.
  - cbn [make_contexts]. run_m. cbn [buf IOContext_new set_curInst].
    destruct (env_VirtualAlloc env i =? 0); run_m.
    + do 3 eexists. split; [reflexivity |]. cbn [events copier].
      rewrite <- app_assoc. repeat split; reflexivity.
    + destruct (negb (env_VirtualAlloc env i mod m_destSectorSize (copier w) =? 0));
        run_m.
      * do 3 eexists. split; [reflexivity |]. cbn [events copier].
        rewrite <- !app_assoc. repeat split; reflexivity.
      * match goal with
        | |- context [make_contexts env n (S i) ?wz] =>
          destruct (IH (S i) wz)
            as (ok & w' & es & Heq & Hev & Hq & Hcap & Hio & Hbs)
        end.
        exists ok, w', es. rewrite Heq. cbn in Hev, Hio, Hbs.
        repeat split; assumption.
Qed.

(** Whatever the environment answers, [Initialize] starts no work, leaves
    the atomics alone, logs the capacity rejection only when the capacity
    is smaller than the source, and can only succeed when every check of
    lines 83-139 passed. *)
Lemma Initialize_quiet (env : InitEnv) (src dst : string) (nT mb : Z)
    (w : World) :
  exists ok w' es,
    Initialize env src dst nT mb w = (ok, w') /\
    events w' = events w ++ es /\ quiet es /\
    ioUtilsObj (copier w') = ioUtilsObj (copier w) /\
    m_blockSize (copier w') = block_bytes mb /\
    (existsb is_capacity_reject es = true ->
     env_destSize env < env_srcSize env) /\
    (ok = true ->
     1 <= nT <= 64 /\ block_bytes mb <> 0 /\
     env_open_src env <> INVALID_HANDLE_VALUE /\
     env_open_dest env <> INVALID_HANDLE_VALUE /\
     env_srcSize env <> 0 /\ env_destSize env <> 0 /\
     env_srcSize env <= env_destSize env).
Proof.
  unfold Initialize. run_b.
  destruct (Z.leb_spec nT 0) as [Hlo | Hlo]; run_b.
  { do 3 eexists. split; [reflexivity |]. cbn.
    repeat split; try reflexivity; discriminate. }
  destruct (Z.gtb_spec nT 64) as [Hhi | Hhi]; run_b.
  { do 3 eexists. split; [reflexivity |]. cbn.
    repeat split; try reflexivity; discriminate. }
  destruct (Z.leb_spec (block_bytes mb) 0) as [Hbs | Hbs]; run_b.
  { do 3 eexists. split; [reflexivity |]. cbn.
    repeat split; try reflexivity; discriminate. }
  destruct (Z.eqb_spec (env_open_src env) INVALID_HANDLE_VALUE) as [Hs | Hs]; run_b.
  { do 3 eexists. split; [reflexivity |]. cbn. rewrite <- !app_assoc.
    repeat split; try reflexivity; discriminate. }
  destruct (Z.eqb_spec (env_open_dest env) INVALID_HANDLE_VALUE) as [Hd | Hd]; run_b.
  { do 3 eexists. split; [reflexivity |]. cbn. rewrite <- !app_assoc.
    repeat split; try reflexivity; discriminate. }
  destruct (Z.eqb_spec (env_srcSize env) 0) as [Hsz | Hsz]; run_b.
  { do 3 eexists. split; [reflexivity |]. cbn. rewrite <- !app_assoc.
    repeat split; try reflexivity; discriminate. }
  destruct (Z.eqb_spec (env_destSize env) 0) as [Hdz | Hdz]; run_b.
  { do 3 eexists. split; [reflexivity |]. cbn. rewrite <- !app_assoc.
    repeat split; try reflexivity; discriminate. }
  destruct (Z.ltb_spec (env_destSize env) (env_srcSize env)) as [Hcap | Hcap]; run_b.
  { do 3 eexists. split; [reflexivity |]. cbn. rewrite <- !app_assoc.
    repeat split; try reflexivity; try discriminate.
    intros _. exact Hcap. }
  assert (Hok : 1 <= nT <= 64 /\ block_bytes mb <> 0 /\
                env_open_src env <> INVALID_HANDLE_VALUE /\
                env_open_dest env <> INVALID_HANDLE_VALUE /\
                env_srcSize env <> 0 /\ env_destSize env <> 0 /\
                env_srcSize env <= env_destSize env)
    by (repeat split; solve [assumption | lia]).
  destruct (env_sectorSize env =? 0); run_b.
  - destruct (env_proceed_choice env =? 0); run_b.
    { do 3 eexists. split; [reflexivity |]. cbn. rewrite <- !app_assoc.
      repeat split; try reflexivity; discriminate. }
    destruct (negb (block_bytes mb mod 4096 =? 0)); run_b.
    { do 3 eexists. split; [reflexivity |]. cbn. rewrite <- !app_assoc.
      repeat split; try reflexivity; discriminate. }
    match goal with
    | |- context [make_contexts env ?n ?i ?wz] =>
      destruct (make_contexts_quiet env n i wz)
        as (ok & w' & es & Heq & Hev & Hq & Hrej & Hio & Hblk)
    end.
    exists ok, w'. rewrite Heq. cbn in Hev, Hio, Hblk.
    eexists. split; [reflexivity |]. rewrite Hev, <- !app_assoc.
    split; [reflexivity |].
    split; [apply (quiet_app [_; _; _]); [reflexivity | exact Hq] |].
    split; [assumption |]. split; [assumption |]. split; [| auto].
    cbn. rewrite Hrej. discriminate.
  - destruct (negb (block_bytes mb mod env_sectorSize env =? 0)); run_b.
    { do 3 eexists. split; [reflexivity |]. cbn. rewrite <- !app_assoc.
      repeat split; try reflexivity; discriminate. }
    match goal with
    | |- context [make_contexts env ?n ?i ?wz] =>
      destruct (make_contexts_quiet env n i wz)
        as (ok & w' & es & Heq & Hev & Hq & Hrej & Hio & Hblk)
    end.
    exists ok, w'. rewrite Heq. cbn in Hev, Hio, Hblk.
    eexists. split; [reflexivity |]. rewrite Hev, <- !app_assoc.
    split; [reflexivity |].
    split; [apply (quiet_app [_; _]); [reflexivity | exact Hq] |].
    split; [assumption |]. split; [assumption |]. split; [| auto].
    cbn. rewrite Hrej. discriminate.
Qed.

(** Once both handles are open, a source size of 0 or a capacity below the
    source size ends [Initialize] with [false], both handles closed and no
    context allocated. *)
Lemma Initialize_closes_both (env : InitEnv) (src dst : string) (nT mb : Z)
    (w : World) :
  1 <= nT <= 64 -> block_bytes mb <> 0 ->
  env_open_src env <> INVALID_HANDLE_VALUE ->
  env_open_dest env <> INVALID_HANDLE_VALUE ->
  env_srcSize env = 0 \/ env_destSize env < env_srcSize env ->
  exists w' logs,
    Initialize env src dst nT mb w = (false, w') /\
    events w' =
      events w ++
      [EvCreateFileW src (env_open_src env);
       EvCreateFileW dst (env_open_dest env)] ++
      logs ++
      [EvCloseHandle (env_open_src env); EvCloseHandle (env_open_dest env)] /\
    Forall (fun e => exists m, e = EvLog LVL_ERROR m) logs /\
    m_cntxts (copier w') = m_cntxts (copier w).
Proof.
  intros HnT Hbs Hs Hd Hsmall.
  assert (Hbs' : 0 <= block_bytes mb).
  { unfold block_bytes, to_DWORD. apply Z.mod_pos_bound. lia. }
  unfold Initialize. run_b.
  destruct (Z.leb_spec nT 0) as [? | _]; [lia |].
  destruct (Z.gtb_spec nT 64) as [? | _]; [lia |]. run_b.
  destruct (Z.leb_spec (block_bytes mb) 0) as [? | _]; [lia |]. run_b.
  destruct (Z.eqb_spec (env_open_src env) INVALID_HANDLE_VALUE) as [? | _];
    [contradiction |]. run_b.
  destruct (Z.eqb_spec (env_open_dest env) INVALID_HANDLE_VALUE) as [? | _];
    [contradiction |]. run_b.
  destruct (Z.eqb_spec (env_srcSize env) 0) as [Hsz | Hsz]; run_b.
  { eexists. exists [EvLog LVL_ERROR MsgSourceSizeFailed].
    split; [reflexivity |]. cbn. rewrite <- !app_assoc.
    repeat split. repeat constructor. eexists. reflexivity. }
  destruct Hsmall as [? | Hsmall]; [contradiction |].
  destruct (Z.eqb_spec (env_destSize env) 0) as [Hdz | Hdz]; run_b.
  { eexists. exists [EvLog LVL_ERROR MsgDestCapacityFailed].
    split; [reflexivity |]. cbn. rewrite <- !app_assoc.
    repeat split. repeat constructor. eexists. reflexivity. }
  destruct (Z.ltb_spec (env_destSize env) (env_srcSize env)) as [_ | ?];
    [| lia]. run_b.
  eexists. exists [EvLog LVL_ERROR MsgDestTooSmall; EvLog LVL_ERROR MsgCopyAborted].
  split; [reflexivity |]. cbn. rewrite <- !app_assoc.
  repeat split. repeat constructor; eexists; reflexivity.
Qed.

(** The context loop when every allocation succeeds and is aligned. *)
Lemma make_contexts_ok (env : InitEnv) (n : nat) :
  forall (i : nat) (w : World),
  (forall k, (i <= k < i + n)%nat ->
     env_VirtualAlloc env k <> 0 /\
     env_VirtualAlloc env k mod m_destSectorSize (copier w) = 0) ->
  exists w' cs,
    make_contexts env n i w = (true, w') /\
    events w' = events w /\
    length cs = n /\
    copier w' = set_cntxts (m_cntxts (copier w) ++ cs) (copier w) /\
    Forall (fun c => bufSize c = m_blockSize (copier w) /\ curInst c = true) cs.
Proof.
  induction n as [| n IH]; intros i w Hall.
  - exists w, []. cbn. rewrite app_nil_r.
    destruct w as [[] ev]. repeat split; constructor.
  - destruct (Hall i ltac:(lia)) as [Hnz Hal].
    cbn [make_contexts]. run_b. cbn [buf IOContext_new set_curInst].
    destruct (Z.eqb_spec (env_VirtualAlloc env i) 0) as [? | _];
      [contradiction |]. run_b.
    rewrite Hal. change (0 =? 0) with true. run_b.
    match goal with
    | |- context [make_contexts env n (S i) ?wz] =>
      destruct (IH (S i) wz) as (w' & cs & Heq & Hev & Hlen & Hcop & Hcs)
    end.
    { intros k Hk. cbn. apply Hall. lia. }
    cbn in Hev, Hcop, Hcs.
    eexists w', (_ :: cs). rewrite Heq.
    split; [reflexivity |]. split; [exact Hev |].
    split; [cbn; rewrite Hlen; reflexivity |].
    split.
    + rewrite Hcop, <- app_assoc. reflexivity.
    + constructor; [split; reflexivity | exact Hcs].
Qed.

(** When every check passes, [Initialize] returns [true] with one context
    per thread. *)
Lemma Initialize_accepts (env : InitEnv) (src dst : string) (nT mb : Z)
    (w : World) :
  other_checks_pass env nT mb -> env_srcSize env <= env_destSize env ->
  exists w',
    Initialize env src dst nT mb w = (true, w') /\
    length (m_cntxts (copier w')) = Z.to_nat nT /\
    m_blockSize (copier w') = block_bytes mb /\
    m_destSectorSize (copier w') = settled_sector env /\
    m_numOfThreads (copier w') = nT /\
    m_hSrc (copier w') = env_open_src env /\
    m_hDest (copier w') = env_open_dest env /\
    m_srcFileSize (copier w') = env_srcSize env /\
    ioUtilsObj (copier w') = ioUtilsObj (copier w).
Proof.
  intros (HnT & Hbs & Hs & Hd & Hsz & Hdz & Hpro & Hmod & Halloc) Hcap.
  assert (Hbs' : 0 <= block_bytes mb).
  { unfold block_bytes, to_DWORD. apply Z.mod_pos_bound. lia. }
  unfold settled_sector in *.
  unfold Initialize. run_b.
  destruct (Z.leb_spec nT 0) as [? | _]; [lia |].
  destruct (Z.gtb_spec nT 64) as [? | _]; [lia |]. run_b.
  destruct (Z.leb_spec (block_bytes mb) 0) as [? | _]; [lia |]. run_b.
  destruct (Z.eqb_spec (env_open_src env) INVALID_HANDLE_VALUE) as [? | _];
    [contradiction |]. run_b.
  destruct (Z.eqb_spec (env_open_dest env) INVALID_HANDLE_VALUE) as [? | _];
    [contradiction |]. run_b.
  destruct (Z.eqb_spec (env_srcSize env) 0) as [? | _]; [contradiction |]. run_b.
  destruct (Z.eqb_spec (env_destSize env) 0) as [? | _]; [contradiction |]. run_b.
  destruct (Z.ltb_spec (env_destSize env) (env_srcSize env)) as [? | _];
    [lia |]. run_b.
  destruct (Z.eqb_spec (env_sectorSize env) 0) as [Hz | Hnz]; run_b.
  - destruct (Z.eqb_spec (env_proceed_choice env) 0) as [? | _];
      [apply Hpro in Hz; contradiction |]. run_b.
    rewrite Hmod. change (0 =? 0) with true. run_b.
    match goal with
    | |- context [make_contexts env ?n ?i ?wz] =>
      destruct (make_contexts_ok env n i wz) as (w' & cs & Heq & _ & Hlen & Hcop & _)
    end.
    { intros k Hk. cbn. apply Halloc. lia. }
    exists w'. rewrite Heq, Hcop. cbn. rewrite Hlen.
    repeat split; reflexivity.
  - rewrite Hmod. change (0 =? 0) with true. run_b.
    match goal with
    | |- context [make_contexts env ?n ?i ?wz] =>
      destruct (make_contexts_ok env n i wz) as (w' & cs & Heq & _ & Hlen & Hcop & _)
    end.
    { intros k Hk. cbn. apply Halloc. lia. }
    exists w'. rewrite Heq, Hcop. cbn. rewrite Hlen.
    repeat split; reflexivity.
Qed.

(** C7.  Capacity check at initialization.  When the destination capacity
    is strictly smaller than the source size, [Initialize] returns [false]
    and starts no thread and no I/O; when both handles had been opened, it
    closes both, after logging errors only, and allocates no context.  When
    the capacity is exactly the source size, the capacity rejection is not
    logged, and [Initialize] returns [true] as soon as the other checks
    pass. *)
Theorem capacity_check (env : InitEnv) (src dst : string) (nT mb : Z)
    (w : World) :
  env_destSize env <= env_srcSize env ->
  (env_destSize env < env_srcSize env ->
   exists w' es,
     Initialize env src dst nT mb w = (false, w') /\
     events w' = events w ++ es /\ quiet es /\
     (1 <= nT <= 64 -> block_bytes mb <> 0 ->
      env_open_src env <> INVALID_HANDLE_VALUE ->
      env_open_dest env <> INVALID_HANDLE_VALUE ->
      exists logs,
        es = [EvCreateFileW src (env_open_src env);
              EvCreateFileW dst (env_open_dest env)] ++
             logs ++
             [EvCloseHandle (env_open_src env);
              EvCloseHandle (env_open_dest env)] /\
        Forall (fun e => exists m, e = EvLog LVL_ERROR m) logs /\
        m_cntxts (copier w') = m_cntxts (copier w))) /\
  (env_destSize env = env_srcSize env ->
   (exists ok w' es,
      Initialize env src dst nT mb w = (ok, w') /\
      events w' = events w ++ es /\
      existsb is_capacity_reject es = false) /\
   (other_checks_pass env nT mb ->
    exists w', Initialize env src dst nT mb w = (true, w'))).
Proof.
  intros Hle.
  destruct (Initialize_quiet env src dst nT mb w)
    as (ok & w' & es & Heq & Hev & Hq & _ & _ & Hrej & Htrue).
  split.
  - intros Hlt.
    destruct ok; [specialize (Htrue eq_refl); lia |].
    exists w', es. do 3 (split; [assumption |]).
    intros HnT Hbs Hs Hd.
    destruct (Initialize_closes_both env src dst nT mb w HnT Hbs Hs Hd)
      as (w2 & logs & Heq2 & Hev2 & Hlogs & Hcn); [right; exact Hlt |].
    rewrite Heq in Heq2. injection Heq2 as <-.
    exists logs. rewrite Hev in Hev2. apply app_inv_head in Hev2.
    repeat split; assumption.
  - intros Heqsz. split.
    + exists ok, w', es. do 2 (split; [assumption |]).
      destruct (existsb is_capacity_reject es); [| reflexivity].
      specialize (Hrej eq_refl). lia.
    + intros Hother.
      destruct (Initialize_accepts env src dst nT mb w Hother ltac:(lia))
        as (w2 & Heq2 & _).
      exists w2. exact Heq2.
Qed.

(** A destination one byte smaller than a 1 MiB source is rejected. *)
Lemma capacity_check_witness :
  let env := ex_init_env 1048576 1048575 in
  (env_destSize env < env_srcSize env ->
   exists w' es,
     Initialize env "src" "dst" 4 1 World_new = (false, w') /\
     events w' = events World_new ++ es /\ quiet es /\
     (1 <= 4 <= 64 -> block_bytes 1 <> 0 ->
      env_open_src env <> INVALID_HANDLE_VALUE ->
      env_open_dest env <> INVALID_HANDLE_VALUE ->
      exists logs,
        es = [EvCreateFileW "src" (env_open_src env);
              EvCreateFileW "dst" (env_open_dest env)] ++
             logs ++
             [EvCloseHandle (env_open_src env);
              EvCloseHandle (env_open_dest env)] /\
        Forall (fun e => exists m, e = EvLog LVL_ERROR m) logs /\
        m_cntxts (copier w') = m_cntxts (copier World_new))) /\
  (env_destSize env = env_srcSize env ->
   (exists ok w' es,
      Initialize env "src" "dst" 4 1 World_new = (ok, w') /\
      events w' = events World_new ++ es /\
      existsb is_capacity_reject es = false) /\
   (other_checks_pass env 4 1 ->
    exists w', Initialize env "src" "dst" 4 1 World_new = (true, w'))).
Proof.
  intros env.
  apply (capacity_check env "src" "dst" 4 1 World_new).
  cbn. lia.
Defined.

(** A destination exactly as large as the source is accepted. *)
Example capacity_equal_accepted :
  fst (Initialize (ex_init_env 1048576 1048576) "src" "dst" 4 1 World_new)
  = true.
Proof. vm_compute. reflexivity. Qed.

(* ----- the block size ----- *)

Lemma block_bytes_mod (mb : Z) : block_bytes mb = (mb * 2 ^ 20) mod 2 ^ 32.
Proof.
  unfold block_bytes, to_DWORD.
  rewrite Z.mul_mod_idemp_l by lia.
  rewrite <- Z.mul_assoc.
  rewrite Z.mul_mod_idemp_l by lia.
  reflexivity.
Qed.

Lemma block_bytes_exact (mb : Z) :
  0 <= mb <= 4095 -> block_bytes mb = mb * 2 ^ 20.
Proof.
  intros H. rewrite block_bytes_mod. apply Z.mod_small. lia.
Qed.

(** Every block size the conversion yields is a multiple of 2^20, hence of
    4096. *)
Lemma block_bytes_multiple_of_4096 (mb : Z) : (4096 | block_bytes mb).
Proof.
  rewrite block_bytes_mod.
  change (2 ^ 32) with (2 ^ 12 * 2 ^ 20).
  rewrite Z.mul_mod_distr_r by lia.
  exists (mb mod 2 ^ 12 * 2 ^ 8). lia.
Qed.

(** C9.  The block-size conversion at [blockSizeMB = 4097]: the product
    4097 * 2^20 does not fit a [DWORD], the code keeps 2^20, the validity
    check lets it pass, and [Initialize] succeeds with a block size of
    1 MiB instead of 4097 MiB. *)
Theorem block_size_wraps_at_4097 :
  let r := Initialize (ex_init_env 1048576 1048576) "src" "dst" 4 4097
             World_new in
  fst r = true /\
  m_blockSize (copier (snd r)) = 1048576 /\
  m_blockSize (copier (snd r)) <> 4097 * 2 ^ 20.
Proof.
  vm_compute. repeat split; discriminate.
Qed.

(* ===================================================================== *)
(** ** The empty source *)
(* ===================================================================== *)

(** C6, as stated, fails.  With a source of 0 bytes the run ends with exit
    code 1, not with success. *)
Lemma empty_source_counterexample :
  let r := wmain (ex_init_env 0 1048576) (ex_copy_env 1 ex_drained true)
             "src" "dst" 4 1 World_new in
  fst r = Some 1 /\ fst r <> Some 0.
Proof. vm_compute. split; [reflexivity | discriminate]. Qed.

(** C6, amended.  For a source whose size is reported as 0 bytes,
    [Initialize] fails, closing both handles when both were opened; the run
    starts no worker and no I/O, leaves [m_fileOffset] and the other atomics
    untouched (no claim is performed), and reports failure: exit code 1. *)
Theorem empty_source_rejected (ienv : InitEnv) (cenv : CopyEnv)
    (src dst : string) (nT mb : Z) (w : World) :
  env_srcSize ienv = 0 ->
  exists w' es,
    wmain ienv cenv src dst nT mb w = (Some 1, w') /\
    events w' = events w ++ es /\ quiet es /\
    ioUtilsObj (copier w') = ioUtilsObj (copier w) /\
    (1 <= nT <= 64 -> block_bytes mb <> 0 ->
     env_open_src ienv <> INVALID_HANDLE_VALUE ->
     env_open_dest ienv <> INVALID_HANDLE_VALUE ->
     es = [EvCreateFileW src (env_open_src ienv);
           EvCreateFileW dst (env_open_dest ienv);
           EvLog LVL_ERROR MsgSourceSizeFailed;
           EvCloseHandle (env_open_src ienv);
           EvCloseHandle (env_open_dest ienv);
           EvLog LVL_ERROR MsgInitializeFailed]).
Proof.
  intros Hzero.
  destruct (Initialize_quiet ienv src dst nT mb w)
    as (ok & w1 & es & Heq & Hev & Hq & Hio & _ & _ & Htrue).
  destruct ok; [specialize (Htrue eq_refl); tauto |].
  unfold wmain. run_m. rewrite Heq. run_b.
  eexists _, (es ++ [EvLog LVL_ERROR MsgInitializeFailed]).
  split; [reflexivity |]. cbn [events copier].
  split; [rewrite Hev, app_assoc; reflexivity |].
  split; [apply quiet_app; [exact Hq | reflexivity] |].
  split; [exact Hio |].
  intros HnT Hbs Hs Hd.
  assert (Hbs' : 0 <= block_bytes mb).
  { unfold block_bytes, to_DWORD. apply Z.mod_pos_bound. lia. }
  revert Heq. unfold Initialize. run_b.
  destruct (Z.leb_spec nT 0) as [? | _]; [lia |].
  destruct (Z.gtb_spec nT 64) as [? | _]; [lia |]. run_b.
  destruct (Z.leb_spec (block_bytes mb) 0) as [? | _]; [lia |]. run_b.
  destruct (Z.eqb_spec (env_open_src ienv) INVALID_HANDLE_VALUE) as [? | _];
    [contradiction |]. run_b.
  destruct (Z.eqb_spec (env_open_dest ienv) INVALID_HANDLE_VALUE) as [? | _];
    [contradiction |]. run_b.
  rewrite Hzero. change (0 =? 0) with true. run_b.
  intros Heq. injection Heq as <-. cbn in Hev.
  rewrite <- !app_assoc in Hev. apply app_inv_head in Hev. subst es.
  reflexivity.
Qed.

Lemma empty_source_rejected_witness :
  exists w' es,
    wmain (ex_init_env 0 1048576) (ex_copy_env 1 ex_drained true)
      "src" "dst" 4 1 World_new = (Some 1, w') /\
    events w' = events World_new ++ es /\ quiet es /\
    ioUtilsObj (copier w') = ioUtilsObj (copier World_new) /\
    (1 <= 4 <= 64 -> block_bytes 1 <> 0 ->
     env_open_src (ex_init_env 0 1048576) <> INVALID_HANDLE_VALUE ->
     env_open_dest (ex_init_env 0 1048576) <> INVALID_HANDLE_VALUE ->
     es = [EvCreateFileW "src" (env_open_src (ex_init_env 0 1048576));
           EvCreateFileW "dst" (env_open_dest (ex_init_env 0 1048576));
           EvLog LVL_ERROR MsgSourceSizeFailed;
           EvCloseHandle (env_open_src (ex_init_env 0 1048576));
           EvCloseHandle (env_open_dest (ex_init_env 0 1048576));
           EvLog LVL_ERROR MsgInitializeFailed]).
Proof.
  apply (empty_source_rejected (ex_init_env 0 1048576)
           (ex_copy_env 1 ex_drained true) "src" "dst" 4 1 World_new).
  reflexivity.
Defined.

(* ===================================================================== *)
(** ** StartCopy *)
(* ===================================================================== *)

Lemma World_eta (w : World) : mkWorld (copier w) (events w) = w.
Proof. destruct w. reflexivity. Qed.

Lemma set_ioUtilsObj_eta (b : BlockCopier) :
  set_ioUtilsObj (ioUtilsObj b) b = b.
Proof. destruct b. reflexivity. Qed.

Lemma set_workerThreads_eta (b : BlockCopier) :
  set_workerThreads (m_workerThreads b) b = b.
Proof. destruct b. reflexivity. Qed.

(** The launch loop appends one joinable worker and one start event per
    index. *)
Lemma launch_workers_run (env : CopyEnv) (n : nat) :
  forall (i : nat) (w : World),
  launch_workers env n i w =
  (tt, mkWorld
         (set_workerThreads (m_workerThreads (copier w) ++ launched env i n)
            (copier w))
         (events w ++ map EvThreadStart (seq i n))).
Proof.
  unfold launched.
  induction n as [| n IH]; intros i w.
  - cbn. rewrite !app_nil_r, set_workerThreads_eta, World_eta. reflexivity.
  - cbn [launch_workers]. run_m. rewrite IH. cbn.
    rewrite <- !app_assoc. reflexivity.
Qed.

(** The monitoring loop only refreshes the atomics. *)
Lemma monitor_run (polls : list IOUtils) :
  forall w : World,
  monitor polls w =
  (monitor_exits polls,
   mkWorld (set_ioUtilsObj (monitor_view polls (io w)) (copier w)) (events w)).
Proof.
  unfold monitor_exits.
  induction polls as [| s rest IH]; intros w.
  - cbn. unfold io. rewrite set_ioUtilsObj_eta, World_eta. reflexivity.
  - cbn [monitor existsb monitor_view]. run_m.
    unfold keeps_monitoring.
    destruct (((m_pendingIOs s >? 0) || negb (m_readComplete s))
              && negb (m_errOccurred s)); cbn [negb orb].
    + rewrite IH. cbn. reflexivity.
    + reflexivity.
Qed.

(** The wake-up loop on freshly launched workers: one [QueueUserAPC] per
    worker with a valid handle, in index order, and nothing but error log
    lines besides. *)
Lemma wake_workers_run (env : CopyEnv) (n : nat) :
  forall (i : nat) (w : World),
  exists es,
    wake_workers env (launched env i n) i w
    = (tt, mkWorld (copier w) (events w ++ es)) /\
    filter is_apc_event es =
      map EvQueueUserAPC
        (filter (fun k => negb (env_thread_handle env k =? INVALID_HANDLE_VALUE))
           (seq i n)) /\
    existsb is_join_event es = false /\
    existsb starts_work es = false.
Proof.
  unfold launched.
  induction n as [| n IH]; intros i w.
  - exists []. cbn. rewrite app_nil_r, World_eta. repeat split; reflexivity.
  - cbn [seq map wake_workers joinable native_handle filter]. run_b.
    destruct (negb (env_thread_handle env i =? INVALID_HANDLE_VALUE)); run_b.
    + destruct (env_QueueUserAPC env i) as [| e]; run_b.
      * match goal with
        | |- context [wake_workers env _ (S i) ?wz] =>
          destruct (IH (S i) wz) as (es & Heq & Hf & Hj & Hs)
        end.
        exists (EvQueueUserAPC i :: es). rewrite Heq. cbn.
        rewrite <- app_assoc, Hf, Hj, Hs. repeat split; reflexivity.
      * destruct (negb (e =? ERROR_GEN_FAILURE)); run_b;
          match goal with
          | |- context [wake_workers env _ (S i) ?wz] =>
            destruct (IH (S i) wz) as (es & Heq & Hf & Hj & Hs)
          end.
        -- exists (EvQueueUserAPC i :: EvLog LVL_ERROR MsgQueueApcFailed :: es).
           rewrite Heq. cbn.
           rewrite <- !app_assoc, Hf, Hj, Hs. repeat split; reflexivity.
        -- exists (EvQueueUserAPC i :: es). rewrite Heq. cbn.
           rewrite <- app_assoc, Hf, Hj, Hs. repeat split; reflexivity.
    + destruct (IH (S i) w) as (es & Heq & Hf & Hj & Hs).
      exists es. rewrite Heq. repeat split; assumption.
Qed.

(** The join loop on freshly launched workers: joins in index order, up to
    the first worker that never returns. *)
Lemma join_workers_run (env : CopyEnv) (n : nat) :
  forall (i : nat) (w : World),
  exists ts' k,
    join_workers env (launched env i n) i w
    = ((forallb (env_worker_returns env) (seq i n), ts'),
       mkWorld (copier w) (events w ++ map EvJoin (seq i k))) /\
    (k <= n)%nat /\
    (forallb (env_worker_returns env) (seq i n) = true -> k = n).
Proof.
  unfold launched.
  induction n as [| n IH]; intros i w.
  - exists [], O. cbn. rewrite app_nil_r, World_eta. repeat split; lia.
  - cbn [seq map join_workers joinable native_handle forallb]. run_b.
    destruct (env_worker_returns env i); run_b.
    + match goal with
      | |- context [join_workers env _ (S i) ?wz] =>
        destruct (IH (S i) wz) as (ts' & k & Heq & Hk & Hall)
      end.
      rewrite Heq. cbn. eexists _, (S k). split.
      * rewrite <- app_assoc. reflexivity.
      * split; [lia |]. intros H. rewrite (Hall H). reflexivity.
    + eexists _, 1%nat. split; [reflexivity |].
      split; [lia | discriminate].
Qed.

(** [StartCopy] on an initialised copier whose monitoring loop is left. *)
Lemma StartCopy_run (env : CopyEnv) (w : World) :
  initialized (copier w) -> monitor_exits (env_polls env) = true ->
  let N := Z.to_nat (m_numOfThreads (copier w)) in
  exists r w' wake k tail,
    StartCopy env w = (r, w') /\
    events w' =
      events w ++ map EvThreadStart (seq 0 N) ++ wake ++
      map EvJoin (seq 0 k) ++ tail /\
    (if m_errOccurred (env_at_wakeup env) then wake = []
     else
       filter is_apc_event wake = map EvQueueUserAPC (wakeable env N) /\
       existsb is_join_event wake = false /\
       existsb starts_work wake = false) /\
    (k <= N)%nat /\
    (if workers_return env N then
       let err :=
         m_errOccurred (env_at_joined env) || negb (env_FlushFileBuffers env) in
       k = N /\ r = Some (negb err) /\
       m_errOccurred (io w') = err /\
       tail =
         EvFlushFileBuffers (m_hDest (copier w)) ::
         (if env_FlushFileBuffers env then []
          else [EvLog LVL_ERROR MsgFlushFailed]) ++
         (if err then [EvLog LVL_ERROR MsgCompletedWithErrors] else [])
     else r = None /\ tail = []).
Proof.
  intros (Hsrc & Hdst & Hctx) Hexit N.
  unfold StartCopy. run_b.
  destruct (Z.eqb_spec (m_hSrc (copier w)) INVALID_HANDLE_VALUE) as [? | _];
    [contradiction |].
  destruct (Z.eqb_spec (m_hDest (copier w)) INVALID_HANDLE_VALUE) as [? | _];
    [contradiction |].
  destruct (m_cntxts (copier w)) as [| c0 cs] eqn:Hcs; [contradiction |].
  cbn [is_empty]. run_b.
  rewrite launch_workers_run. cbn [app]. run_b.
  rewrite monitor_run, Hexit. run_b.
  cbn [app]. fold N.
  assert (Hwake :
    forall wz : World,
    exists es,
      (if negb (m_errOccurred (env_at_wakeup env))
       then wake_workers env (launched env 0 N) 0
       else fun w0 : World => (tt, w0)) wz
      = (tt, mkWorld (copier wz) (events wz ++ es)) /\
      (if m_errOccurred (env_at_wakeup env) then es = []
       else
         filter is_apc_event es = map EvQueueUserAPC (wakeable env N) /\
         existsb is_join_event es = false /\
         existsb starts_work es = false)).
  { intros wz. destruct (m_errOccurred (env_at_wakeup env)); cbn [negb].
    - exists []. rewrite app_nil_r, World_eta. split; reflexivity.
    - destruct (wake_workers_run env N 0 wz) as (es & Heq & Hrest).
      exists es. split; assumption. }
  match goal with
  | |- context [(if negb (m_errOccurred (env_at_wakeup env)) then _ else _) ?wz] =>
    destruct (Hwake wz) as (wake & Heqw & Hw)
  end.
  rewrite Heqw. run_b.
  match goal with
  | |- context [join_workers env _ 0%nat ?wz] =>
    destruct (join_workers_run env N 0 wz) as (ts' & k & Heqj & Hk & Hall)
  end.
  rewrite Heqj. run_b.
  unfold workers_return.
  destruct (forallb (env_worker_returns env) (seq 0 N)); run_b.
  - specialize (Hall eq_refl). subst k.
    destruct (env_FlushFileBuffers env); run_b.
    + destruct (m_errOccurred (env_at_joined env)) eqn:Herr; run_b.
      * eexists _, _, wake, N, _. split; [reflexivity |]. cbn.
        rewrite <- !app_assoc. cbn. rewrite Herr.
        repeat split; try reflexivity; assumption.
      * eexists _, _, wake, N, _. split; [reflexivity |]. cbn.
        rewrite <- !app_assoc. cbn. rewrite Herr.
        repeat split; try reflexivity; assumption.
    + eexists _, _, wake, N, _. split; [reflexivity |]. cbn.
      rewrite <- !app_assoc. cbn. rewrite orb_true_r.
      repeat split; try reflexivity; assumption.
  - eexists _, _, wake, k, []. split; [reflexivity |]. cbn.
    rewrite <- !app_assoc, app_nil_r.
    repeat split; try reflexivity; assumption.
Qed.

Lemma joins_only (l : list nat) :
  filter is_join_event (map EvJoin l) = map EvJoin l /\
  existsb is_apc_event (map EvJoin l) = false.
Proof.
  induction l as [| a l [IH1 IH2]]; [split; reflexivity |].
  cbn. rewrite IH1, IH2. split; reflexivity.
Qed.

(** Without a successful [Initialize], [StartCopy] returns [false] at once
    and starts nothing. *)
Lemma StartCopy_not_initialized (env : CopyEnv) (w : World) :
  m_cntxts (copier w) = [] ->
  StartCopy env w =
  (Some false,
   mkWorld (copier w) (events w ++ [EvLog LVL_ERROR MsgNotInitialized])).
Proof.
  intros Hctx. unfold StartCopy. run_b. rewrite Hctx. cbn [is_empty].
  rewrite !orb_true_r. reflexivity.
Qed.

(** C2.  On an initialised copier whose monitoring loop is left and whose
    workers all return, [StartCopy] returns, and it returns [true] exactly
    when [m_errOccurred] is false after the drain and the flush of the
    destination.  That flag is the one the workers left, or true when
    [FlushFileBuffers] failed: a failed flush makes [StartCopy] return
    [false] even when no read and no write had failed. *)
Theorem StartCopy_result (env : CopyEnv) (w : World) :
  initialized (copier w) ->
  monitor_exits (env_polls env) = true ->
  workers_return env (Z.to_nat (m_numOfThreads (copier w))) = true ->
  exists b w',
    StartCopy env w = (Some b, w') /\
    (b = true <-> m_errOccurred (io w') = false) /\
    m_errOccurred (io w') =
      m_errOccurred (env_at_joined env) || negb (env_FlushFileBuffers env) /\
    In (EvFlushFileBuffers (m_hDest (copier w))) (events w') /\
    (env_FlushFileBuffers env = false ->
     b = false /\ m_errOccurred (io w') = true /\
     In (EvLog LVL_ERROR MsgFlushFailed) (events w')).
Proof.
  intros Hinit Hexit Hret.
  destruct (StartCopy_run env w Hinit Hexit)
    as (r & w' & wake & k & tail & Heq & Hev & _ & _ & Hfin).
  rewrite Hret in Hfin. cbn zeta in Hfin.
  destruct Hfin as (_ & -> & Herr & ->).
  eexists _, w'. split; [exact Heq |].
  split; [rewrite Herr; apply negb_true_iff |].
  split; [exact Herr |].
  split.
  - rewrite Hev. do 4 (apply in_or_app; right). left. reflexivity.
  - intros Hflush. rewrite Herr, Hflush, orb_true_r.
    repeat split; try reflexivity.
    rewrite Hev, Hflush. do 4 (apply in_or_app; right).
    right. left. reflexivity.
Qed.

Lemma ex_ready_initialized : initialized (copier ex_ready).
Proof.
  unfold initialized. vm_compute. repeat split; discriminate.
Defined.

(** A drained copy without error whose final flush fails. *)
Lemma StartCopy_result_witness :
  exists b w',
    StartCopy (ex_copy_env 1 ex_drained false) ex_ready = (Some b, w') /\
    (b = true <-> m_errOccurred (io w') = false) /\
    m_errOccurred (io w') = m_errOccurred ex_drained || negb false /\
    In (EvFlushFileBuffers (m_hDest (copier ex_ready))) (events w') /\
    (false = false ->
     b = false /\ m_errOccurred (io w') = true /\
     In (EvLog LVL_ERROR MsgFlushFailed) (events w')).
Proof.
  apply (StartCopy_result (ex_copy_env 1 ex_drained false) ex_ready).
  - exact ex_ready_initialized.
  - reflexivity.
  - vm_compute. reflexivity.
Defined.

(** When the monitoring loop is left because [m_errOccurred] is set, the
    controller queues no wake-up APC although both workers are joinable
    with valid handles; it joins them directly. *)
Lemma wakeup_on_error_counterexample :
  let env := ex_copy_env 1 ex_failed true in
  let r := StartCopy env ex_ready in
  fst r = Some false /\
  wakeable env 2 = [0%nat; 1%nat] /\
  filter is_apc_event (events (snd r)) = [] /\
  filter is_join_event (events (snd r)) = [EvJoin 0; EvJoin 1].
Proof.
  vm_compute. repeat split; reflexivity.
Qed.

(** The wake-up block of [StartCopy] as the code has it (lines 260-283).
    When the monitoring loop is left and [m_errOccurred] is
    false at the wake-up guard, the controller queues the no-op APC to every
    worker thread whose handle is valid, in index order, before the first
    [join()]; when [m_errOccurred] is true at the guard it queues none and
    goes straight to joining.  In both cases the workers are then joined in
    index order, all of them when they all return. *)
Theorem wakeup_before_join (env : CopyEnv) (w : World) :
  initialized (copier w) ->
  monitor_exits (env_polls env) = true ->
  let N := Z.to_nat (m_numOfThreads (copier w)) in
  exists r w' wake post k,
    StartCopy env w = (r, w') /\
    events w' = events w ++ map EvThreadStart (seq 0 N) ++ wake ++ post /\
    existsb is_join_event wake = false /\
    existsb is_apc_event post = false /\
    (m_errOccurred (env_at_wakeup env) = false ->
     filter is_apc_event wake = map EvQueueUserAPC (wakeable env N)) /\
    (m_errOccurred (env_at_wakeup env) = true -> wake = []) /\
    filter is_join_event post = map EvJoin (seq 0 k) /\
    (workers_return env N = true -> k = N).
Proof.
  intros Hinit Hexit N.
  destruct (StartCopy_run env w Hinit Hexit)
    as (r & w' & wake & k & tail & Heq & Hev & Hwake & Hk & Hfin).
  fold N in Hev, Hwake, Hk, Hfin.
  destruct (joins_only (seq 0 k)) as [Hj1 Hj2].
  assert (Htail : filter is_join_event tail = [] /\
                  existsb is_apc_event tail = false /\
                  (workers_return env N = true -> k = N)).
  { destruct (workers_return env N).
    - cbn zeta in Hfin. destruct Hfin as (-> & _ & _ & ->).
      destruct (env_FlushFileBuffers env),
               (m_errOccurred (env_at_joined env)); cbn; auto.
    - destruct Hfin as (_ & ->). cbn. repeat split. discriminate. }
  destruct Htail as (Ht1 & Ht2 & Ht3).
  exists r, w', wake, (map EvJoin (seq 0 k) ++ tail), k.
  split; [exact Heq |]. split; [exact Hev |].
  assert (Hpost : existsb is_apc_event (map EvJoin (seq 0 k) ++ tail) = false)
    by (rewrite existsb_app, Hj2, Ht2; reflexivity).
  assert (Hjoins : filter is_join_event (map EvJoin (seq 0 k) ++ tail)
                   = map EvJoin (seq 0 k))
    by (rewrite filter_app, Hj1, Ht1; apply app_nil_r).
  destruct (m_errOccurred (env_at_wakeup env)).
  - subst wake.
    repeat split; try assumption; try reflexivity; discriminate.
  - destruct Hwake as (Hf & Hnj & _).
    repeat split; try assumption; try (intros _; assumption); discriminate.
Qed.

(** A drained copy without error: both workers are woken, then joined. *)
Lemma wakeup_before_join_witness :
  let env := ex_copy_env 1 ex_drained true in
  let N := Z.to_nat (m_numOfThreads (copier ex_ready)) in
  exists r w' wake post k,
    StartCopy env ex_ready = (r, w') /\
    events w' =
      events ex_ready ++ map EvThreadStart (seq 0 N) ++ wake ++ post /\
    existsb is_join_event wake = false /\
    existsb is_apc_event post = false /\
    (m_errOccurred (env_at_wakeup env) = false ->
     filter is_apc_event wake = map EvQueueUserAPC (wakeable env N)) /\
    (m_errOccurred (env_at_wakeup env) = true -> wake = []) /\
    filter is_join_event post = map EvJoin (seq 0 k) /\
    (workers_return env N = true -> k = N).
Proof.
  intros env.
  apply (wakeup_before_join env ex_ready).
  - exact ex_ready_initialized.
  - reflexivity.
Defined.

Example wakeup_without_error :
  filter is_apc_event
    (events (snd (StartCopy (ex_copy_env 1 ex_drained true) ex_ready)))
  = [EvQueueUserAPC 0; EvQueueUserAPC 1].
Proof. vm_compute. reflexivity. Qed.

(* ===================================================================== *)
(** ** The pipeline operations in closed form *)
(* ===================================================================== *)

Ltac run_x := cbv beta iota zeta delta [DummyApcCompletion] in *; run_b.

Ltac split_ifs :=
  repeat match goal with
         | |- context [if ?b then _ else _] => destruct b eqn:?; run_x
         end.

(** The claim step while the 64-bit counter is in range. *)
Lemma claim_block_run (b T : Z) (w : World) :
  0 < b <= DWORD_MAX -> is_LONGLONG T ->
  0 <= m_fileOffset (io w) -> m_fileOffset (io w) + b <= LLONG_MAX ->
  claim_block b T w =
  (spec_claim b T (m_fileOffset (io w)),
   mkWorld
     (set_ioUtilsObj
        (if T <=? m_fileOffset (io w)
         then set_readComplete true
                (set_fileOffset (m_fileOffset (io w) + b) (io w))
         else set_fileOffset (m_fileOffset (io w) + b) (io w))
        (copier w))
     (events w)).
Proof.
  intros Hb HT Ho Hmax.
  unfold is_LONGLONG, LLONG_MIN, LLONG_MAX, DWORD_MAX in *.
  unfold claim_block, spec_claim. run_m.
  set (o := m_fileOffset (ioUtilsObj (copier w))) in *.
  assert (Hadd : to_LONGLONG (o + b) = o + b).
  { apply to_LONGLONG_id. unfold is_LONGLONG, LLONG_MIN, LLONG_MAX. lia. }
  rewrite Hadd.
  destruct (Z.geb_spec o T) as [Hge | Hlt].
  - destruct (Z.leb_spec T o); [| lia]. reflexivity.
  - destruct (Z.leb_spec T o); [lia |].
    destruct (Z.gtb_spec (o + b) T) as [Hshort | Hfull].
    + assert (Hsub : to_DWORD (to_LONGLONG (T - o)) = T - o).
      { rewrite to_LONGLONG_id
          by (unfold is_LONGLONG, LLONG_MIN, LLONG_MAX; lia).
        apply to_DWORD_id. unfold is_DWORD, DWORD_MAX. lia. }
      rewrite Hsub.
      destruct (Z.eqb_spec (T - o) 0); [lia |].
      rewrite Z.min_r by lia. reflexivity.
    + destruct (Z.eqb_spec b 0); [lia |].
      rewrite Z.min_l by lia. reflexivity.
Qed.

(** [IssueRead] in closed form, while the 64-bit counter is in range. *)
Lemma IssueRead_run (os : SubmitResult) (h : HANDLE) (c : IOContext)
    (b T : Z) (w : World) :
  0 < b <= DWORD_MAX -> is_LONGLONG T ->
  0 <= m_fileOffset (io w) -> m_fileOffset (io w) + b <= LLONG_MAX ->
  IssueRead os h c b T w =
  let o := m_fileOffset (io w) in
  if m_readComplete (io w) || m_errOccurred (io w) then ((false, c), w)
  else if T <=? o then
    ((false, c),
     mkWorld
       (set_ioUtilsObj (set_readComplete true (set_fileOffset (o + b) (io w)))
          (copier w))
       (events w))
  else
    let c1 := read_context o c in
    let p1 := to_int (m_pendingIOs (io w) + 1) in
    let ev :=
      EvReadFileEx h (Offset (overlapped c1)) (OffsetHigh (overlapped c1))
        (Z.min b (T - o)) p1 in
    match os with
    | Submitted =>
      ((true, c1),
       mkWorld
         (set_ioUtilsObj (set_pendingIOs p1 (set_fileOffset (o + b) (io w)))
            (copier w))
         (events w ++ [ev]))
    | Failed e =>
      ((false, c1),
       mkWorld
         (set_ioUtilsObj
            (set_pendingIOs (to_int (p1 - 1))
               (if e =? ERROR_HANDLE_EOF
                then set_readComplete true (set_fileOffset (o + b) (io w))
                else set_errOccurred true (set_fileOffset (o + b) (io w))))
            (copier w))
         (events w ++
          ev :: (if e =? ERROR_HANDLE_EOF then []
                 else [EvLog LVL_ERROR MsgReadFileExFailed])))
    end.
Proof.
  intros Hb HT Ho Hmax. cbn zeta.
  unfold IssueRead. run_m.
  destruct (m_readComplete (ioUtilsObj (copier w))
            || m_errOccurred (ioUtilsObj (copier w))); [reflexivity |].
  rewrite (claim_block_run b T w Hb HT Ho Hmax).
  unfold spec_claim, io.
  destruct (T <=? m_fileOffset (ioUtilsObj (copier w))); [reflexivity |].
  destruct os as [| e]; run_b; [reflexivity |].
  destruct (e =? ERROR_HANDLE_EOF); run_b.
  - reflexivity.
  - rewrite <- app_assoc. reflexivity.
Qed.

(** [OnWriteCompletion] on a valid context, in closed form. *)
Lemma OnWriteCompletion_run (errCode n : Z) (c : IOContext) (w : World) :
  curInst c = true ->
  OnWriteCompletion errCode n (Some c) w =
  (Some (set_completed true c),
   mkWorld
     (set_bytesWrittenTotal (to_LONGLONG (m_bytesWrittenTotal (copier w) + n))
        (set_ioUtilsObj
           (set_pendingIOs (to_int (m_pendingIOs (io w) - 1))
              (if errCode =? ERROR_SUCCESS then io w
               else set_errOccurred true (io w)))
           (copier w)))
     (events w ++
      (if errCode =? ERROR_SUCCESS then []
       else [EvLog LVL_ERROR MsgWriteError]))).
Proof.
  intros Hcur. unfold OnWriteCompletion. run_b. rewrite Hcur. run_b.
  destruct (errCode =? ERROR_SUCCESS); run_b.
  - rewrite app_nil_r. destruct w as [[] ?]. reflexivity.
  - reflexivity.
Qed.

(** A successful read of [n > 0] bytes, in closed form up to the call of
    [IssueWrite]. *)
Lemma OnReadCompletion_run (os : SubmitResult) (n : Z) (c : IOContext)
    (w : World) (s : Z) :
  curInst c = true -> 0 < n <= bufSize c -> is_DWORD (bufSize c) ->
  0 < s -> (s | bufSize c) ->
  s = (if m_destSectorSize (copier w) =? 0 then 4096
       else m_destSectorSize (copier w)) ->
  OnReadCompletion os ERROR_SUCCESS n (Some c) w =
  (let '((ok, c2), w2) :=
     IssueWrite os (m_hDest (copier w)) (padded_context s n c) (padded_len s n)
       (mkWorld
          (set_bytesReadTotal (to_LONGLONG (m_bytesReadTotal (copier w) + n))
             (set_ioUtilsObj
                (set_pendingIOs (to_int (m_pendingIOs (io w) - 1)) (io w))
                (copier w)))
          (events w ++
           (if m_destSectorSize (copier w) =? 0
            then [EvLog LVL_WARNING MsgSectorSizeZero] else []))) in
   if ok then (Some c2, w2)
   else (Some c2,
         mkWorld (set_ioUtilsObj (set_errOccurred true (io w2)) (copier w2))
           (events w2 ++ [EvLog LVL_ERROR MsgIssueWriteFailed]))).
Proof.
  intros Hcur Hn HB Hs Hdiv Hsec.
  unfold is_DWORD, DWORD_MAX in HB.
  assert (Hsmall : s <= bufSize c).
  { destruct Hdiv as [k Hk]. assert (0 < k) by nia. nia. }
  unfold padded_context, padded_len.
  unfold OnReadCompletion. run_m. rewrite Hcur. cbn [negb].
  change (ERROR_SUCCESS =? ERROR_SUCCESS) with true. cbn [negb].
  destruct (Z.eqb_spec n 0) as [? | _]; [lia |].
  run_m.
  destruct (Z.eqb_spec (m_destSectorSize (copier w)) 0) as [Hz | Hnz];
    run_m; rewrite <- Hsec; clear Hsec;
    destruct (Z.eqb_spec (n mod s) 0) as [H0 | Hne]; cbn [negb andb] in *.
  1, 3:
    cbn [bytesTransferred set_bytesTransferred]; rewrite ?app_nil_r;
    rewrite !IssueWrite_run; run_b;
    (destruct (m_errOccurred (ioUtilsObj (copier w)));
     [reflexivity | destruct os; reflexivity]).
  all:
    destruct (padding_fits s n (bufSize c) Hs Hn Hdiv Hne) as [Hfit Hpad];
    rewrite (to_DWORD_id (s - n mod s)) by (unfold is_DWORD, DWORD_MAX; lia);
    rewrite (to_DWORD_id (n + (s - n mod s)))
      by (unfold is_DWORD, DWORD_MAX; lia);
    (destruct (Z.gtb_spec (n + (s - n mod s)) (bufSize c)) as [? | _]; [lia |]);
    cbn [bytesTransferred set_bytesTransferred]; rewrite ?app_nil_r;
    rewrite !IssueWrite_run; run_b;
    (destruct (m_errOccurred (ioUtilsObj (copier w)));
     [reflexivity | destruct os; reflexivity]).
Qed.

(* ===================================================================== *)
(** ** What the pipeline operations never do *)
(* ===================================================================== *)

Ltac frame_done :=
  unfold latched, same_config, same_target; cbn;
  repeat split; auto.

Lemma IssueWrite_frame (os : SubmitResult) (h : HANDLE) (c : IOContext)
    (n : Z) (w : World) :
  let r := IssueWrite os h c n w in
  latched (io w) (io (snd r)) /\
  same_config (copier w) (copier (snd r)) /\
  m_fileOffset (io (snd r)) = m_fileOffset (io w) /\
  same_target c (snd (fst r)) /\
  buf_data (snd (fst r)) = buf_data c /\
  bytesTransferred (snd (fst r)) = bytesTransferred c.
Proof.
  cbn zeta. rewrite IssueWrite_run. unfold io.
  destruct (m_errOccurred (ioUtilsObj (copier w))) eqn:Herr.
  - frame_done.
  - destruct os; frame_done.
Qed.

Lemma OnReadCompletion_frame (os : SubmitResult) (errCode n : Z)
    (c : IOContext) (w : World) :
  exists c' w',
    OnReadCompletion os errCode n (Some c) w = (Some c', w') /\
    latched (io w) (io w') /\
    same_config (copier w) (copier w') /\
    m_fileOffset (io w') = m_fileOffset (io w) /\
    same_target c c'.
Proof.
  unfold OnReadCompletion. run_x.
  destruct (curInst c) eqn:Hcur; run_x.
  2: { do 2 eexists. split; [reflexivity |]. frame_done. }
  destruct (errCode =? ERROR_SUCCESS); run_x.
  2: { destruct (errCode =? ERROR_HANDLE_EOF); run_x;
       [destruct (n =? 0); run_x |];
       (do 2 eexists; split; [reflexivity |]; frame_done). }
  destruct (n =? 0); run_x.
  { do 2 eexists. split; [reflexivity |]. frame_done. }
  destruct (m_destSectorSize (copier w) =? 0); run_x;
    match goal with
    | |- context [if ?b && ?b' then _ else _] =>
      destruct b; run_x; [destruct b'; run_x |]
    end;
    rewrite ?IssueWrite_run; run_x;
    try (destruct (m_errOccurred (ioUtilsObj (copier w))) eqn:Herr; run_x);
    try (destruct os; run_x);
    (do 2 eexists; split; [reflexivity |]; frame_done).
Qed.

Lemma OnWriteCompletion_frame (errCode n : Z) (c : IOContext) (w : World) :
  exists w',
    OnWriteCompletion errCode n (Some c) w
    = (Some (if curInst c then set_completed true c else c), w') /\
    latched (io w) (io w') /\
    same_config (copier w) (copier w') /\
    m_fileOffset (io w') = m_fileOffset (io w) /\
    m_readComplete (io w') = m_readComplete (io w) /\
    m_bytesReadTotal (copier w') = m_bytesReadTotal (copier w).
Proof.
  unfold OnWriteCompletion. run_x.
  destruct (curInst c); run_x.
  - destruct (errCode =? ERROR_SUCCESS); run_x;
      (eexists; split; [reflexivity |]; frame_done).
  - eexists; split; [reflexivity |]; frame_done.
Qed.

Lemma IssueRead_frame (os : SubmitResult) (h : HANDLE) (c : IOContext)
    (b T : Z) (w : World) :
  let r := IssueRead os h c b T w in
  latched (io w) (io (snd r)) /\
  same_config (copier w) (copier (snd r)) /\
  buf (snd (fst r)) = buf c /\ bufSize (snd (fst r)) = bufSize c /\
  curInst (snd (fst r)) = curInst c /\
  buf_data (snd (fst r)) = buf_data c /\
  m_bytesReadTotal (copier (snd r)) = m_bytesReadTotal (copier w) /\
  m_bytesWrittenTotal (copier (snd r)) = m_bytesWrittenTotal (copier w).
Proof.
  cbn zeta. unfold IssueRead, claim_block. run_x.
  destruct (m_readComplete (ioUtilsObj (copier w))) eqn:Hrc; run_x.
  { frame_done. }
  destruct (m_errOccurred (ioUtilsObj (copier w))) eqn:Herr; run_x.
  { frame_done. }
  destruct (m_fileOffset (ioUtilsObj (copier w)) >=? T); run_x.
  { frame_done; discriminate. }
  match goal with
  | |- context [if ?x =? 0 then _ else _] => destruct (x =? 0); run_x
  end.
  { frame_done; discriminate. }
  destruct os as [| e]; run_x.
  { frame_done; discriminate. }
  destruct (e =? ERROR_HANDLE_EOF); run_x; frame_done; discriminate.
Qed.

(** X1.  No operation of the pipeline ever clears [m_readComplete] or
    [m_errOccurred], and none changes the configuration of the copier.
    [IssueRead] leaves the buffer, its size and the back pointer of the
    context alone.  [IssueWrite] and the two completion callbacks never move
    [m_fileOffset] and never change where a context's buffer is, which
    block it holds or at which offset it is submitted. *)
Theorem pipeline_keeps_latches (os : SubmitResult) (h : HANDLE)
    (c : IOContext) (b T errCode n : Z) (w : World) :
  (let r := IssueRead os h c b T w in
   latched (io w) (io (snd r)) /\
   same_config (copier w) (copier (snd r)) /\
   buf (snd (fst r)) = buf c /\ bufSize (snd (fst r)) = bufSize c /\
   curInst (snd (fst r)) = curInst c) /\
  (let r := IssueWrite os h c n w in
   latched (io w) (io (snd r)) /\
   same_config (copier w) (copier (snd r)) /\
   m_fileOffset (io (snd r)) = m_fileOffset (io w) /\
   same_target c (snd (fst r))) /\
  (let r := StaticReadCompletion os errCode n (Some c) w in
   latched (io w) (io (snd r)) /\
   same_config (copier w) (copier (snd r)) /\
   m_fileOffset (io (snd r)) = m_fileOffset (io w) /\
   match fst r with Some c' => same_target c c' | None => False end) /\
  (let r := StaticWriteCompletion errCode n (Some c) w in
   latched (io w) (io (snd r)) /\
   same_config (copier w) (copier (snd r)) /\
   m_fileOffset (io (snd r)) = m_fileOffset (io w) /\
   match fst r with Some c' => same_target c c' | None => False end).
Proof.
  split; [| split; [| split]].
  - destruct (IssueRead_frame os h c b T w) as (H1 & H2 & H3 & H4 & H5 & _).
    cbn zeta. auto.
  - destruct (IssueWrite_frame os h c n w) as (H1 & H2 & H3 & H4 & _).
    cbn zeta. auto.
  - cbn zeta. unfold StaticReadCompletion.
    destruct (curInst c) eqn:Hcur; run_x.
    + destruct (OnReadCompletion_frame os errCode n c w)
        as (c' & w' & Heq & H1 & H2 & H3 & H4).
      rewrite Heq. cbn [fst snd]. auto.
    + frame_done.
  - cbn zeta. unfold StaticWriteCompletion.
    destruct (curInst c) eqn:Hcur; run_x.
    + destruct (OnWriteCompletion_frame errCode n c w)
        as (w' & Heq & H1 & H2 & H3 & _).
      rewrite Heq, Hcur. cbn [fst snd].
      split; [exact H1 |]. split; [exact H2 |]. split; [exact H3 |].
      unfold same_target. cbn. repeat split; reflexivity.
    + frame_done.
Qed.

(** X2.  A completion whose context pointer is null, or whose context has
    no back pointer, is dropped by the callbacks and by the handlers: an
    error is logged and nothing else happens.  In particular
    [m_pendingIOs] is not decremented for it. *)
Theorem invalid_context_dropped (os : SubmitResult) (errCode n : Z)
    (lp : option IOContext) (w : World) :
  valid_context lp = false ->
  StaticReadCompletion os errCode n lp w = (lp, logged MsgInvalidContext w) /\
  StaticWriteCompletion errCode n lp w = (lp, logged MsgInvalidContext w) /\
  OnReadCompletion os errCode n lp w = (lp, logged MsgInvalidContext w) /\
  OnWriteCompletion errCode n lp w = (lp, logged MsgInvalidContext w) /\
  m_pendingIOs (io (logged MsgInvalidContext w)) = m_pendingIOs (io w).
Proof.
  intros Hinv.
  unfold StaticReadCompletion, StaticWriteCompletion, OnReadCompletion,
    OnWriteCompletion, logged.
  destruct lp as [c |]; cbn in Hinv.
  - rewrite Hinv. run_x. repeat split; reflexivity.
  - run_x. repeat split; reflexivity.
Qed.

Lemma invalid_context_dropped_witness :
  let w := ex_engine 512 in
  StaticReadCompletion Submitted 0 512 None w
  = (None, logged MsgInvalidContext w) /\
  StaticWriteCompletion 0 512 None w = (None, logged MsgInvalidContext w) /\
  OnReadCompletion Submitted 0 512 None w
  = (None, logged MsgInvalidContext w) /\
  OnWriteCompletion 0 512 None w = (None, logged MsgInvalidContext w) /\
  m_pendingIOs (io (logged MsgInvalidContext w)) = m_pendingIOs (io w).
Proof.
  intros w.
  apply (invalid_context_dropped Submitted 0 512 None w).
  reflexivity.
Defined.

(** X3.  Cancellation.  Once [m_errOccurred] is set, [IssueRead] and
    [IssueWrite] return [false] without touching anything: no block is
    claimed, [m_pendingIOs] is not raised and nothing is submitted.  A read
    completion that arrives then, whatever its code and byte count, submits
    no write either, and the error stays set. *)
Theorem no_submission_after_error (os : SubmitResult) (h : HANDLE)
    (c : IOContext) (b T errCode n : Z) (lp : option IOContext) (w : World) :
  m_errOccurred (io w) = true ->
  IssueRead os h c b T w = ((false, c), w) /\
  IssueWrite os h c n w = ((false, c), w) /\
  exists r w' es,
    StaticReadCompletion os errCode n lp w = (r, w') /\
    events w' = events w ++ es /\
    existsb is_submission es = false /\
    m_errOccurred (io w') = true.
Proof.
  intros Herr. split; [| split].
  - unfold IssueRead. run_x. unfold io in Herr. rewrite Herr, orb_true_r.
    reflexivity.
  - rewrite IssueWrite_run, Herr. reflexivity.
  - unfold io in Herr.
    unfold StaticReadCompletion, OnReadCompletion.
    destruct lp as [cx |]; run_x.
    2: { do 3 eexists. split; [reflexivity |]. cbn. repeat split; auto. }
    destruct (curInst cx) eqn:Hcur; run_x.
    2: { do 3 eexists. split; [reflexivity |]. cbn. repeat split; auto. }
    destruct (errCode =? ERROR_SUCCESS); run_x.
    2: { destruct (errCode =? ERROR_HANDLE_EOF); run_x;
         [destruct (n =? 0); run_x |].
         - exists (Some (set_completed true cx)). eexists. exists [].
           cbn. rewrite app_nil_r. repeat split; auto.
         - exists (Some (set_completed true cx)). eexists. exists [].
           cbn. rewrite app_nil_r. repeat split; auto.
         - do 3 eexists. split; [reflexivity |]. cbn. repeat split; auto. }
    destruct (n =? 0); run_x.
    { exists (Some (set_completed true cx)). eexists. exists [].
      cbn. rewrite app_nil_r. repeat split; auto. }
    destruct (m_destSectorSize (copier w) =? 0); run_x;
      match goal with
      | |- context [if ?b && ?b' then _ else _] =>
        destruct b; run_x; [destruct b'; run_x |]
      end;
      rewrite ?IssueWrite_run; run_x; rewrite ?Herr; run_x;
      (do 3 eexists; split; [reflexivity |]; cbn;
       rewrite <- ?app_assoc; repeat split; auto).
Qed.

Lemma no_submission_after_error_witness :
  let w := world_with_io ex_failed in
  IssueRead Submitted 8 (ex_context 1024) 1024 4096 w
  = ((false, ex_context 1024), w) /\
  IssueWrite Submitted 9 (ex_context 1024) 512 w
  = ((false, ex_context 1024), w) /\
  exists r w' es,
    StaticReadCompletion Submitted 0 512 (Some (ex_context 1024)) w = (r, w') /\
    events w' = events w ++ es /\
    existsb is_submission es = false /\
    m_errOccurred (io w') = true.
Proof.
  intros w.
  apply (no_submission_after_error Submitted 8 (ex_context 1024) 1024 4096
           0 512 (Some (ex_context 1024)) w).
  reflexivity.
Defined.

(** X4.  Failed completions.  A read completion with an error code other
    than success and end-of-file sets [m_errOccurred], marks the context
    completed, decrements [m_pendingIOs], counts no byte and submits no
    write.  A write completion with an error code sets [m_errOccurred] and
    marks the context completed as well, and still adds the reported byte
    count to [m_bytesWrittenTotal]. *)
Theorem failed_completion (os : SubmitResult) (errCode n : Z)
    (c : IOContext) (w : World) :
  curInst c = true -> errCode <> ERROR_SUCCESS ->
  (errCode <> ERROR_HANDLE_EOF ->
   exists w',
     OnReadCompletion os errCode n (Some c) w = (Some (set_completed true c), w') /\
     events w' = events w ++ [EvLog LVL_ERROR MsgReadError] /\
     io w' = set_errOccurred true
               (set_pendingIOs (to_int (m_pendingIOs (io w) - 1)) (io w)) /\
     m_bytesReadTotal (copier w') = m_bytesReadTotal (copier w)) /\
  (exists w',
     OnWriteCompletion errCode n (Some c) w = (Some (set_completed true c), w') /\
     events w' = events w ++ [EvLog LVL_ERROR MsgWriteError] /\
     io w' = set_errOccurred true
               (set_pendingIOs (to_int (m_pendingIOs (io w) - 1)) (io w)) /\
     m_bytesWrittenTotal (copier w')
     = to_LONGLONG (m_bytesWrittenTotal (copier w) + n)).
Proof.
  intros Hcur Hne.
  destruct (Z.eqb_spec errCode ERROR_SUCCESS) as [? | _]; [contradiction |].
  split.
  - intros Hneof.
    destruct (Z.eqb_spec errCode ERROR_HANDLE_EOF) as [? | _]; [contradiction |].
    unfold OnReadCompletion. run_x. rewrite Hcur. run_x.
    destruct (Z.eqb_spec errCode ERROR_SUCCESS) as [? | _]; [contradiction |].
    destruct (Z.eqb_spec errCode ERROR_HANDLE_EOF) as [? | _]; [contradiction |].
    run_x. eexists. split; [reflexivity |]. cbn. repeat split; reflexivity.
  - rewrite (OnWriteCompletion_run errCode n c w Hcur).
    destruct (Z.eqb_spec errCode ERROR_SUCCESS) as [? | _]; [contradiction |].
    eexists. split; [reflexivity |]. cbn. repeat split; reflexivity.
Qed.

Lemma failed_completion_witness :
  let c := ex_context 1024 in
  let w := ex_engine 512 in
  (5 <> ERROR_HANDLE_EOF ->
   exists w',
     OnReadCompletion Submitted 5 0 (Some c) w = (Some (set_completed true c), w') /\
     events w' = events w ++ [EvLog LVL_ERROR MsgReadError] /\
     io w' = set_errOccurred true
               (set_pendingIOs (to_int (m_pendingIOs (io w) - 1)) (io w)) /\
     m_bytesReadTotal (copier w') = m_bytesReadTotal (copier w)) /\
  (exists w',
     OnWriteCompletion 5 0 (Some c) w = (Some (set_completed true c), w') /\
     events w' = events w ++ [EvLog LVL_ERROR MsgWriteError] /\
     io w' = set_errOccurred true
               (set_pendingIOs (to_int (m_pendingIOs (io w) - 1)) (io w)) /\
     m_bytesWrittenTotal (copier w')
     = to_LONGLONG (m_bytesWrittenTotal (copier w) + 0)).
Proof.
  intros c w.
  apply (failed_completion Submitted 5 0 c w).
  - reflexivity.
  - discriminate.
Defined.

(** X5.  When [ReadFileEx] fails at once, [IssueRead] returns [false] and
    brings [m_pendingIOs] back, but the block it claimed stays claimed:
    [m_fileOffset] has advanced by the block size and the context carries
    the offset of the block that was not read.  With the end-of-file code
    [m_readComplete] is set and [m_errOccurred] is not; with any other code
    it is the other way round, and the error is logged. *)
Theorem read_submission_failure (e : Z) (h : HANDLE) (c : IOContext)
    (b T : Z) (w : World) :
  0 < b <= DWORD_MAX -> is_LONGLONG T ->
  0 <= m_fileOffset (io w) -> m_fileOffset (io w) + b <= LLONG_MAX ->
  m_readComplete (io w) = false -> m_errOccurred (io w) = false ->
  m_fileOffset (io w) < T ->
  INT_MIN <= m_pendingIOs (io w) < INT_MAX ->
  exists c' w' tl,
    IssueRead (Failed e) h c b T w = ((false, c'), w') /\
    readOffset c' = m_fileOffset (io w) /\
    m_fileOffset (io w') = m_fileOffset (io w) + b /\
    m_pendingIOs (io w') = m_pendingIOs (io w) /\
    events w' =
      events w ++
      EvReadFileEx h (Offset (overlapped c')) (OffsetHigh (overlapped c'))
        (Z.min b (T - m_fileOffset (io w))) (m_pendingIOs (io w) + 1) :: tl /\
    m_readComplete (io w') = (e =? ERROR_HANDLE_EOF) /\
    m_errOccurred (io w') = negb (e =? ERROR_HANDLE_EOF) /\
    tl = (if e =? ERROR_HANDLE_EOF then []
          else [EvLog LVL_ERROR MsgReadFileExFailed]).
Proof.
  intros Hb HT Ho Hmax Hrc Herr Hlt Hp.
  rewrite (IssueRead_run (Failed e) h c b T w Hb HT Ho Hmax). cbn zeta.
  rewrite Hrc, Herr. cbn [orb].
  destruct (Z.leb_spec T (m_fileOffset (io w))) as [? | _]; [lia |].
  unfold INT_MIN, INT_MAX in Hp.
  assert (Hinc : to_int (m_pendingIOs (io w) + 1) = m_pendingIOs (io w) + 1)
    by (apply to_int_id; unfold is_int, INT_MIN, INT_MAX; lia).
  assert (Hdec : to_int (m_pendingIOs (io w) + 1 - 1) = m_pendingIOs (io w)).
  { replace (m_pendingIOs (io w) + 1 - 1) with (m_pendingIOs (io w)) by lia.
    apply to_int_id. unfold is_int, INT_MIN, INT_MAX. lia. }
  rewrite Hinc, Hdec.
  destruct (e =? ERROR_HANDLE_EOF);
    (do 3 eexists; split; [reflexivity |]);
    unfold io in *; cbn [copier events fst snd];
    (split; [reflexivity |]); (split; [reflexivity |]);
    (split; [reflexivity |]); (split; [reflexivity |]);
    cbn; rewrite ?Hrc, ?Herr; repeat split; reflexivity.
Qed.

Lemma read_submission_failure_witness :
  let w := ex_engine 512 in
  let c := ex_context 1024 in
  exists c' w' tl,
    IssueRead (Failed 5) 8 c 1024 4096 w = ((false, c'), w') /\
    readOffset c' = m_fileOffset (io w) /\
    m_fileOffset (io w') = m_fileOffset (io w) + 1024 /\
    m_pendingIOs (io w') = m_pendingIOs (io w) /\
    events w' =
      events w ++
      EvReadFileEx 8 (Offset (overlapped c')) (OffsetHigh (overlapped c'))
        (Z.min 1024 (4096 - m_fileOffset (io w))) (m_pendingIOs (io w) + 1)
      :: tl /\
    m_readComplete (io w') = (5 =? ERROR_HANDLE_EOF) /\
    m_errOccurred (io w') = negb (5 =? ERROR_HANDLE_EOF) /\
    tl = (if 5 =? ERROR_HANDLE_EOF then []
          else [EvLog LVL_ERROR MsgReadFileExFailed]).
Proof.
  intros w c.
  apply (read_submission_failure 5 8 c 1024 4096 w).
  - unfold DWORD_MAX. lia.
  - unfold is_LONGLONG, LLONG_MIN, LLONG_MAX. lia.
  - cbn. lia.
  - unfold LLONG_MAX. cbn. lia.
  - reflexivity.
  - reflexivity.
  - cbn. lia.
  - unfold INT_MIN, INT_MAX. cbn. lia.
Defined.

(** X6.  One block through the pipeline.  On a healthy engine a read that
    is submitted, completes with [n > 0] bytes and whose write completes in
    full goes through [IssueRead], [StaticReadCompletion] and
    [StaticWriteCompletion] as follows: exactly one read and one write are
    submitted, the write at the offset of the read and with the least
    multiple of the sector size that holds [n] bytes, which fits the
    buffer; the context ends completed; [m_pendingIOs] is back at its
    value; the offset counter has advanced by one block; the totals have
    grown by [n] bytes read and by the padded length written. *)
Theorem block_round_trip (c : IOContext) (b T n : Z) (w : World) :
  let o := m_fileOffset (io w) in
  let s := m_destSectorSize (copier w) in
  let p := m_pendingIOs (io w) in
  curInst c = true -> bufSize c = b -> 0 < b <= DWORD_MAX -> is_LONGLONG T ->
  0 <= o < T -> o + b <= LLONG_MAX ->
  m_readComplete (io w) = false -> m_errOccurred (io w) = false ->
  0 <= p < INT_MAX ->
  0 < s -> (s | b) -> 0 < n <= b ->
  is_LONGLONG (m_bytesReadTotal (copier w) + n) ->
  is_LONGLONG (m_bytesWrittenTotal (copier w) + padded_len s n) ->
  exists c1 w1 c2 w2 c3 w3,
    IssueRead Submitted (m_hSrc (copier w)) c b T w = ((true, c1), w1) /\
    StaticReadCompletion Submitted ERROR_SUCCESS n (Some c1) w1
    = (Some c2, w2) /\
    StaticWriteCompletion ERROR_SUCCESS (padded_len s n) (Some c2) w2
    = (Some c3, w3) /\
    events w3 =
      events w ++
      [EvReadFileEx (m_hSrc (copier w)) (Offset (overlapped c3))
         (OffsetHigh (overlapped c3)) (Z.min b (T - o)) (p + 1);
       EvWriteFileEx (m_hDest (copier w)) (Offset (overlapped c3))
         (OffsetHigh (overlapped c3)) (padded_len s n) (p + 1)] /\
    Offset (overlapped c3) + 2 ^ 32 * OffsetHigh (overlapped c3) = o /\
    least_multiple_ge s n (padded_len s n) /\ padded_len s n <= b /\
    completed c3 = true /\
    io w3 = set_fileOffset (o + b) (io w) /\
    m_bytesReadTotal (copier w3) = m_bytesReadTotal (copier w) + n /\
    m_bytesWrittenTotal (copier w3)
    = m_bytesWrittenTotal (copier w) + padded_len s n /\
    same_config (copier w) (copier w3).
Proof.
  intros o s p Hcur HB Hb HT Ho Hmax Hrc Herr Hp Hs Hdiv Hn Hrd Hwr.
  assert (Hinc : to_int (p + 1) = p + 1)
    by (apply to_int_id; unfold is_int, INT_MIN, INT_MAX in *; lia).
  assert (Hdec : to_int (p + 1 - 1) = p).
  { replace (p + 1 - 1) with p by lia.
    apply to_int_id. unfold is_int, INT_MIN, INT_MAX in *. lia. }
  assert (Hfit : padded_len s n <= b).
  { unfold padded_len. destruct (Z.eqb_spec (n mod s) 0) as [? | Hne]; [lia |].
    apply (padding_fits s n b Hs Hn Hdiv Hne). }
  rewrite (IssueRead_run Submitted _ c b T w Hb HT (proj1 Ho) Hmax).
  cbn zeta. fold o p. rewrite Hrc, Herr. cbn [orb].
  destruct (Z.leb_spec T o) as [? | _]; [lia |].
  rewrite Hinc.
  do 6 eexists. split; [reflexivity |].
  assert (Hc1 : curInst (read_context o c) = true) by exact Hcur.
  assert (HB1 : bufSize (read_context o c) = b) by exact HB.
  unfold StaticReadCompletion. rewrite Hc1. cbn [negb].
  rewrite (OnReadCompletion_run Submitted n (read_context o c) _ s);
    [| exact Hc1 | rewrite HB1; exact Hn
     | rewrite HB1; unfold is_DWORD; lia | exact Hs | rewrite HB1; exact Hdiv
     | cbn [copier set_ioUtilsObj m_destSectorSize];
       destruct (Z.eqb_spec (m_destSectorSize (copier w)) 0); [lia | reflexivity]].
  rewrite IssueWrite_run.
  unfold io. cbn [copier events set_ioUtilsObj ioUtilsObj set_bytesReadTotal
                  set_pendingIOs set_fileOffset m_errOccurred m_pendingIOs
                  m_destSectorSize m_hDest m_bytesReadTotal].
  unfold io in Herr. rewrite Herr, Hdec, Hinc.
  assert (Hsz : (m_destSectorSize (copier w) =? 0) = false)
    by (apply Z.eqb_neq; unfold s in Hs; lia).
  rewrite Hsz, app_nil_r.
  split; [reflexivity |].
  assert (Hlo : Offset (overlapped
                   (set_hEvent 0 (padded_context s n (read_context o c))))
                = Offset (overlapped (read_context o c)))
    by (unfold padded_context; destruct (n mod s =? 0); reflexivity).
  assert (Hhi : OffsetHigh (overlapped
                   (set_hEvent 0 (padded_context s n (read_context o c))))
                = OffsetHigh (overlapped (read_context o c)))
    by (unfold padded_context; destruct (n mod s =? 0); reflexivity).
  assert (Hlo' : Offset (overlapped (padded_context s n (read_context o c)))
                = Offset (overlapped (read_context o c)))
    by (unfold padded_context; destruct (n mod s =? 0); reflexivity).
  assert (Hhi' : OffsetHigh (overlapped
                   (padded_context s n (read_context o c)))
                = OffsetHigh (overlapped (read_context o c)))
    by (unfold padded_context; destruct (n mod s =? 0); reflexivity).
  assert (Hc2 : curInst (set_completed false
                  (set_hEvent 0 (padded_context s n (read_context o c))))
                = true)
    by (unfold padded_context; destruct (n mod s =? 0); exact Hcur).
  unfold StaticWriteCompletion. rewrite Hc2. cbn [negb].
  rewrite (OnWriteCompletion_run _ _ _ _ Hc2).
  change (ERROR_SUCCESS =? ERROR_SUCCESS) with true. cbv iota.
  split; [reflexivity |].
  unfold io.
  cbn [copier events set_ioUtilsObj ioUtilsObj set_bytesReadTotal
       set_bytesWrittenTotal set_pendingIOs set_fileOffset m_errOccurred
       m_pendingIOs m_destSectorSize m_hDest m_bytesReadTotal
       m_bytesWrittenTotal overlapped set_completed set_hEvent Offset
       OffsetHigh completed].
  rewrite Hdec, ?Hlo, ?Hhi, ?Hlo', ?Hhi', ?app_nil_r, <- ?app_assoc.
  rewrite (to_LONGLONG_id _ Hrd), (to_LONGLONG_id _ Hwr).
  split; [reflexivity |].
  split; [apply offset_words; unfold o in *; lia |].
  split; [apply padded_is_least; lia |].
  split; [exact Hfit |].
  split; [reflexivity |].
  split; [destruct w as [[? ? ? ? ? ? ? ? ? [] ? ?] ?]; reflexivity |].
  split; [reflexivity |].
  split; [reflexivity |].
  unfold same_config. cbn. repeat split; reflexivity.
Qed.

Lemma block_round_trip_witness :
  let c := ex_context 1024 in
  let w := ex_engine 512 in
  let b := 1024 in
  let T := 4096 in
  let n := 1000 in
  let o := m_fileOffset (io w) in
  let s := m_destSectorSize (copier w) in
  let p := m_pendingIOs (io w) in
  exists c1 w1 c2 w2 c3 w3,
    IssueRead Submitted (m_hSrc (copier w)) c b T w = ((true, c1), w1) /\
    StaticReadCompletion Submitted ERROR_SUCCESS n (Some c1) w1
    = (Some c2, w2) /\
    StaticWriteCompletion ERROR_SUCCESS (padded_len s n) (Some c2) w2
    = (Some c3, w3) /\
    events w3 =
      events w ++
      [EvReadFileEx (m_hSrc (copier w)) (Offset (overlapped c3))
         (OffsetHigh (overlapped c3)) (Z.min b (T - o)) (p + 1);
       EvWriteFileEx (m_hDest (copier w)) (Offset (overlapped c3))
         (OffsetHigh (overlapped c3)) (padded_len s n) (p + 1)] /\
    Offset (overlapped c3) + 2 ^ 32 * OffsetHigh (overlapped c3) = o /\
    least_multiple_ge s n (padded_len s n) /\ padded_len s n <= b /\
    completed c3 = true /\
    io w3 = set_fileOffset (o + b) (io w) /\
    m_bytesReadTotal (copier w3) = m_bytesReadTotal (copier w) + n /\
    m_bytesWrittenTotal (copier w3)
    = m_bytesWrittenTotal (copier w) + padded_len s n /\
    same_config (copier w) (copier w3).
Proof.
  intros c w b T n.
  apply (block_round_trip c b T n w).
  - reflexivity.
  - reflexivity.
  - unfold DWORD_MAX, b. lia.
  - unfold is_LONGLONG, LLONG_MIN, LLONG_MAX, T. lia.
  - cbn. unfold T. lia.
  - unfold LLONG_MAX. cbn. lia.
  - reflexivity.
  - reflexivity.
  - unfold INT_MAX. cbn. lia.
  - cbn. lia.
  - exists 2. reflexivity.
  - unfold n, b. lia.
  - unfold is_LONGLONG, LLONG_MIN, LLONG_MAX. cbn. lia.
  - unfold is_LONGLONG, LLONG_MIN, LLONG_MAX. vm_compute. split; discriminate.
Defined.

(* ===================================================================== *)
(** ** Initialize, in both directions *)
(* ===================================================================== *)

(** The context loop when every allocation succeeds and is aligned. *)
Lemma make_contexts_run (env : InitEnv) (n : nat) :
  forall (i : nat) (w : World),
  (forall k, (i <= k < i + n)%nat ->
     env_VirtualAlloc env k <> 0 /\
     env_VirtualAlloc env k mod m_destSectorSize (copier w) = 0) ->
  make_contexts env n i w =
  (true,
   mkWorld
     (set_cntxts
        (m_cntxts (copier w)
         ++ map (context_at env (m_blockSize (copier w))) (seq i n))
        (copier w))
     (events w)).
Proof.
  induction n as [| n IH]; intros i w Hall.
  - cbn. rewrite app_nil_r. destruct w as [[] ev]. reflexivity.
  - destruct (Hall i ltac:(lia)) as [Hnz Hal].
    cbn [make_contexts]. run_b. cbn [buf IOContext_new set_curInst].
    destruct (Z.eqb_spec (env_VirtualAlloc env i) 0) as [? | _];
      [contradiction |]. run_b.
    rewrite Hal. change (0 =? 0) with true. run_b.
    rewrite IH by (intros k Hk; cbn; apply Hall; lia).
    cbn. rewrite <- app_assoc. reflexivity.
Qed.

(** The context loop returns [true] only when every allocation succeeded
    and was aligned. *)
Lemma make_contexts_true_inv (env : InitEnv) (n : nat) :
  forall (i : nat) (w w' : World),
  make_contexts env n i w = (true, w') ->
  forall k, (i <= k < i + n)%nat ->
    env_VirtualAlloc env k <> 0 /\
    env_VirtualAlloc env k mod m_destSectorSize (copier w) = 0.
Proof.
  induction n as [| n IH]; intros i w w' Heq k Hk; [lia |].
  cbn [make_contexts] in Heq. revert Heq. run_b.
  cbn [buf IOContext_new set_curInst].
  destruct (Z.eqb_spec (env_VirtualAlloc env i) 0) as [Hz | Hnz]; run_b;
    [discriminate |].
  destruct (Z.eqb_spec (env_VirtualAlloc env i mod m_destSectorSize (copier w)) 0)
    as [Hal | Hal]; run_b; [| discriminate].
  intros Heq.
  destruct (Nat.eq_dec k i) as [-> | Hne]; [split; assumption |].
  apply (IH (S i) _ w' Heq k). lia.
Qed.

(** [Initialize] returns [true] only when every check passed. *)
Lemma Initialize_true_inv (env : InitEnv) (src dst : string) (nT mb : Z)
    (w w' : World) :
  Initialize env src dst nT mb w = (true, w') ->
  other_checks_pass env nT mb /\ env_srcSize env <= env_destSize env.
Proof.
  unfold other_checks_pass, settled_sector.
  unfold Initialize. run_b.
  destruct (Z.leb_spec nT 0) as [Hlo | Hlo]; run_b; [discriminate |].
  destruct (Z.gtb_spec nT 64) as [Hhi | Hhi]; run_b; [discriminate |].
  destruct (Z.leb_spec (block_bytes mb) 0) as [Hbs | Hbs]; run_b;
    [discriminate |].
  destruct (Z.eqb_spec (env_open_src env) INVALID_HANDLE_VALUE) as [Hs | Hs];
    run_b; [discriminate |].
  destruct (Z.eqb_spec (env_open_dest env) INVALID_HANDLE_VALUE) as [Hd | Hd];
    run_b; [discriminate |].
  destruct (Z.eqb_spec (env_srcSize env) 0) as [Hsz | Hsz]; run_b;
    [discriminate |].
  destruct (Z.eqb_spec (env_destSize env) 0) as [Hdz | Hdz]; run_b;
    [discriminate |].
  destruct (Z.ltb_spec (env_destSize env) (env_srcSize env)) as [Hcap | Hcap];
    run_b; [discriminate |].
  destruct (Z.eqb_spec (env_sectorSize env) 0) as [Hz | Hnz]; run_b.
  - destruct (Z.eqb_spec (env_proceed_choice env) 0) as [Hc | Hc]; run_b;
      [discriminate |].
    destruct (Z.eqb_spec (block_bytes mb mod 4096) 0) as [Hm | Hm]; run_b;
      [| discriminate].
    intros Heq.
    pose proof (make_contexts_true_inv env _ _ _ _ Heq) as Hall.
    cbn in Hall.
    repeat split; try solve [assumption | lia].
    + apply Hall. lia.
    + apply Hall. lia.
  - destruct (Z.eqb_spec (block_bytes mb mod env_sectorSize env) 0)
      as [Hm | Hm]; run_b; [| discriminate].
    intros Heq.
    pose proof (make_contexts_true_inv env _ _ _ _ Heq) as Hall.
    cbn in Hall.
    repeat split; try solve [assumption | lia | contradiction].
    + apply Hall. lia.
    + apply Hall. lia.
Qed.

(** [Initialize] when every check passes, with the contexts it builds and
    the calls it makes. *)
Lemma Initialize_run_ok (env : InitEnv) (src dst : string) (nT mb : Z)
    (w : World) :
  other_checks_pass env nT mb -> env_srcSize env <= env_destSize env ->
  exists w',
    Initialize env src dst nT mb w = (true, w') /\
    m_cntxts (copier w')
    = map (context_at env (block_bytes mb)) (seq 0 (Z.to_nat nT)) /\
    events w' =
      events w ++
      [EvCreateFileW src (env_open_src env);
       EvCreateFileW dst (env_open_dest env)] ++
      (if env_sectorSize env =? 0 then [EvLog LVL_ERROR MsgSectorSizeFailed]
       else []) /\
    m_blockSize (copier w') = block_bytes mb /\
    m_destSectorSize (copier w') = settled_sector env /\
    m_numOfThreads (copier w') = nT /\
    m_hSrc (copier w') = env_open_src env /\
    m_hDest (copier w') = env_open_dest env /\
    m_srcFileSize (copier w') = env_srcSize env /\
    m_destCapacity (copier w') = env_destSize env /\
    ioUtilsObj (copier w') = ioUtilsObj (copier w) /\
    m_workerThreads (copier w') = m_workerThreads (copier w).
Proof.
  intros (HnT & Hbs & Hs & Hd & Hsz & Hdz & Hpro & Hmod & Halloc) Hcap.
  assert (Hbs' : 0 <= block_bytes mb).
  { unfold block_bytes, to_DWORD. apply Z.mod_pos_bound. lia. }
  unfold settled_sector in *.
  unfold Initialize. run_b.
  destruct (Z.leb_spec nT 0) as [? | _]; [lia |].
  destruct (Z.gtb_spec nT 64) as [? | _]; [lia |]. run_b.
  destruct (Z.leb_spec (block_bytes mb) 0) as [? | _]; [lia |]. run_b.
  destruct (Z.eqb_spec (env_open_src env) INVALID_HANDLE_VALUE) as [? | _];
    [contradiction |]. run_b.
  destruct (Z.eqb_spec (env_open_dest env) INVALID_HANDLE_VALUE) as [? | _];
    [contradiction |]. run_b.
  destruct (Z.eqb_spec (env_srcSize env) 0) as [? | _]; [contradiction |]. run_b.
  destruct (Z.eqb_spec (env_destSize env) 0) as [? | _]; [contradiction |]. run_b.
  destruct (Z.ltb_spec (env_destSize env) (env_srcSize env)) as [? | _];
    [lia |]. run_b.
  destruct (Z.eqb_spec (env_sectorSize env) 0) as [Hz | Hnz]; run_b.
  - destruct (Z.eqb_spec (env_proceed_choice env) 0) as [? | _];
      [apply Hpro in Hz; contradiction |]. run_b.
    rewrite Hmod. change (0 =? 0) with true. run_b.
    rewrite make_contexts_run by (intros k Hk; cbn; apply Halloc; lia).
    eexists. split; [reflexivity |]. cbn. rewrite <- !app_assoc.
    repeat split; reflexivity.
  - rewrite Hmod. change (0 =? 0) with true. run_b.
    rewrite make_contexts_run by (intros k Hk; cbn; apply Halloc; lia).
    eexists. split; [reflexivity |]. cbn. rewrite <- !app_assoc, ?app_nil_r.
    repeat split; reflexivity.
Qed.

(** X7.  What a successful [Initialize] guarantees, whatever the operating
    system answered: both handles are valid and still open (no
    [CloseHandle] was called), the thread count is between 1 and 64 and
    there is exactly one context per thread, the block size is positive,
    the sector size is not 0 and divides the block size, the source is not
    empty and fits the destination, and every context has a buffer of one
    block that is allocated and aligned to the sector size, with its back
    pointer set and no completion pending.  Contexts of an earlier call are
    dropped. *)
Theorem Initialize_success (env : InitEnv) (src dst : string) (nT mb : Z)
    (w w' : World) :
  Initialize env src dst nT mb w = (true, w') ->
  let b := copier w' in
  initialized b /\
  1 <= m_numOfThreads b <= 64 /\
  length (m_cntxts b) = Z.to_nat (m_numOfThreads b) /\
  0 < m_blockSize b <= DWORD_MAX /\
  m_destSectorSize b <> 0 /\
  (m_destSectorSize b | m_blockSize b) /\
  m_srcFileSize b <> 0 /\ m_srcFileSize b <= m_destCapacity b /\
  Forall (context_ready (m_blockSize b) (m_destSectorSize b)) (m_cntxts b) /\
  exists es,
    events w' = events w ++ es /\ existsb is_close_event es = false.
Proof.
  intros Heq.
  destruct (Initialize_true_inv env src dst nT mb w w' Heq) as [Hok Hcap].
  destruct (Initialize_run_ok env src dst nT mb w Hok Hcap)
    as (w2 & Heq2 & Hcs & Hev & Hblk & Hsec & HnT & Hs & Hd & Hsz & Hdc & _).
  rewrite Heq in Heq2. injection Heq2 as <-.
  destruct Hok as (HnT' & Hbs & Hs' & Hd' & Hsz' & Hdz' & Hpro & Hmod & Halloc).
  assert (Hset : settled_sector env <> 0).
  { unfold settled_sector.
    destruct (Z.eqb_spec (env_sectorSize env) 0); [discriminate | assumption]. }
  assert (Hrange : 0 <= block_bytes mb < 2 ^ 32).
  { unfold block_bytes, to_DWORD. apply Z.mod_pos_bound. lia. }
  cbn zeta. rewrite Hcs, Hev, Hblk, Hsec, HnT, Hsz, Hdc.
  split.
  { unfold initialized. rewrite Hs, Hd, Hcs.
    repeat split; try assumption.
    destruct (Z.to_nat nT) eqn:E; [lia | discriminate]. }
  split; [exact HnT' |].
  split; [rewrite length_map, length_seq; reflexivity |].
  split; [unfold DWORD_MAX; lia |].
  split; [exact Hset |].
  split; [apply Z.mod_divide; assumption |].
  split; [exact Hsz' |].
  split; [exact Hcap |].
  split.
  - apply Forall_forall. intros c Hin.
    apply in_map_iff in Hin. destruct Hin as (i & <- & Hi).
    apply in_seq in Hi.
    destruct (Halloc i ltac:(lia)) as [Hnz Hal].
    unfold context_ready, context_at. cbn. repeat split; assumption.
  - eexists. split; [reflexivity |].
    destruct (env_sectorSize env =? 0); reflexivity.
Qed.

Lemma Initialize_success_witness :
  let b := copier ex_ready in
  initialized b /\
  1 <= m_numOfThreads b <= 64 /\
  length (m_cntxts b) = Z.to_nat (m_numOfThreads b) /\
  0 < m_blockSize b <= DWORD_MAX /\
  m_destSectorSize b <> 0 /\
  (m_destSectorSize b | m_blockSize b) /\
  m_srcFileSize b <> 0 /\ m_srcFileSize b <= m_destCapacity b /\
  Forall (context_ready (m_blockSize b) (m_destSectorSize b)) (m_cntxts b) /\
  exists es,
    events ex_ready = events World_new ++ es /\
    existsb is_close_event es = false.
Proof.
  apply (Initialize_success (ex_init_env 1048576 1048576) "src" "dst" 2 1
           World_new ex_ready).
  vm_compute. reflexivity.
Defined.

(** The block size in bytes is [2^20] times the low 12 bits of the
    megabyte count. *)
Lemma block_bytes_low_bits (mb : Z) :
  block_bytes mb = 2 ^ 20 * (mb mod 4096).
Proof.
  rewrite block_bytes_mod.
  change (2 ^ 32) with (4096 * 2 ^ 20).
  rewrite Z.mul_mod_distr_r by lia. lia.
Qed.

(** X8.  Parameter validation of [Initialize].  A thread count outside
    1..64, or a block size in MB that is a multiple of 4096 (0 included),
    makes [Initialize] return [false] after one error line, before any file
    is opened and with the handles as they were.  Every other pair of
    parameters passes the validation, negative block sizes that are not
    multiples of 4096 included: the next thing [Initialize] does is to open
    the source. *)
Theorem Initialize_validates_parameters (env : InitEnv) (src dst : string)
    (nT mb : Z) (w : World) :
  exists ok w',
    Initialize env src dst nT mb w = (ok, w') /\
    if params_valid nT mb then
      exists tl,
        events w' = events w ++ EvCreateFileW src (env_open_src env) :: tl
    else
      ok = false /\
      events w' =
        events w ++
        [EvLog LVL_ERROR
           (if (nT <=? 0) || (nT >? 64) then MsgInvalidThreads
            else MsgInvalidBlockSize)] /\
      m_hSrc (copier w') = m_hSrc (copier w) /\
      m_hDest (copier w') = m_hDest (copier w) /\
      m_cntxts (copier w') = m_cntxts (copier w).
Proof.
  pose proof (Z.mod_pos_bound mb 4096 ltac:(lia)) as Hlow.
  pose proof (block_bytes_low_bits mb) as Hbb.
  unfold params_valid.
  unfold Initialize. run_b.
  destruct (Z.leb_spec nT 0) as [Hlo | Hlo]; run_b.
  { destruct (Z.leb_spec 1 nT) as [? | _]; [lia |]. cbn [andb].
    do 2 eexists. split; [reflexivity |]. cbn. repeat split; reflexivity. }
  destruct (Z.gtb_spec nT 64) as [Hhi | Hhi]; run_b.
  { destruct (Z.leb_spec nT 64) as [? | _]; [lia |].
    rewrite andb_false_r. cbn [andb].
    do 2 eexists. split; [reflexivity |]. cbn. repeat split; reflexivity. }
  destruct (Z.leb_spec 1 nT) as [_ | ?]; [| lia].
  destruct (Z.leb_spec nT 64) as [_ | ?]; [| lia]. cbn [andb].
  destruct (Z.leb_spec (block_bytes mb) 0) as [Hbs | Hbs]; run_b.
  { destruct (Z.eqb_spec (mb mod 4096) 0) as [_ | ?]; [| lia]. cbn [negb].
    do 2 eexists. split; [reflexivity |]. cbn. repeat split; reflexivity. }
  destruct (Z.eqb_spec (mb mod 4096) 0) as [? | _]; [lia |]. cbn [negb].
  destruct (env_open_src env =? INVALID_HANDLE_VALUE); run_b.
  { do 2 eexists. split; [reflexivity |]. cbn. rewrite <- app_assoc.
    eexists. reflexivity. }
  destruct (env_open_dest env =? INVALID_HANDLE_VALUE); run_b.
  { do 2 eexists. split; [reflexivity |]. cbn. rewrite <- !app_assoc.
    eexists. reflexivity. }
  destruct (env_srcSize env =? 0); run_b.
  { do 2 eexists. split; [reflexivity |]. cbn. rewrite <- !app_assoc.
    eexists. reflexivity. }
  destruct (env_destSize env =? 0); run_b.
  { do 2 eexists. split; [reflexivity |]. cbn. rewrite <- !app_assoc.
    eexists. reflexivity. }
  destruct (env_destSize env <? env_srcSize env); run_b.
  { do 2 eexists. split; [reflexivity |]. cbn. rewrite <- !app_assoc.
    eexists. reflexivity. }
  assert (Hctx : forall n i wz hd,
            events wz = events w ++ EvCreateFileW src (env_open_src env) :: hd ->
            exists ok w',
              make_contexts env n i wz = (ok, w') /\
              exists tl,
                events w' =
                  events w ++ EvCreateFileW src (env_open_src env) :: tl).
  { intros n i wz hd Hwz.
    destruct (make_contexts_quiet env n i wz)
      as (ok & w' & es & Heq & Hev & _).
    exists ok, w'. split; [exact Heq |].
    exists (hd ++ es). rewrite Hev, Hwz, <- app_assoc. reflexivity. }
  destruct (env_sectorSize env =? 0); run_b.
  - destruct (env_proceed_choice env =? 0); run_b.
    { do 2 eexists. split; [reflexivity |]. cbn. rewrite <- !app_assoc.
      eexists. reflexivity. }
    destruct (negb (block_bytes mb mod 4096 =? 0)); run_b.
    { do 2 eexists. split; [reflexivity |]. cbn. rewrite <- !app_assoc.
      eexists. reflexivity. }
    eapply Hctx. cbn. rewrite <- !app_assoc. reflexivity.
  - destruct (negb (block_bytes mb mod env_sectorSize env =? 0)); run_b.
    { do 2 eexists. split; [reflexivity |]. cbn. rewrite <- !app_assoc.
      eexists. reflexivity. }
    eapply Hctx. cbn. rewrite <- !app_assoc. reflexivity.
Qed.

(** The context loop when the allocation at index [i + j] is the first one
    to fail. *)
Lemma make_contexts_stops (env : InitEnv) (j : nat) :
  forall (n i : nat) (w : World),
  (j < n)%nat ->
  (forall k, (i <= k < i + j)%nat ->
     env_VirtualAlloc env k <> 0 /\
     env_VirtualAlloc env k mod m_destSectorSize (copier w) = 0) ->
  env_VirtualAlloc env (i + j) = 0 \/
  env_VirtualAlloc env (i + j) mod m_destSectorSize (copier w) <> 0 ->
  make_contexts env n i w =
  (false,
   mkWorld
     (set_cntxts
        (m_cntxts (copier w)
         ++ map (context_at env (m_blockSize (copier w))) (seq i j))
        (copier w))
     (events w ++
      (if env_VirtualAlloc env (i + j) =? 0
       then [EvLog LVL_ERROR MsgContextBufferAllocFailed;
             EvLog LVL_ERROR MsgBufferAllocFailed]
       else [EvLog LVL_ERROR MsgBufferMisaligned;
             EvCloseHandle (m_hSrc (copier w));
             EvCloseHandle (m_hDest (copier w))]))).
Proof.
  induction j as [| j IH]; intros n i w Hj Hall Hbad.
  - destruct n as [| n]; [lia |].
    rewrite Nat.add_0_r in *.
    cbn [make_contexts]. run_b. cbn [buf IOContext_new set_curInst seq map].
    rewrite app_nil_r.
    destruct (Z.eqb_spec (env_VirtualAlloc env i) 0) as [Hz | Hnz]; run_b.
    + rewrite <- app_assoc. destruct w as [[] ev]. reflexivity.
    + destruct Hbad as [? | Hbad]; [contradiction |].
      destruct (Z.eqb_spec
                  (env_VirtualAlloc env i mod m_destSectorSize (copier w)) 0)
        as [? | _]; [contradiction |]. run_b.
      rewrite <- !app_assoc. destruct w as [[] ev]. reflexivity.
  - destruct n as [| n]; [lia |].
    destruct (Hall i ltac:(lia)) as [Hnz Hal].
    cbn [make_contexts]. run_b. cbn [buf IOContext_new set_curInst].
    destruct (Z.eqb_spec (env_VirtualAlloc env i) 0) as [? | _];
      [contradiction |]. run_b.
    rewrite Hal. change (0 =? 0) with true. run_b.
    rewrite (IH n (S i)).
    + cbn. rewrite <- app_assoc, Nat.add_succ_r. reflexivity.
    + lia.
    + intros k Hk. cbn. apply Hall. lia.
    + cbn. rewrite <- Nat.add_succ_r. exact Hbad.
Qed.

Ltac close_alloc_failure Hs Hd :=
  split; [reflexivity |];
  cbn [copier events m_hSrc m_hDest m_cntxts set_cntxts app];
  rewrite <- ?app_assoc, length_map, length_seq;
  split; [reflexivity |];
  split; [repeat constructor; eexists; reflexivity |];
  split; [reflexivity |]; split; [reflexivity |]; split; [reflexivity |];
  intros Hj0; unfold initialized; cbn;
  split; [exact Hs |]; split; [exact Hd |];
  match goal with
  | |- map _ (seq _ ?j) <> [] => destruct j; [contradiction | discriminate]
  end.

(** X9.  Failure in the context loop of [Initialize].  When every earlier
    check passes and the buffer of context [j] is the first that is null or
    misaligned, [Initialize] returns [false] and keeps the [j] contexts
    built so far and both handles in the copier.  After a null allocation
    it returns without closing the handles; after a misaligned one it
    closes both.  In both cases, as soon as [j > 0] the copier passes the
    initialisation check that [StartCopy] makes, although [Initialize]
    failed. *)
Theorem Initialize_allocation_failure (env : InitEnv) (src dst : string)
    (nT mb : Z) (j : nat) (w : World) :
  checks_before_allocation env nT mb ->
  (j < Z.to_nat nT)%nat ->
  (forall k, (k < j)%nat -> buffer_ok env k) ->
  ~ buffer_ok env j ->
  exists w' logs,
    Initialize env src dst nT mb w = (false, w') /\
    events w' =
      events w ++
      [EvCreateFileW src (env_open_src env);
       EvCreateFileW dst (env_open_dest env)] ++
      logs ++
      (if env_VirtualAlloc env j =? 0 then []
       else [EvCloseHandle (env_open_src env);
             EvCloseHandle (env_open_dest env)]) /\
    Forall (fun e => exists m, e = EvLog LVL_ERROR m) logs /\
    m_hSrc (copier w') = env_open_src env /\
    m_hDest (copier w') = env_open_dest env /\
    length (m_cntxts (copier w')) = j /\
    (j <> 0%nat -> initialized (copier w')).
Proof.
  intros (HnT & Hbs & Hs & Hd & Hsz & Hdz & Hcap & Hpro & Hmod) Hj Hgood Hbad.
  assert (Hbs' : 0 <= block_bytes mb).
  { unfold block_bytes, to_DWORD. apply Z.mod_pos_bound. lia. }
  assert (Hbad' : env_VirtualAlloc env j = 0 \/
                  env_VirtualAlloc env j mod settled_sector env <> 0).
  { unfold buffer_ok in Hbad.
    destruct (Z.eq_dec (env_VirtualAlloc env j) 0) as [? | Hnz];
      [left; assumption |].
    right. intros Hal. apply Hbad. split; assumption. }
  unfold buffer_ok in Hgood. unfold settled_sector in *.
  unfold Initialize. run_b.
  destruct (Z.leb_spec nT 0) as [? | _]; [lia |].
  destruct (Z.gtb_spec nT 64) as [? | _]; [lia |]. run_b.
  destruct (Z.leb_spec (block_bytes mb) 0) as [? | _]; [lia |]. run_b.
  destruct (Z.eqb_spec (env_open_src env) INVALID_HANDLE_VALUE) as [? | _];
    [contradiction |]. run_b.
  destruct (Z.eqb_spec (env_open_dest env) INVALID_HANDLE_VALUE) as [? | _];
    [contradiction |]. run_b.
  destruct (Z.eqb_spec (env_srcSize env) 0) as [? | _]; [contradiction |]. run_b.
  destruct (Z.eqb_spec (env_destSize env) 0) as [? | _]; [contradiction |]. run_b.
  destruct (Z.ltb_spec (env_destSize env) (env_srcSize env)) as [? | _];
    [lia |]. run_b.
  destruct (Z.eqb_spec (env_sectorSize env) 0) as [Hz | Hnz]; run_b.
  - destruct (Z.eqb_spec (env_proceed_choice env) 0) as [? | _];
      [apply Hpro in Hz; contradiction |]. run_b.
    rewrite Hmod. change (0 =? 0) with true. run_b.
    rewrite (make_contexts_stops env j);
      [| exact Hj | intros k Hk; cbn; apply Hgood; lia | cbn; exact Hbad'].
    cbn [Nat.add copier events m_destSectorSize m_hSrc m_hDest m_blockSize
         m_cntxts set_cntxts set_destSectorSize].
    destruct (env_VirtualAlloc env j =? 0).
    + eexists. eexists [_; _; _]. close_alloc_failure Hs Hd.
    + eexists. eexists [_; _]. close_alloc_failure Hs Hd.
  - rewrite Hmod. change (0 =? 0) with true. run_b.
    rewrite (make_contexts_stops env j);
      [| exact Hj | intros k Hk; cbn; apply Hgood; lia | cbn; exact Hbad'].
    cbn [Nat.add copier events m_destSectorSize m_hSrc m_hDest m_blockSize
         m_cntxts set_cntxts set_destSectorSize].
    destruct (env_VirtualAlloc env j =? 0).
    + eexists. eexists [_; _]. close_alloc_failure Hs Hd.
    + eexists. eexists [_]. close_alloc_failure Hs Hd.
Qed.

Lemma Initialize_allocation_failure_witness :
  exists w' logs,
    Initialize (ex_alloc_env 0) "src" "dst" 2 1 World_new = (false, w') /\
    events w' =
      events World_new ++
      [EvCreateFileW "src" (env_open_src (ex_alloc_env 0));
       EvCreateFileW "dst" (env_open_dest (ex_alloc_env 0))] ++
      logs ++
      (if env_VirtualAlloc (ex_alloc_env 0) 1 =? 0 then []
       else [EvCloseHandle (env_open_src (ex_alloc_env 0));
             EvCloseHandle (env_open_dest (ex_alloc_env 0))]) /\
    Forall (fun e => exists m, e = EvLog LVL_ERROR m) logs /\
    m_hSrc (copier w') = env_open_src (ex_alloc_env 0) /\
    m_hDest (copier w') = env_open_dest (ex_alloc_env 0) /\
    length (m_cntxts (copier w')) = 1%nat /\
    (1%nat <> 0%nat -> initialized (copier w')).
Proof.
  apply (Initialize_allocation_failure (ex_alloc_env 0) "src" "dst" 2 1 1
           World_new).
  - unfold checks_before_allocation. cbn.
    repeat split; try discriminate; lia.
  - cbn. lia.
  - intros k Hk. assert (k = 0%nat) as -> by lia.
    unfold buffer_ok. cbn. split; [discriminate | reflexivity].
  - unfold buffer_ok. cbn. intros [H _]. apply H. reflexivity.
Defined.

(** X10.  The sector-size prompt of [Initialize].  When the sector size of
    the destination cannot be determined and every earlier check passes,
    the answer at the prompt decides.  With the answer 0, [Initialize]
    closes both handles and returns [false], leaving the contexts as they
    were.  With any other answer it goes on with a sector size of 4096,
    and then the block size check cannot fail, whatever block size was
    asked for: with buffers aligned to 4096 bytes [Initialize] returns
    [true] with one context per thread. *)
Theorem sector_prompt (env : InitEnv) (src dst : string) (nT mb : Z)
    (w : World) :
  params_valid nT mb = true ->
  env_open_src env <> INVALID_HANDLE_VALUE ->
  env_open_dest env <> INVALID_HANDLE_VALUE ->
  env_srcSize env <> 0 -> env_destSize env <> 0 ->
  env_srcSize env <= env_destSize env ->
  env_sectorSize env = 0 ->
  (forall i, env_VirtualAlloc env i <> 0 /\ env_VirtualAlloc env i mod 4096 = 0) ->
  exists w',
    Initialize env src dst nT mb w = (negb (env_proceed_choice env =? 0), w') /\
    events w' =
      events w ++
      [EvCreateFileW src (env_open_src env);
       EvCreateFileW dst (env_open_dest env);
       EvLog LVL_ERROR MsgSectorSizeFailed] ++
      (if env_proceed_choice env =? 0
       then [EvCloseHandle (env_open_src env);
             EvCloseHandle (env_open_dest env)]
       else []) /\
    if env_proceed_choice env =? 0
    then m_cntxts (copier w') = m_cntxts (copier w)
    else m_destSectorSize (copier w') = 4096 /\
         length (m_cntxts (copier w')) = Z.to_nat nT.
Proof.
  intros Hpar Hs Hd Hsz Hdz Hcap Hsec Halloc.
  unfold params_valid in Hpar.
  apply andb_prop in Hpar. destruct Hpar as [Hpar Hmb].
  apply andb_prop in Hpar. destruct Hpar as [Hlo Hhi].
  apply Z.leb_le in Hlo. apply Z.leb_le in Hhi.
  apply negb_true_iff, Z.eqb_neq in Hmb.
  pose proof (Z.mod_pos_bound mb 4096 ltac:(lia)) as Hlow.
  pose proof (block_bytes_low_bits mb) as Hbb.
  destruct (Z.eqb_spec (env_proceed_choice env) 0) as [Hc | Hc]; cbn [negb].
  - unfold Initialize. run_b.
    destruct (Z.leb_spec nT 0) as [? | _]; [lia |].
    destruct (Z.gtb_spec nT 64) as [? | _]; [lia |]. run_b.
    destruct (Z.leb_spec (block_bytes mb) 0) as [? | _]; [lia |]. run_b.
    destruct (Z.eqb_spec (env_open_src env) INVALID_HANDLE_VALUE) as [? | _];
      [contradiction |]. run_b.
    destruct (Z.eqb_spec (env_open_dest env) INVALID_HANDLE_VALUE) as [? | _];
      [contradiction |]. run_b.
    destruct (Z.eqb_spec (env_srcSize env) 0) as [? | _]; [contradiction |].
    run_b.
    destruct (Z.eqb_spec (env_destSize env) 0) as [? | _]; [contradiction |].
    run_b.
    destruct (Z.ltb_spec (env_destSize env) (env_srcSize env)) as [? | _];
      [lia |]. run_b.
    rewrite Hsec. change (0 =? 0) with true. run_b.
    rewrite Hc. change (0 =? 0) with true. run_b.
    eexists. split; [reflexivity |]. cbn. rewrite <- !app_assoc.
    split; reflexivity.
  - assert (Hset : settled_sector env = 4096)
      by (unfold settled_sector; rewrite Hsec; reflexivity).
    destruct (Initialize_run_ok env src dst nT mb w)
      as (w' & Heq & Hcs & Hev & _ & Hsect & _); [| exact Hcap |].
    { unfold other_checks_pass. rewrite Hset.
      repeat split; try solve [assumption | lia | apply Halloc].
      rewrite Hbb. replace (2 ^ 20 * (mb mod 4096))
        with ((mb mod 4096) * 256 * 4096) by lia.
      apply Z.mod_mul. lia. }
    exists w'. split; [exact Heq |].
    rewrite Hev, Hsec, Hsect, Hset, Hcs, length_map, length_seq.
    change (0 =? 0) with true. rewrite app_nil_r.
    repeat split; reflexivity.
Qed.

Lemma sector_prompt_witness :
  let env := mkInitEnv 8 9 1048576 1048576 0 0 (fun _ => 65536) in
  exists w',
    Initialize env "src" "dst" 2 1 World_new
    = (negb (env_proceed_choice env =? 0), w') /\
    events w' =
      events World_new ++
      [EvCreateFileW "src" (env_open_src env);
       EvCreateFileW "dst" (env_open_dest env);
       EvLog LVL_ERROR MsgSectorSizeFailed] ++
      (if env_proceed_choice env =? 0
       then [EvCloseHandle (env_open_src env);
             EvCloseHandle (env_open_dest env)]
       else []) /\
    if env_proceed_choice env =? 0
    then m_cntxts (copier w') = m_cntxts (copier World_new)
    else m_destSectorSize (copier w') = 4096 /\
         length (m_cntxts (copier w')) = Z.to_nat 2.
Proof.
  intros env.
  apply (sector_prompt env "src" "dst" 2 1 World_new).
  - reflexivity.
  - discriminate.
  - discriminate.
  - discriminate.
  - discriminate.
  - cbn. lia.
  - reflexivity.
  - intros i. cbn. split; [discriminate | reflexivity].
Defined.

(* ===================================================================== *)
(** ** StartCopy and the destructor *)
(* ===================================================================== *)

(** The join loop when every worker returns. *)
Lemma join_workers_all (env : CopyEnv) (n : nat) :
  forall (i : nat) (w : World),
  forallb (env_worker_returns env) (seq i n) = true ->
  join_workers env (launched env i n) i w
  = ((true, joined env i n),
     mkWorld (copier w) (events w ++ map EvJoin (seq i n))).
Proof.
  unfold launched, joined.
  induction n as [| n IH]; intros i w Hall.
  - cbn. rewrite app_nil_r, World_eta. reflexivity.
  - cbn [seq forallb] in Hall. apply andb_prop in Hall.
    destruct Hall as [Hi Hrest].
    cbn [seq map join_workers joinable native_handle]. run_b.
    rewrite Hi. run_b. rewrite (IH (S i) _ Hrest). cbn.
    rewrite <- app_assoc. reflexivity.
Qed.

(** The join loop on workers that are not joinable does nothing. *)
Lemma join_workers_idle (env : CopyEnv) (ts : list Worker) :
  forall (i : nat) (w : World),
  forallb (fun t => negb (joinable t)) ts = true ->
  join_workers env ts i w = ((true, ts), w).
Proof.
  induction ts as [| t ts IH]; intros i w Hall; [reflexivity |].
  cbn [forallb] in Hall. apply andb_prop in Hall. destruct Hall as [Ht Hrest].
  apply negb_true_iff in Ht.
  cbn [join_workers]. rewrite Ht. run_b. rewrite (IH _ _ Hrest). reflexivity.
Qed.

Lemma joined_idle (env : CopyEnv) (i n : nat) :
  forallb (fun t => negb (joinable t)) (joined env i n) = true.
Proof.
  unfold joined. apply forallb_forall. intros t Hin.
  apply in_map_iff in Hin. destruct Hin as (k & <- & _). reflexivity.
Qed.

(** The wake-up loop changes nothing in the copier and closes no handle. *)
Lemma wake_workers_closes (env : CopyEnv) (ts : list Worker) :
  forall (i : nat) (w : World),
  exists es,
    wake_workers env ts i w = (tt, mkWorld (copier w) (events w ++ es)) /\
    closes es = [] /\ existsb starts_work es = false.
Proof.
  induction ts as [| t ts IH]; intros i w.
  - exists []. cbn. rewrite app_nil_r, World_eta. repeat split; reflexivity.
  - cbn [wake_workers]. run_b.
    destruct (joinable t && negb (native_handle t =? INVALID_HANDLE_VALUE));
      run_b.
    + destruct (env_QueueUserAPC env i) as [| e]; run_b.
      * match goal with
        | |- context [wake_workers env _ (S i) ?wz] =>
          destruct (IH (S i) wz) as (es & Heq & Hc & Hs)
        end.
        exists (EvQueueUserAPC i :: es). rewrite Heq. cbn.
        rewrite <- app_assoc. repeat split; assumption.
      * destruct (negb (e =? ERROR_GEN_FAILURE)); run_b;
          match goal with
          | |- context [wake_workers env _ (S i) ?wz] =>
            destruct (IH (S i) wz) as (es & Heq & Hc & Hs)
          end.
        -- exists (EvQueueUserAPC i :: EvLog LVL_ERROR MsgQueueApcFailed :: es).
           rewrite Heq. cbn. rewrite <- !app_assoc. repeat split; assumption.
        -- exists (EvQueueUserAPC i :: es). rewrite Heq. cbn.
           rewrite <- app_assoc. repeat split; assumption.
    + destruct (IH (S i) w) as (es & Heq & Hc & Hs).
      exists es. rewrite Heq. repeat split; assumption.
Qed.

Lemma closes_app (es es' : list Event) :
  closes (es ++ es') = closes es ++ closes es'.
Proof. apply filter_app. Qed.

Lemma closes_map_start (l : list nat) : closes (map EvThreadStart l) = [].
Proof. induction l; [reflexivity | assumption]. Qed.

Lemma closes_map_join (l : list nat) : closes (map EvJoin l) = [].
Proof. induction l; [reflexivity | assumption]. Qed.

(** [StartCopy] when the monitoring loop is left and every worker returns:
    what is left in the copier, and that no handle is closed. *)
Lemma StartCopy_returns (env : CopyEnv) (w : World) :
  initialized (copier w) -> monitor_exits (env_polls env) = true ->
  workers_return env (Z.to_nat (m_numOfThreads (copier w))) = true ->
  exists w' es,
    StartCopy env w
    = (Some (negb (m_errOccurred (env_at_joined env)
                   || negb (env_FlushFileBuffers env))), w') /\
    events w' = events w ++ es /\ closes es = [] /\
    In (EvFlushFileBuffers (m_hDest (copier w))) es /\
    m_hSrc (copier w') = m_hSrc (copier w) /\
    m_hDest (copier w') = m_hDest (copier w) /\
    m_cntxts (copier w') = m_cntxts (copier w) /\
    m_workerThreads (copier w')
    = joined env 0 (Z.to_nat (m_numOfThreads (copier w))).
Proof.
  intros (Hsrc & Hdst & Hctx) Hexit Hret.
  unfold workers_return in Hret.
  unfold StartCopy. run_b.
  destruct (Z.eqb_spec (m_hSrc (copier w)) INVALID_HANDLE_VALUE) as [? | _];
    [contradiction |].
  destruct (Z.eqb_spec (m_hDest (copier w)) INVALID_HANDLE_VALUE) as [? | _];
    [contradiction |].
  destruct (m_cntxts (copier w)) as [| c0 cs] eqn:Hcs; [contradiction |].
  cbn [is_empty]. run_b.
  rewrite launch_workers_run. cbn [app]. run_b.
  rewrite monitor_run, Hexit. run_b. cbn [app].
  set (N := Z.to_nat (m_numOfThreads (copier w))) in *.
  assert (Hwake :
    forall wz : World,
    exists es,
      (if negb (m_errOccurred (env_at_wakeup env))
       then wake_workers env (launched env 0 N) 0
       else fun w0 : World => (tt, w0)) wz
      = (tt, mkWorld (copier wz) (events wz ++ es)) /\ closes es = []).
  { intros wz. destruct (m_errOccurred (env_at_wakeup env)); cbn [negb].
    - exists []. rewrite app_nil_r, World_eta. split; reflexivity.
    - destruct (wake_workers_closes env (launched env 0 N) 0 wz)
        as (es & Heq & Hc & _).
      exists es. split; assumption. }
  match goal with
  | |- context [(if negb (m_errOccurred (env_at_wakeup env)) then _ else _) ?wz] =>
    destruct (Hwake wz) as (wake & Heqw & Hw)
  end.
  rewrite Heqw. clear Heqw Hwake. run_b.
  rewrite (join_workers_all env N 0 _ Hret). run_b.
  destruct (env_FlushFileBuffers env); run_b.
  - rewrite orb_false_r.
    destruct (m_errOccurred (env_at_joined env)); run_b;
      (do 2 eexists; split; [reflexivity |]; cbn;
       rewrite <- ?app_assoc; split; [reflexivity |];
       rewrite !closes_app, closes_map_start, closes_map_join, Hw;
       (split; [reflexivity |]);
       (split; [do 3 (apply in_or_app; right); left; reflexivity |]);
       repeat split; solve [reflexivity | exact Hcs]).
  - rewrite orb_true_r.
    do 2 eexists. split; [reflexivity |]. cbn.
    rewrite <- ?app_assoc. split; [reflexivity |].
    rewrite !closes_app, closes_map_start, closes_map_join, Hw.
    split; [reflexivity |].
    split; [do 3 (apply in_or_app; right); left; reflexivity |].
    repeat split; solve [reflexivity | exact Hcs].
Qed.

(** The destructor when no worker is joinable: it closes the handles that
    are not invalid, and invalidates them. *)
Lemma BlockCopier_destroy_run (env : CopyEnv) (w : World) :
  forallb (fun t => negb (joinable t)) (m_workerThreads (copier w)) = true ->
  exists w',
    BlockCopier_destroy env w = (true, w') /\
    events w' =
      events w ++
      (if m_hSrc (copier w) =? INVALID_HANDLE_VALUE then []
       else [EvCloseHandle (m_hSrc (copier w))]) ++
      (if m_hDest (copier w) =? INVALID_HANDLE_VALUE then []
       else [EvCloseHandle (m_hDest (copier w))]) /\
    m_hSrc (copier w') = INVALID_HANDLE_VALUE /\
    m_hDest (copier w') = INVALID_HANDLE_VALUE /\
    m_cntxts (copier w') = m_cntxts (copier w) /\
    m_workerThreads (copier w') = m_workerThreads (copier w).
Proof.
  intros Hidle.
  unfold BlockCopier_destroy. run_b.
  rewrite (join_workers_idle env _ 0 w Hidle). run_b.
  destruct (Z.eqb_spec (m_hSrc (copier w)) INVALID_HANDLE_VALUE) as [Hs | Hs];
    run_b;
    destruct (Z.eqb_spec (m_hDest (copier w)) INVALID_HANDLE_VALUE) as [Hd | Hd];
    run_b;
    (eexists; split; [reflexivity |]; cbn;
     rewrite <- ?app_assoc, ?app_nil_r; repeat split; auto).
Qed.

(** The context loop closes nothing, or fails after closing both handles;
    it leaves the handles and the threads of the copier alone. *)
Lemma make_contexts_closes (env : InitEnv) (n : nat) :
  forall (i : nat) (w : World),
  exists ok w' es,
    make_contexts env n i w = (ok, w') /\
    events w' = events w ++ es /\
    m_hSrc (copier w') = m_hSrc (copier w) /\
    m_hDest (copier w') = m_hDest (copier w) /\
    m_workerThreads (copier w') = m_workerThreads (copier w) /\
    (closes es = [] \/
     ok = false /\
     closes es = [EvCloseHandle (m_hSrc (copier w));
                  EvCloseHandle (m_hDest (copier w))]).
Proof.
  induction n as [| n IH]; intros i w.
  - exists true, w, []. cbn. rewrite app_nil_r. repeat split; auto.
  - cbn [make_contexts]. run_m. cbn [buf IOContext_new set_curInst].
    destruct (env_VirtualAlloc env i =? 0); run_m.
    + do 3 eexists. split; [reflexivity |]. cbn [events copier].
      rewrite <- app_assoc. repeat split; auto.
    + destruct (negb (env_VirtualAlloc env i mod m_destSectorSize (copier w) =? 0));
        run_m.
      * do 3 eexists. split; [reflexivity |]. cbn [events copier].
        rewrite <- !app_assoc. repeat split; auto.
      * match goal with
        | |- context [make_contexts env n (S i) ?wz] =>
          destruct (IH (S i) wz)
            as (ok & w' & es & Heq & Hev & Hs & Hd & Hw & Hc)
        end.
        exists ok, w', es. rewrite Heq. cbn in Hev, Hs, Hd, Hw, Hc.
        repeat split; assumption.
Qed.

(** What [Initialize] closes: nothing; or, failing, the source handle when
    the destination cannot be opened; or, failing, both handles.  When it
    closes a handle it leaves it in the copier. *)
Lemma Initialize_closes (env : InitEnv) (src dst : string) (nT mb : Z)
    (w : World) :
  exists ok w' es,
    Initialize env src dst nT mb w = (ok, w') /\
    events w' = events w ++ es /\
    m_workerThreads (copier w') = m_workerThreads (copier w) /\
    (closes es = [] \/
     (ok = false /\
      closes es = [EvCloseHandle (env_open_src env)] /\
      m_hSrc (copier w') = env_open_src env /\
      env_open_src env <> INVALID_HANDLE_VALUE /\
      m_hDest (copier w') = INVALID_HANDLE_VALUE) \/
     (ok = false /\
      closes es = [EvCloseHandle (env_open_src env);
                   EvCloseHandle (env_open_dest env)] /\
      m_hSrc (copier w') = env_open_src env /\
      env_open_src env <> INVALID_HANDLE_VALUE /\
      m_hDest (copier w') = env_open_dest env /\
      env_open_dest env <> INVALID_HANDLE_VALUE)).
Proof.
  unfold Initialize. run_b.
  destruct (Z.leb_spec nT 0) as [Hlo | Hlo]; run_b.
  { do 3 eexists. split; [reflexivity |]. cbn. repeat split; auto. }
  destruct (Z.gtb_spec nT 64) as [Hhi | Hhi]; run_b.
  { do 3 eexists. split; [reflexivity |]. cbn. repeat split; auto. }
  destruct (Z.leb_spec (block_bytes mb) 0) as [Hbs | Hbs]; run_b.
  { do 3 eexists. split; [reflexivity |]. cbn. repeat split; auto. }
  destruct (Z.eqb_spec (env_open_src env) INVALID_HANDLE_VALUE) as [Hs | Hs];
    run_b.
  { do 3 eexists. split; [reflexivity |]. cbn. rewrite <- !app_assoc.
    repeat split; auto. }
  destruct (Z.eqb_spec (env_open_dest env) INVALID_HANDLE_VALUE) as [Hd | Hd];
    run_b.
  { do 3 eexists. split; [reflexivity |]. cbn. rewrite <- !app_assoc.
    split; [reflexivity |]. split; [reflexivity |].
    right. left. repeat split; auto. }
  assert (Hboth : forall (wz : World) (es : list Event),
            events wz = events w ++ es ->
            closes es = [EvCloseHandle (env_open_src env);
                         EvCloseHandle (env_open_dest env)] ->
            m_workerThreads (copier wz) = m_workerThreads (copier w) ->
            m_hSrc (copier wz) = env_open_src env ->
            m_hDest (copier wz) = env_open_dest env ->
            exists ok w' es,
              (false, wz) = (ok, w') /\
              events w' = events w ++ es /\
              m_workerThreads (copier w') = m_workerThreads (copier w) /\
              (closes es = [] \/
               (ok = false /\
                closes es = [EvCloseHandle (env_open_src env)] /\
                m_hSrc (copier w') = env_open_src env /\
                env_open_src env <> INVALID_HANDLE_VALUE /\
                m_hDest (copier w') = INVALID_HANDLE_VALUE) \/
               (ok = false /\
                closes es = [EvCloseHandle (env_open_src env);
                             EvCloseHandle (env_open_dest env)] /\
                m_hSrc (copier w') = env_open_src env /\
                env_open_src env <> INVALID_HANDLE_VALUE /\
                m_hDest (copier w') = env_open_dest env /\
                env_open_dest env <> INVALID_HANDLE_VALUE))).
  { intros wz es Hev Hc Hw Hs' Hd'. exists false, wz, es.
    split; [reflexivity |]. split; [exact Hev |]. split; [exact Hw |].
    right. right. repeat split; assumption. }
  assert (Hloop : forall (n i : nat) (wz : World) (hd : list Event),
            events wz = events w ++ hd -> closes hd = [] ->
            m_workerThreads (copier wz) = m_workerThreads (copier w) ->
            m_hSrc (copier wz) = env_open_src env ->
            m_hDest (copier wz) = env_open_dest env ->
            exists ok w' es,
              make_contexts env n i wz = (ok, w') /\
              events w' = events w ++ es /\
              m_workerThreads (copier w') = m_workerThreads (copier w) /\
              (closes es = [] \/
               (ok = false /\
                closes es = [EvCloseHandle (env_open_src env)] /\
                m_hSrc (copier w') = env_open_src env /\
                env_open_src env <> INVALID_HANDLE_VALUE /\
                m_hDest (copier w') = INVALID_HANDLE_VALUE) \/
               (ok = false /\
                closes es = [EvCloseHandle (env_open_src env);
                             EvCloseHandle (env_open_dest env)] /\
                m_hSrc (copier w') = env_open_src env /\
                env_open_src env <> INVALID_HANDLE_VALUE /\
                m_hDest (copier w') = env_open_dest env /\
                env_open_dest env <> INVALID_HANDLE_VALUE))).
  { intros n i wz hd Hev Hc Hw Hs' Hd'.
    destruct (make_contexts_closes env n i wz)
      as (ok & w' & es & Heq & Hev' & Hs2 & Hd2 & Hw2 & Hcl).
    exists ok, w', (hd ++ es). split; [exact Heq |].
    split; [rewrite Hev', Hev, <- app_assoc; reflexivity |].
    split; [congruence |].
    rewrite closes_app, Hc. cbn [app].
    destruct Hcl as [Hnone | [Hok Hcl]].
    - left. exact Hnone.
    - right. right. rewrite Hs', Hd' in Hcl.
      repeat split; try assumption; congruence. }
  destruct (Z.eqb_spec (env_srcSize env) 0) as [Hsz | Hsz]; run_b.
  { eapply Hboth; cbn; rewrite <- ?app_assoc; reflexivity. }
  destruct (Z.eqb_spec (env_destSize env) 0) as [Hdz | Hdz]; run_b.
  { eapply Hboth; cbn; rewrite <- ?app_assoc; reflexivity. }
  destruct (Z.ltb_spec (env_destSize env) (env_srcSize env)) as [Hcap | Hcap];
    run_b.
  { eapply Hboth; cbn; rewrite <- ?app_assoc; reflexivity. }
  destruct (env_sectorSize env =? 0); run_b.
  - destruct (env_proceed_choice env =? 0); run_b.
    { eapply Hboth; cbn; rewrite <- ?app_assoc; reflexivity. }
    destruct (negb (block_bytes mb mod 4096 =? 0)); run_b.
    { eapply Hboth; cbn; rewrite <- ?app_assoc; reflexivity. }
    eapply Hloop; cbn; rewrite <- ?app_assoc; reflexivity.
  - destruct (negb (block_bytes mb mod env_sectorSize env =? 0)); run_b.
    { eapply Hboth; cbn; rewrite <- ?app_assoc; reflexivity. }
    eapply Hloop; cbn; rewrite <- ?app_assoc; reflexivity.
Qed.

(** X11.  Handles closed twice.  [Initialize] closes handles on its failure
    paths without invalidating them in the copier, and the destructor of
    the copier closes every handle that is not invalid.  So in a run of
    [wmain] in which [Initialize] fails after closing a handle, the exit
    code is 1 and every [CloseHandle] call of [Initialize] is made a second
    time by the destructor, on the same handle; the source handle is among
    them. *)
Theorem failed_Initialize_closes_twice (cli : CliEnv) (ienv : InitEnv)
    (cenv : CopyEnv) (argv : list string) (nT mb : Z) (w1 : World) :
  parse_args (cli_wtoi cli) argv = Some (nT, mb) ->
  cli_proceed cli = true ->
  Initialize ienv (nth 1 argv EmptyString) (nth 2 argv EmptyString) nT mb
    World_new = (false, w1) ->
  closes (events w1) <> [] ->
  exists w2,
    wmain_entry cli ienv cenv argv World_new = (Some 1, w2) /\
    closes (events w2) = closes (events w1) ++ closes (events w1) /\
    In (EvCloseHandle (env_open_src ienv)) (closes (events w1)).
Proof.
  intros Hargs Hgo Hinit Hclosed.
  destruct (Initialize_closes ienv (nth 1 argv EmptyString)
              (nth 2 argv EmptyString) nT mb World_new)
    as (ok & w' & es & Heq & Hev & Hw & Hcases).
  rewrite Hinit in Heq. injection Heq as <- <-.
  cbn in Hev, Hw. rewrite Hev in Hclosed.
  unfold wmain_entry. rewrite Hargs, Hgo. cbn [negb].
  unfold wmain. run_b. rewrite Hinit. run_b.
  match goal with
  | |- context [BlockCopier_destroy cenv ?wz] =>
    destruct (BlockCopier_destroy_run cenv wz) as (w2 & Hd & Hev2 & _)
  end.
  { cbn. rewrite Hw. reflexivity. }
  rewrite Hd. cbn in Hev2. exists w2. split; [reflexivity |].
  rewrite Hev2, Hev, !closes_app.
  destruct Hcases as [Hnone | [(_ & Hc & Hs & Hsv & Hdi) | (_ & Hc & Hs & Hsv & Hdd & Hdv)]].
  - contradiction.
  - rewrite Hs, Hdi, Hc.
    destruct (Z.eqb_spec (env_open_src ienv) INVALID_HANDLE_VALUE) as [? | _];
      [contradiction |].
    cbn. split; [reflexivity | left; reflexivity].
  - rewrite Hs, Hdd, Hc.
    destruct (Z.eqb_spec (env_open_src ienv) INVALID_HANDLE_VALUE) as [? | _];
      [contradiction |].
    destruct (Z.eqb_spec (env_open_dest ienv) INVALID_HANDLE_VALUE) as [? | _];
      [contradiction |].
    cbn. split; [reflexivity | left; reflexivity].
Qed.

Lemma failed_Initialize_closes_twice_witness :
  let ienv := ex_init_env 0 1048576 in
  let cenv := ex_copy_env 1 ex_drained true in
  let w1 := snd (Initialize ienv "src" "dst" 4 1 World_new) in
  exists w2,
    wmain_entry ex_cli ienv cenv ex_argv World_new = (Some 1, w2) /\
    closes (events w2) = closes (events w1) ++ closes (events w1) /\
    In (EvCloseHandle (env_open_src ienv)) (closes (events w1)).
Proof.
  intros ienv cenv w1.
  apply (failed_Initialize_closes_twice ex_cli ienv cenv ex_argv 4 1 w1).
  - reflexivity.
  - reflexivity.
  - vm_compute. reflexivity.
  - vm_compute. discriminate.
Defined.

(** X12.  Handles in a complete run.  When [Initialize] succeeds, the
    monitoring loop is left and every worker returns, [wmain] exits with 0
    when no error is set after the join and the flush succeeds, and with 1
    otherwise.  In both cases the destination is flushed, no handle is
    closed before the destructor runs, and the destructor closes the source
    and then the destination, each exactly once, as the last two calls of
    the run. *)
Theorem complete_run_closes_once (cli : CliEnv) (ienv : InitEnv)
    (cenv : CopyEnv) (argv : list string) (nT mb : Z) :
  parse_args (cli_wtoi cli) argv = Some (nT, mb) ->
  cli_proceed cli = true ->
  other_checks_pass ienv nT mb -> env_srcSize ienv <= env_destSize ienv ->
  monitor_exits (env_polls cenv) = true ->
  workers_return cenv (Z.to_nat nT) = true ->
  exists w2 es,
    wmain_entry cli ienv cenv argv World_new
    = (Some (if m_errOccurred (env_at_joined cenv)
                || negb (env_FlushFileBuffers cenv) then 1 else 0), w2) /\
    events w2 =
      es ++ [EvCloseHandle (env_open_src ienv);
             EvCloseHandle (env_open_dest ienv)] /\
    closes es = [] /\
    In (EvFlushFileBuffers (env_open_dest ienv)) es /\
    m_hSrc (copier w2) = INVALID_HANDLE_VALUE /\
    m_hDest (copier w2) = INVALID_HANDLE_VALUE.
Proof.
  intros Hargs Hgo Hok Hcap Hexit Hret.
  destruct (Initialize_run_ok ienv (nth 1 argv EmptyString)
              (nth 2 argv EmptyString) nT mb World_new Hok Hcap)
    as (w1 & Heq & Hcs & Hev & _ & _ & HnT & Hs & Hd & _ & _ & _ & _).
  destruct Hok as (HnT' & _ & Hsv & Hdv & _).
  assert (Hinit : initialized (copier w1)).
  { unfold initialized. rewrite Hs, Hd, Hcs.
    repeat split; try assumption.
    destruct (Z.to_nat nT) eqn:E; [lia | discriminate]. }
  rewrite <- HnT in Hret.
  destruct (StartCopy_returns cenv w1 Hinit Hexit Hret)
    as (w' & es & Hsc & Hev' & Hcl & Hfl & Hs' & Hd' & _ & Hth).
  unfold wmain_entry. rewrite Hargs, Hgo. cbn [negb].
  unfold wmain. run_b. rewrite Heq. run_b. rewrite Hsc.
  assert (Hc1 : closes (events w1) = []).
  { rewrite Hev. cbn. destruct (env_sectorSize ienv =? 0); reflexivity. }
  destruct (m_errOccurred (env_at_joined cenv)
            || negb (env_FlushFileBuffers cenv)); run_b;
    match goal with
    | |- context [BlockCopier_destroy cenv ?wz] =>
      destruct (BlockCopier_destroy_run cenv wz)
        as (w2 & Hdes & Hev2 & Hs2 & Hd2 & _);
        [cbn; rewrite Hth; apply joined_idle |]
    end;
    rewrite Hdes; cbn in Hev2; rewrite Hs', Hd', Hs, Hd in Hev2;
    (destruct (Z.eqb_spec (env_open_src ienv) INVALID_HANDLE_VALUE) as [? | _];
     [contradiction |]);
    (destruct (Z.eqb_spec (env_open_dest ienv) INVALID_HANDLE_VALUE) as [? | _];
     [contradiction |]);
    exists w2; eexists; (split; [reflexivity |]);
    (split; [exact Hev2 |]);
    rewrite Hev', ?closes_app, Hc1, Hcl;
    (split; [reflexivity |]);
    (split; [| split; assumption]);
    rewrite <- Hd, <- Hd' at 1; rewrite Hd' at 1;
    repeat (apply in_or_app; first [right; assumption | left]).
Qed.

(** The cooperative environment passes every check of [Initialize]. *)
Lemma ex_init_env_passes (size : Z) (nT : Z) :
  1 <= nT <= 64 -> size <> 0 ->
  other_checks_pass (ex_init_env size size) nT 1.
Proof.
  intros HnT Hsize. unfold other_checks_pass, settled_sector, ex_init_env.
  cbn [env_open_src env_open_dest env_srcSize env_destSize env_sectorSize
       env_proceed_choice env_VirtualAlloc].
  change (512 =? 0) with false. cbv iota.
  split; [exact HnT |]. split; [discriminate |]. split; [discriminate |].
  split; [discriminate |]. split; [exact Hsize |]. split; [exact Hsize |].
  split; [discriminate |]. split; [reflexivity |].
  intros i _. split; [lia |].
  replace (65536 * (Z.of_nat i + 1)) with ((Z.of_nat i + 1) * 128 * 512) by lia.
  apply Z.mod_mul. lia.
Qed.

Lemma complete_run_closes_once_witness :
  let ienv := ex_init_env 1048576 1048576 in
  let cenv := ex_copy_env 1 ex_drained true in
  exists w2 es,
    wmain_entry ex_cli ienv cenv ex_argv World_new
    = (Some (if m_errOccurred (env_at_joined cenv)
                || negb (env_FlushFileBuffers cenv) then 1 else 0), w2) /\
    events w2 =
      es ++ [EvCloseHandle (env_open_src ienv);
             EvCloseHandle (env_open_dest ienv)] /\
    closes es = [] /\
    In (EvFlushFileBuffers (env_open_dest ienv)) es /\
    m_hSrc (copier w2) = INVALID_HANDLE_VALUE /\
    m_hDest (copier w2) = INVALID_HANDLE_VALUE.
Proof.
  intros ienv cenv.
  apply (complete_run_closes_once ex_cli ienv cenv ex_argv 4 1).
  - reflexivity.
  - reflexivity.
  - apply ex_init_env_passes; [lia | discriminate].
  - cbn. lia.
  - reflexivity.
  - reflexivity.
Defined.

(* ===================================================================== *)
(** ** One worker copying a whole source *)
(* ===================================================================== *)

Lemma padded_len_full (s b : Z) : 0 < s -> (s | b) -> padded_len s b = b.
Proof.
  intros Hs [m ->]. unfold padded_len. rewrite Z.mod_mul by lia. reflexivity.
Qed.

Lemma padded_len_shift (s x m : Z) :
  0 < s -> (s | m) -> padded_len s (x + m) = padded_len s x + m.
Proof.
  intros Hs [q ->]. unfold padded_len. rewrite Z.mod_add by lia.
  destruct (x mod s =? 0); lia.
Qed.

Lemma padded_len_bounds (s n B : Z) :
  0 < s -> 0 < n <= B -> (s | B) -> n <= padded_len s n <= B.
Proof.
  intros Hs Hn Hdiv. unfold padded_len.
  destruct (Z.eqb_spec (n mod s) 0) as [? | Hne]; [lia |].
  destruct (padding_fits s n B Hs Hn Hdiv Hne). lia.
Qed.

Lemma engine_state_eta (b0 : BlockCopier) (p o : Z) (rc : bool)
    (rd wr : Z) (ev : list Event) :
  let w := engine_state b0 p o rc rd wr ev in
  io w = mkIOUtils p o rc false /\
  m_bytesReadTotal (copier w) = rd /\ m_bytesWrittenTotal (copier w) = wr /\
  events w = ev /\ same_config b0 (copier w).
Proof.
  destruct b0. cbn. unfold same_config. cbn. repeat split; reflexivity.
Qed.

(** A wait of the worker that ends with the completion of its read: the
    handler submits the write and the worker waits again. *)
Lemma worker_read_done (hSrc : HANDLE) (s b T off n rd wr : Z)
    (b0 : BlockCopier) (c : IOContext) (ev : list Event) (r : SubmitResult)
    (rest : list Wakeup) :
  0 < s -> (s | b) -> 0 < b <= DWORD_MAX -> 0 < n <= b ->
  0 <= rd -> rd + n <= LLONG_MAX ->
  m_destSectorSize b0 = s -> curInst c = true -> bufSize c = b ->
  worker_loop
    (mkWakeup (fun x => x) [ApcReadDone ERROR_SUCCESS n Submitted] r :: rest)
    hSrc b T c (engine_state b0 1 off false rd wr ev)
  = worker_loop rest hSrc b T
      (set_completed false (set_hEvent 0 (padded_context s n c)))
      (engine_state b0 1 off false (rd + n) wr
         (ev ++ [EvWriteFileEx (m_hDest b0) (Offset (overlapped c))
                   (OffsetHigh (overlapped c)) (padded_len s n) 1])).
Proof.
  intros Hs Hdiv Hb Hn Hrd Hrdm Hsec Hcur HB.
  unfold LLONG_MAX, DWORD_MAX in *.
  unfold engine_state.
  destruct b0 as [hS hD srcSz cap sec nT blk cs ths io0 rd0 wr0].
  cbn [m_destSectorSize m_hDest] in *. subst sec.
  cbn [worker_loop]. run_x. cbn [run_apcs run_apc wk_apcs wk_others wk_read].
  run_x.
  unfold StaticReadCompletion. rewrite Hcur. cbn [negb].
  rewrite (OnReadCompletion_run Submitted n c _ s Hcur);
    [| rewrite HB; exact Hn | rewrite HB; unfold is_DWORD, DWORD_MAX; lia
     | exact Hs | rewrite HB; exact Hdiv
     | cbn; destruct (Z.eqb_spec s 0); [lia | reflexivity]].
  rewrite IssueWrite_run.
  unfold io. run_x.
  change (to_int (1 - 1)) with 0. change (to_int (0 + 1)) with 1.
  rewrite (to_LONGLONG_id (rd + n))
    by (unfold is_LONGLONG, LLONG_MIN, LLONG_MAX; lia).
  destruct (Z.eqb_spec s 0) as [? | _]; [lia |]. rewrite app_nil_r.
  assert (Hov : overlapped (padded_context s n c) = overlapped c)
    by (unfold padded_context; destruct (n mod s =? 0); reflexivity).
  rewrite Hov. reflexivity.
Qed.

(** A wait of the worker that ends with the completion of its write: the
    worker claims the next block, and leaves when the source is used up. *)
Lemma worker_write_done (hSrc : HANDLE) (b T off n rd wr : Z)
    (b0 : BlockCopier) (c : IOContext) (ev : list Event)
    (rest : list Wakeup) :
  0 < b <= DWORD_MAX -> is_LONGLONG T -> 0 <= off -> off + b <= LLONG_MAX ->
  0 <= wr -> 0 <= n -> wr + n <= LLONG_MAX ->
  curInst c = true ->
  worker_loop
    (mkWakeup (fun x => x) [ApcWriteDone ERROR_SUCCESS n] Submitted :: rest)
    hSrc b T c (engine_state b0 1 off false rd wr ev)
  = if T <=? off then
      ((ExitNoMoreReads, set_completed false c),
       engine_state b0 0 (off + b) true rd (wr + n) ev)
    else
      worker_loop rest hSrc b T (read_context off c)
        (engine_state b0 1 (off + b) false rd (wr + n)
           (ev ++ [EvReadFileEx hSrc (lo_word off) (hi_word off)
                     (block_len b T off) 1])).
Proof.
  intros Hb HT Hoff Hmax Hwr Hn Hwrm Hcur.
  unfold engine_state.
  destruct b0 as [hS hD srcSz cap sec nT blk cs ths io0 rd0 wr0].
  cbn [worker_loop]. run_x. cbn [run_apcs run_apc wk_apcs wk_others wk_read].
  run_x.
  unfold StaticWriteCompletion. rewrite Hcur. cbn [negb].
  rewrite (OnWriteCompletion_run _ _ _ _ Hcur).
  change (ERROR_SUCCESS =? ERROR_SUCCESS) with true. cbv iota.
  unfold io. run_x.
  change (to_int (1 - 1)) with 0.
  rewrite (to_LONGLONG_id (wr + n))
    by (unfold is_LONGLONG, LLONG_MIN, LLONG_MAX in *; lia).
  rewrite app_nil_r.
  change (completed (set_completed true c)) with true. cbv iota beta.
  run_x.
  match goal with
  | |- context [IssueRead Submitted hSrc ?cx b T ?wz] =>
    rewrite (IssueRead_run Submitted hSrc cx b T wz Hb HT Hoff Hmax)
  end.
  cbn zeta. unfold io. run_x.
  change (to_int (0 + 1)) with 1.
  destruct (T <=? off); run_x; reflexivity.
Qed.

Lemma ideal_wakeups_S (s b T o : Z) (k : nat) :
  ideal_wakeups s b T o (S k) =
  mkWakeup (fun x => x)
    [ApcReadDone ERROR_SUCCESS (block_len b T o) Submitted] Submitted ::
  mkWakeup (fun x => x)
    [ApcWriteDone ERROR_SUCCESS (padded_len s (block_len b T o))] Submitted ::
  ideal_wakeups s b T (o + b) k.
Proof. reflexivity. Qed.

Lemma copy_trace_S (hSrc hDest : HANDLE) (s b T o : Z) (k : nat) :
  copy_trace hSrc hDest s b T o (S k) =
  EvReadFileEx hSrc (lo_word o) (hi_word o) (block_len b T o) 1 ::
  EvWriteFileEx hDest (lo_word o) (hi_word o)
    (padded_len s (block_len b T o)) 1 ::
  copy_trace hSrc hDest s b T (o + b) k.
Proof. reflexivity. Qed.

(** The worker loop with a read in flight at offset [o] and [k] more
    blocks to come, on an operating system that completes everything. *)
Lemma worker_loop_serial (hSrc : HANDLE) (s b T : Z) (b0 : BlockCopier) :
  0 < b <= DWORD_MAX -> 0 < s -> (s | b) -> is_LONGLONG T ->
  m_destSectorSize b0 = s ->
  forall (k : nat) (o rd wr : Z) (c : IOContext) (ev : list Event),
  0 <= o -> o + Z.of_nat k * b < T <= o + (Z.of_nat k + 1) * b ->
  o + (Z.of_nat k + 2) * b <= LLONG_MAX ->
  0 <= rd -> 0 <= wr ->
  rd + (Z.of_nat k + 1) * b <= LLONG_MAX ->
  wr + (Z.of_nat k + 1) * b <= LLONG_MAX ->
  curInst c = true -> bufSize c = b ->
  Offset (overlapped c) = lo_word o -> OffsetHigh (overlapped c) = hi_word o ->
  exists c',
    worker_loop (ideal_wakeups s b T o (S k)) hSrc b T c
      (engine_state b0 1 (o + b) false rd wr ev)
    = ((ExitNoMoreReads, c'),
       engine_state b0 0 (o + (Z.of_nat k + 2) * b) true (rd + (T - o))
         (wr + padded_len s (T - o))
         (ev ++ tl (copy_trace hSrc (m_hDest b0) s b T o (S k)))).
Proof.
  intros Hb Hs Hdiv HT Hsec.
  induction k as [| k IH]; intros o rd wr c ev Ho HT' Hmax Hrd Hwr Hrdm Hwrm
    Hcur HB Hlo Hhi.
  - assert (Hlen : block_len b T o = T - o) by (unfold block_len; lia).
    cbn [ideal_wakeups copy_trace tl]. rewrite Hlen.
    pose proof (padded_len_bounds s (T - o) b Hs ltac:(lia) Hdiv) as Hpad.
    rewrite (worker_read_done hSrc s b T (o + b) (T - o) rd wr b0 c ev)
      by (solve [assumption | lia]).
    rewrite worker_write_done;
      [| assumption | assumption | lia | lia | lia | lia | lia
       | unfold padded_context; destruct ((T - o) mod s =? 0); exact Hcur].
    destruct (Z.leb_spec T (o + b)) as [_ | ?]; [| lia].
    eexists. rewrite Hlo, Hhi.
    replace (o + (Z.of_nat 0 + 2) * b) with (o + b + b) by lia.
    reflexivity.
  - assert (Hlen : block_len b T o = b) by (unfold block_len; lia).
    rewrite ideal_wakeups_S, Hlen, (padded_len_full s b Hs Hdiv).
    rewrite (worker_read_done hSrc s b T (o + b) b rd wr b0 c ev)
      by (solve [assumption | lia]).
    rewrite (padded_len_full s b Hs Hdiv).
    rewrite worker_write_done;
      [| assumption | assumption | lia | lia | lia | lia | lia
       | unfold padded_context; destruct (b mod s =? 0); exact Hcur].
    destruct (Z.leb_spec T (o + b)) as [? | _]; [lia |].
    match goal with
    | |- context [worker_loop _ hSrc b T ?cx (engine_state b0 1 _ false _ _ ?evx)] =>
      destruct (IH (o + b) (rd + b) (wr + b) cx evx) as (c' & Heq);
        try solve [lia | reflexivity]
    end.
    { unfold padded_context. destruct (b mod s =? 0); exact Hcur. }
    { unfold padded_context. destruct (b mod s =? 0); exact HB. }
    exists c'. rewrite Heq.
    replace (o + b + (Z.of_nat k + 2) * b)
      with (o + (Z.of_nat (S k) + 2) * b) by lia.
    replace (rd + b + (T - (o + b))) with (rd + (T - o)) by lia.
    replace (wr + b + padded_len s (T - (o + b)))
      with (wr + padded_len s (T - o)).
    2: { replace (T - o) with (T - (o + b) + b) by lia.
         rewrite (padded_len_shift s _ b Hs Hdiv). lia. }
    rewrite (copy_trace_S _ _ _ _ _ o), (copy_trace_S _ _ _ _ _ (o + b)).
    cbn [tl]. rewrite Hlen, (padded_len_full s b Hs Hdiv), Hlo, Hhi.
    rewrite <- !app_assoc. reflexivity.
Qed.

(** X13.  One worker copies a whole source.  On reset counters, with sectors
    of [s] bytes dividing the block size [b], and an operating system that
    completes every read and every write in full, [WorkerThreadLoop] copies
    a source of [T > 0] bytes in [k + 1] blocks and returns through the
    [break] taken when no read is left.  It reads each block at the next
    multiple of [b] and writes it at the offset it was read from, the last
    one padded to a sector, with one operation in flight at a time.  At the
    end [m_readComplete] is set, no error is set, nothing is pending, the
    bytes read are [T] and the bytes written are the least multiple of [s]
    that holds [T].  The [hDest] argument is not used: the writes go to the
    destination handle of the copier. *)
Theorem serial_copy (hSrc hDest : HANDLE) (s b T : Z) (k : nat)
    (b0 : BlockCopier) (c : IOContext) (ev : list Event) :
  0 < b <= DWORD_MAX -> 0 < s -> (s | b) ->
  Z.of_nat k * b < T <= (Z.of_nat k + 1) * b ->
  (Z.of_nat k + 2) * b <= LLONG_MAX ->
  m_destSectorSize b0 = s -> bufSize c = b ->
  least_multiple_ge s T (padded_len s T) /\
  exists c',
    WorkerThreadLoop (mkWorkerEnv Submitted (ideal_wakeups s b T 0 (S k)))
      c hSrc hDest b T (fresh_engine b0 ev)
    = ((ExitNoMoreReads, c'),
       engine_state b0 0 ((Z.of_nat k + 2) * b) true T (padded_len s T)
         (ev ++ copy_trace hSrc (m_hDest b0) s b T 0 (S k))).
Proof.
  intros Hb Hs Hdiv HT Hmax Hsec HB.
  assert (HT0 : 0 < T) by nia.
  assert (HTL : is_LONGLONG T)
    by (unfold is_LONGLONG, LLONG_MIN, LLONG_MAX in *; nia).
  split; [apply padded_is_least; assumption |].
  unfold WorkerThreadLoop, fresh_engine. run_x.
  cbn [we_first_read we_wakeups].
  match goal with
  | |- context [IssueRead Submitted hSrc ?cx b T ?wz] =>
    rewrite (IssueRead_run Submitted hSrc cx b T wz Hb HTL)
  end.
  2: { destruct b0. cbn. lia. }
  2: { destruct b0. cbn. unfold LLONG_MAX in *. nia. }
  destruct (worker_loop_serial hSrc s b T b0 Hb Hs Hdiv HTL Hsec k 0 0 0
              (read_context 0 (set_curInst true c))
              (ev ++ [EvReadFileEx hSrc (lo_word 0) (hi_word 0)
                        (block_len b T 0) 1]))
    as (c' & Heq); try solve [lia | reflexivity | exact HB].
  exists c'.
  rewrite copy_trace_S.
  replace (ev ++ _ :: _ :: copy_trace hSrc (m_hDest b0) s b T (0 + b) k)
    with ((ev ++ [EvReadFileEx hSrc (lo_word 0) (hi_word 0)
                    (block_len b T 0) 1])
          ++ tl (copy_trace hSrc (m_hDest b0) s b T 0 (S k)))
    by (rewrite copy_trace_S, <- app_assoc; reflexivity).
  replace (engine_state b0 0 ((Z.of_nat k + 2) * b) true T (padded_len s T))
    with (engine_state b0 0 (0 + (Z.of_nat k + 2) * b) true (0 + (T - 0))
            (0 + padded_len s (T - 0)))
    by (rewrite Z.sub_0_r, !Z.add_0_l; reflexivity).
  rewrite <- Heq. clear Heq.
  destruct b0 as [hS hD srcSz cap sec nT blk cs ths io0 rd0 wr0].
  unfold engine_state, io. cbn zeta. run_x.
  destruct (Z.leb_spec T 0) as [? | _]; [lia |].
  change (to_int (0 + 1)) with 1.
  reflexivity.
Qed.

(** A source of 2500 bytes in blocks of 1024 bytes on 512-byte sectors:
    three blocks, 2560 bytes written. *)
Lemma serial_copy_witness :
  let b0 := copier (ex_engine 512) in
  let c := IOContext_new 1024 4096 in
  least_multiple_ge 512 2500 (padded_len 512 2500) /\
  exists c',
    WorkerThreadLoop (mkWorkerEnv Submitted (ideal_wakeups 512 1024 2500 0 3))
      c 8 9 1024 2500 (fresh_engine b0 [])
    = ((ExitNoMoreReads, c'),
       engine_state b0 0 ((Z.of_nat 2 + 2) * 1024) true 2500
         (padded_len 512 2500)
         ([] ++ copy_trace 8 (m_hDest b0) 512 1024 2500 0 3)).
Proof.
  intros b0 c.
  apply (serial_copy 8 9 512 1024 2500 2 b0 c []).
  - unfold DWORD_MAX. lia.
  - lia.
  - exists 2. reflexivity.
  - lia.
  - unfold LLONG_MAX. lia.
  - reflexivity.
  - reflexivity.
Defined.

(* ===================================================================== *)
(** ** main.cpp: the command line *)
(* ===================================================================== *)

(** X14.  The command line of [wmain].  A command line is accepted in two
    shapes only: the two paths followed by [--usedefault], which selects 4
    threads and blocks of 1 MB, or the two paths followed by a thread count
    and a block size that [_wtoi] reads as positive numbers.  The two paths
    alone are rejected, and so is any fourth argument other than
    [--usedefault] when it is the last.  On a rejected command line [wmain]
    returns 1, and when the user does not confirm it returns 0; in both
    cases no copier is built and nothing is opened. *)
Theorem command_line (cli : CliEnv) (ienv : InitEnv) (cenv : CopyEnv)
    (argv : list string) (w : World) :
  (forall nT mb,
     parse_args (cli_wtoi cli) argv = Some (nT, mb) <->
     (length argv = 4%nat /\ nth 3 argv EmptyString = "--usedefault"%string /\
      nT = DEFAULT_MAX_OUTSTANDING_IO /\ mb = DEFAULT_BLOCK_SIZE_MB) \/
     (length argv = 5%nat /\
      nT = cli_wtoi cli (nth 3 argv EmptyString) /\
      mb = cli_wtoi cli (nth 4 argv EmptyString) /\ 0 < nT /\ 0 < mb)) /\
  (parse_args (cli_wtoi cli) argv = None ->
   wmain_entry cli ienv cenv argv w = (Some 1, w)) /\
  (parse_args (cli_wtoi cli) argv <> None -> cli_proceed cli = false ->
   wmain_entry cli ienv cenv argv w = (Some 0, w)).
Proof.
  split; [| split].
  - intros nT mb. unfold parse_args.
    destruct argv as [| a0 [| a1 [| a2 [| a3 [| a4 [| a5 rest]]]]]].
    1-4: (cbn; split; [discriminate | intros [(H & _) | (H & _)]; discriminate]).
    + cbn [length nth]. change (Z.of_nat 4) with 4. cbn [Z.ltb Z.gtb Z.eqb
        Z.compare Pos.compare Pos.compare_cont Pos.eqb orb andb].
      destruct (String.eqb_spec a3 "--usedefault") as [He | Hne].
      * split.
        -- intros H. injection H as <- <-. left. repeat split; assumption.
        -- intros [(_ & _ & -> & ->) | (H & _)]; [reflexivity | discriminate].
      * split; [discriminate |].
        intros [(_ & H & _) | (H & _)]; [contradiction | discriminate].
    + cbn [length nth]. change (Z.of_nat 5) with 5. cbn [Z.ltb Z.gtb Z.eqb
        Z.compare Pos.compare Pos.compare_cont Pos.eqb orb andb].
      destruct (Z.leb_spec (cli_wtoi cli a3) 0) as [H3 | H3]; cbn [orb].
      * split; [discriminate |].
        intros [(H & _) | (_ & -> & _ & H & _)]; [discriminate | lia].
      * destruct (Z.leb_spec (cli_wtoi cli a4) 0) as [H4 | H4].
        -- split; [discriminate |].
           intros [(H & _) | (_ & _ & -> & _ & H)]; [discriminate | lia].
        -- split.
           ++ intros H. injection H as <- <-. right. repeat split; assumption.
           ++ intros [(H & _) | (_ & -> & -> & _)]; [discriminate | reflexivity].
    + set (n := length (a0 :: a1 :: a2 :: a3 :: a4 :: a5 :: rest)).
      assert (Hn : (6 <= n)%nat) by (unfold n; cbn; lia).
      destruct (Z.ltb_spec (Z.of_nat n) 3) as [? | _]; [lia |].
      destruct (Z.gtb_spec (Z.of_nat n) 5) as [_ | ?]; [| lia]. cbn [orb].
      split; [discriminate |].
      intros [(H & _) | (H & _)]; lia.
  - intros Hnone. unfold wmain_entry. rewrite Hnone. reflexivity.
  - intros Hsome Hno. unfold wmain_entry.
    destruct (parse_args (cli_wtoi cli) argv) as [[nT mb] |];
      [| contradiction].
    rewrite Hno. reflexivity.
Qed.

(** The two paths alone are rejected. *)
Lemma command_line_witness :
  wmain_entry ex_cli (ex_init_env 1048576 1048576)
    (ex_copy_env 1 ex_drained true) ["FileBackup.exe"; "src"; "dst"]%string
    World_new
  = (Some 1, World_new).
Proof.
  apply (proj1 (proj2 (command_line ex_cli (ex_init_env 1048576 1048576)
                         (ex_copy_env 1 ex_drained true)
                         ["FileBackup.exe"; "src"; "dst"]%string World_new))).
  reflexivity.
Defined.

(* ===================================================================== *)
(** ** DiskUtils *)
(* ===================================================================== *)

Lemma path_of_length_5 (p : list Z) :
  wcslen p = 5 ->
  p = [wchar_at p 0; wchar_at p 1; wchar_at p 2; wchar_at p 3; wchar_at p 4].
Proof.
  unfold wcslen, wchar_at. intros H.
  destruct p as [| c0 [| c1 [| c2 [| c3 [| c4 [| c5 r]]]]]];
    cbn [length] in H; try lia.
  reflexivity.
Qed.

Lemma path_of_length_6 (p : list Z) :
  wcslen p = 6 ->
  p = [wchar_at p 0; wchar_at p 1; wchar_at p 2; wchar_at p 3; wchar_at p 4;
       wchar_at p 5].
Proof.
  unfold wcslen, wchar_at. intros H.
  destruct p as [| c0 [| c1 [| c2 [| c3 [| c4 [| c5 [| c6 r]]]]]]];
    cbn [length] in H; try lia.
  reflexivity.
Qed.

(** What the drive-letter test has checked when it succeeds. *)
Lemma isDriveLetter_shape (env : DiskEnv) (path : list Z) :
  isDriveLetter env path = true ->
  wchar_at path 0 = BACKSLASH /\ wchar_at path 1 = DOT /\
  wchar_at path 2 = BACKSLASH /\ dk_iswalpha env (wchar_at path 3) = true /\
  wchar_at path 4 = COLON /\
  (wcslen path = 5 \/ wcslen path = 6 /\ wchar_at path 5 = BACKSLASH).
Proof.
  unfold isDriveLetter.
  destruct (Z.eqb_spec (wchar_at path 0) BACKSLASH) as [H0 | ?];
    [| rewrite andb_false_r; discriminate].
  destruct (Z.eqb_spec (wchar_at path 1) DOT) as [H1 | ?];
    [| rewrite andb_false_r; discriminate].
  destruct (Z.eqb_spec (wchar_at path 2) BACKSLASH) as [H2 | ?];
    [| rewrite andb_false_r; discriminate].
  destruct (wcslen path >=? 5); [| discriminate]. cbn [andb].
  destruct (dk_iswalpha env (wchar_at path 3)); [| discriminate].
  destruct (Z.eqb_spec (wchar_at path 4) COLON) as [H4 | ?];
    [| discriminate]. cbn [andb].
  destruct (Z.eqb_spec (wcslen path) 5) as [H5 | ?]; cbn [orb].
  - intros _. repeat split; auto.
  - destruct (Z.eqb_spec (wcslen path) 6) as [H6 | ?]; [| discriminate].
    destruct (Z.eqb_spec (wchar_at path 5) BACKSLASH) as [H5' | ?];
      [| discriminate].
    intros _. repeat split; auto.
Qed.

(** X15.  Which destinations [GetDiskOrDriveSize] treats as drive letters.
    The test accepts exactly the five characters backslash, dot, backslash,
    a letter and a colon, optionally followed by one backslash.  A path
    that begins with two backslashes, as the device paths of the usage
    text do, is therefore never treated as a drive letter.  Every
    path the test accepts also passes the prefix test of
    [GetVolumeSectorSize], and the root handed to [GetDiskFreeSpaceExW] for
    it is a backslash, the letter and a backslash. *)
Theorem drive_letter_paths (env : DiskEnv) (path : list Z) :
  (isDriveLetter env path = true <->
   exists L,
     dk_iswalpha env L = true /\
     (path = [BACKSLASH; DOT; BACKSLASH; L; COLON] \/
      path = [BACKSLASH; DOT; BACKSLASH; L; COLON; BACKSLASH])) /\
  (wchar_at path 1 = BACKSLASH -> isDriveLetter env path = false) /\
  (isDriveLetter env path = true ->
   drive_letter_prefix env (Some path) = true /\
   driveLetterRoot path = [BACKSLASH; wchar_at path 3; BACKSLASH] /\
   dk_iswalpha env (wchar_at path 3) = true).
Proof.
  pose proof (isDriveLetter_shape env path) as Hshape.
  split; [split |].
  - intros H. destruct (Hshape H) as (H0 & H1 & H2 & HL & H4 & Hlen).
    exists (wchar_at path 3). split; [exact HL |].
    destruct Hlen as [H5 | [H6 H5']].
    + left. rewrite (path_of_length_5 path H5) at 1.
      rewrite H0, H1, H2, H4. reflexivity.
    + right. rewrite (path_of_length_6 path H6) at 1.
      rewrite H0, H1, H2, H4, H5'. reflexivity.
  - intros (L & HL & [-> | ->]); unfold isDriveLetter, wcslen, wchar_at;
      cbn [length nth]; rewrite HL; reflexivity.
  - split.
    + intros Hbs. destruct (isDriveLetter env path) eqn:E; [| reflexivity].
      destruct (Hshape eq_refl) as (_ & H1 & _).
      rewrite H1 in Hbs. discriminate.
    + intros H. destruct (Hshape H) as (H0 & H1 & H2 & HL & H4 & _).
      unfold drive_letter_prefix, driveLetterRoot.
      rewrite H0, H1, H2, H4, HL. repeat split; reflexivity.
Qed.

(** The device path of drive F is not treated as a drive letter. *)
Lemma drive_letter_paths_witness :
  isDriveLetter ex_disk_env (wide "\\.\F:") = false.
Proof.
  apply (proj1 (proj2 (drive_letter_paths ex_disk_env (wide "\\.\F:")))).
  reflexivity.
Defined.

(** The size query asks the calls of its plan in order until one
    succeeds. *)
Lemma GetDiskOrDriveSize_plan (env : DiskEnv) (handle : HANDLE)
    (path : list Z) (isSrc : bool) :
  GetDiskOrDriveSize env handle path isSrc
  = first_answer env (size_plan handle path isSrc (isDriveLetter env path)).
Proof.
  unfold GetDiskOrDriveSize, size_plan.
  destruct isSrc.
  - cbn. destruct (dk_length_info env handle); [reflexivity |].
    destruct (dk_file_size env handle); reflexivity.
  - destruct (isDriveLetter env path) eqn:E.
    + destruct (isDriveLetter_shape env path E) as (_ & _ & H2 & _).
      unfold driveLetterRoot. rewrite H2. cbn.
      destruct (dk_free_space env _); [reflexivity |].
      destruct (dk_length_info env handle); [reflexivity |].
      destruct (dk_file_size env handle); reflexivity.
    + cbn. destruct (dk_length_info env handle); [reflexivity |].
      destruct (dk_geometry_ex env handle); reflexivity.
Qed.

(** What asking a plan gives: an error line exactly when every call fails,
    and otherwise the answer of a call of the plan. *)
Lemma first_answer_facts (env : DiskEnv) (plan : list DiskCall) :
  (In DkError (snd (first_answer env plan)) <->
   forall c, In c plan -> answer env c = None) /\
  (In DkError (snd (first_answer env plan)) ->
   fst (first_answer env plan) = 0) /\
  (~ In DkError (snd (first_answer env plan)) ->
   exists c, In c plan /\ answer env c = Some (fst (first_answer env plan))).
Proof.
  induction plan as [| c rest (IH1 & IH2 & IH3)].
  - cbn. repeat split; auto.
    + intros _ c [].
    + intros H. exfalso. apply H. left. reflexivity.
  - cbn [first_answer]. destruct (answer env c) as [v |] eqn:E.
    + cbn. repeat split.
      * intros [H | []]. discriminate.
      * intros H. specialize (H c (or_introl eq_refl)). congruence.
      * intros [H | []]. discriminate.
      * intros _. exists c. split; [left; reflexivity | exact E].
    + destruct (first_answer env rest) as [v es] eqn:R. cbn in *.
      repeat split.
      * intros [H | H]; [discriminate |].
        intros c' [<- | Hin]; [exact E | apply (proj1 IH1 H c' Hin)].
      * intros H. right. apply IH1. intros c' Hin. apply H. right. exact Hin.
      * intros [H | H]; [discriminate | apply IH2; exact H].
      * intros H. destruct IH3 as (c' & Hin & Hc').
        { intros H'. apply H. right. exact H'. }
        exists c'. split; [right; exact Hin | exact Hc'].
Qed.

(** X16.  The order of the size queries.  [GetDiskOrDriveSize] asks a fixed
    list of calls in order and returns the answer of the first that
    succeeds: for a source the length information and then the file size;
    for a destination that passes the drive-letter test the free-space
    query on the root, then the length information, then the file size; for
    any other destination the length information and then the extended
    geometry.  It makes no call after the first success.  So for a
    destination path that begins with two backslashes neither the
    free-space query nor the file size is ever consulted. *)
Theorem size_query_order (env : DiskEnv) (handle : HANDLE) (path : list Z)
    (isSrc : bool) :
  GetDiskOrDriveSize env handle path isSrc
  = first_answer env (size_plan handle path isSrc (isDriveLetter env path)) /\
  (wchar_at path 1 = BACKSLASH ->
   GetDiskOrDriveSize env handle path false
   = first_answer env [IOCTL_DISK_GET_LENGTH_INFO handle;
                       IOCTL_DISK_GET_DRIVE_GEOMETRY_EX handle]).
Proof.
  split; [apply GetDiskOrDriveSize_plan |].
  intros Hbs. rewrite GetDiskOrDriveSize_plan.
  destruct (isDriveLetter env path) eqn:E; [| reflexivity].
  destruct (isDriveLetter_shape env path E) as (_ & H1 & _).
  rewrite H1 in Hbs. discriminate.
Qed.

Lemma size_query_order_witness :
  GetDiskOrDriveSize ex_disk_env 9 (wide "\\.\F:") false
  = first_answer ex_disk_env
      [IOCTL_DISK_GET_LENGTH_INFO 9; IOCTL_DISK_GET_DRIVE_GEOMETRY_EX 9].
Proof.
  apply (proj2 (size_query_order ex_disk_env 9 (wide "\\.\F:") false)).
  reflexivity.
Defined.

(** X17.  Zero answers of [DiskUtils].  Both queries return either 0 or a
    value that a call they made has answered.  The size query logs an error
    exactly when every call of its plan failed, and then returns 0; the
    sector query logs a warning or an error exactly when its call failed,
    and then returns 0.  A call that succeeds with the answer 0 gives the
    same result 0 without any warning or error line, so that the caller
    cannot tell it from a failure. *)
Theorem zero_answers (env : DiskEnv) (handle : HANDLE) (wpath : list Z)
    (path : option (list Z)) (isSrc : bool) :
  let size := GetDiskOrDriveSize env handle wpath isSrc in
  let plan := size_plan handle wpath isSrc (isDriveLetter env wpath) in
  let sector := GetVolumeSectorSize env handle path isSrc in
  (In DkError (snd size) <-> forall c, In c plan -> answer env c = None) /\
  (In DkError (snd size) -> fst size = 0) /\
  (~ In DkError (snd size) ->
   exists c, In c plan /\ answer env c = Some (fst size)) /\
  (In DkWarning (snd sector) \/ In DkError (snd sector) <->
   answer env (IOCTL_DISK_GET_DRIVE_GEOMETRY handle) = None) /\
  (answer env (IOCTL_DISK_GET_DRIVE_GEOMETRY handle) = None -> fst sector = 0) /\
  (forall v, answer env (IOCTL_DISK_GET_DRIVE_GEOMETRY handle) = Some v ->
             sector = (v, [DkCall (IOCTL_DISK_GET_DRIVE_GEOMETRY handle)])).
Proof.
  cbn zeta. rewrite GetDiskOrDriveSize_plan.
  destruct (first_answer_facts env
              (size_plan handle wpath isSrc (isDriveLetter env wpath)))
    as (H1 & H2 & H3).
  split; [exact H1 |]. split; [exact H2 |]. split; [exact H3 |].
  unfold GetVolumeSectorSize, answer.
  destruct (dk_geometry env handle) as [v | err].
  - cbn. repeat split.
    + intros [[H | []] | [H | []]]; discriminate.
    + discriminate.
    + discriminate.
    + intros v' H. injection H as <-. reflexivity.
  - destruct (((err =? ERROR_INVALID_PARAMETER) || (err =? ERROR_NOT_SUPPORTED))
              && drive_letter_prefix env path); cbn; repeat split;
      try discriminate; auto.
Qed.

Lemma zero_answers_witness :
  fst (GetVolumeSectorSize ex_disk_env 9 (Some (wide "\\.\F:")) false) = 0.
Proof.
  pose proof (zero_answers ex_disk_env 9 (wide "\\.\F:")
                (Some (wide "\\.\F:")) false) as H.
  cbn zeta in H.
  apply (proj1 (proj2 (proj2 (proj2 (proj2 H))))).
  reflexivity.
Defined.

(* ===================================================================== *)
(** ** LogUtils *)
(* ===================================================================== *)

Lemma Log_fields (l : LogUtils.LogLevel) (m : string) (g : LogUtils.Logger) :
  let g' := LogUtils.Log l m g in
  let lines :=
    if LogUtils.rank l <? LogUtils.rank (LogUtils.m_currentLogLevel g)
    then [] else [(l, m)] in
  LogUtils.m_currentLogLevel g' = LogUtils.m_currentLogLevel g /\
  LogUtils.m_consoleLoggingEnabled g' = LogUtils.m_consoleLoggingEnabled g /\
  LogUtils.m_fileLoggingEnabled g' = LogUtils.m_fileLoggingEnabled g /\
  LogUtils.m_logFileStream g' = LogUtils.m_logFileStream g /\
  LogUtils.wcerr g' = LogUtils.wcerr g /\
  LogUtils.wcout g' =
    LogUtils.wcout g ++
    (if LogUtils.m_consoleLoggingEnabled g then lines else []) /\
  forall path,
    LogUtils.files g' path =
    LogUtils.files g path ++ (if LogUtils.writes_to g path then lines else []).
Proof.
  cbn zeta. unfold LogUtils.Log, LogUtils.writes_to.
  destruct g as [lvl con en st out fs err]. cbn.
  destruct (LogUtils.rank l <? LogUtils.rank lvl); cbn.
  - repeat split; try reflexivity.
    + destruct con; rewrite app_nil_r; reflexivity.
    + intros path. destruct (en && _); rewrite app_nil_r; reflexivity.
  - repeat split; try reflexivity.
    + destruct con; [reflexivity | rewrite app_nil_r; reflexivity].
    + intros path. destruct st as [p |]; destruct en; cbn;
        rewrite ?app_nil_r; try reflexivity.
      unfold LogUtils.write_file.
      destruct (String.eqb_spec path p) as [-> | _];
        [reflexivity | rewrite app_nil_r; reflexivity].
Qed.

Lemma run_op_consistent (op : LogUtils.Op) (g : LogUtils.Logger) :
  file_sink_consistent g -> file_sink_consistent (LogUtils.run_op op g).
Proof.
  unfold file_sink_consistent.
  assert (Hlog : forall l m g0,
            LogUtils.m_fileLoggingEnabled g0 = LogUtils.is_open g0 ->
            LogUtils.m_fileLoggingEnabled (LogUtils.Log l m g0)
            = LogUtils.is_open (LogUtils.Log l m g0)).
  { intros l m g0 H0.
    destruct (Log_fields l m g0) as (_ & _ & He & Hs & _).
    unfold LogUtils.is_open in *. rewrite He, Hs. exact H0. }
  assert (Hen : forall e p a c g0,
            LogUtils.m_fileLoggingEnabled g0 = LogUtils.is_open g0 ->
            LogUtils.m_fileLoggingEnabled (LogUtils.EnableFileLogging e p a c g0)
            = LogUtils.is_open (LogUtils.EnableFileLogging e p a c g0)).
  { intros e p a c [lvl con en st out fs err]. cbn. intros ->.
    destruct st, e, a, c; reflexivity. }
  assert (Hcl : forall g0,
            LogUtils.m_fileLoggingEnabled (LogUtils.CloseFileLog g0)
            = LogUtils.is_open (LogUtils.CloseFileLog g0)).
  { intros [lvl con en st out fs err]. destruct st; reflexivity. }
  intros Hg.
  destruct op as [l | e | e p a c | | l m | t l c |]; cbn [LogUtils.run_op].
  - exact Hg.
  - exact Hg.
  - apply Hen. exact Hg.
  - apply Hcl.
  - apply Hlog. exact Hg.
  - unfold LogUtils.Initialize, LogUtils.Info. apply Hlog.
    assert (Hsinks :
      LogUtils.m_fileLoggingEnabled
        (if t =? 1 then
           LogUtils.EnableFileLogging false LogUtils.DEFAULT_LOG_FILE_PATH true
             c (LogUtils.EnableConsoleLogging true g)
         else if t =? 2 then
           LogUtils.EnableFileLogging true LogUtils.DEFAULT_LOG_FILE_PATH true
             c (LogUtils.EnableConsoleLogging false g)
         else if t =? 3 then
           LogUtils.EnableFileLogging true LogUtils.DEFAULT_LOG_FILE_PATH true
             c (LogUtils.EnableConsoleLogging true g)
         else g)
      = LogUtils.is_open
        (if t =? 1 then
           LogUtils.EnableFileLogging false LogUtils.DEFAULT_LOG_FILE_PATH true
             c (LogUtils.EnableConsoleLogging true g)
         else if t =? 2 then
           LogUtils.EnableFileLogging true LogUtils.DEFAULT_LOG_FILE_PATH true
             c (LogUtils.EnableConsoleLogging false g)
         else if t =? 3 then
           LogUtils.EnableFileLogging true LogUtils.DEFAULT_LOG_FILE_PATH true
             c (LogUtils.EnableConsoleLogging true g)
         else g)).
    { destruct (t =? 1); [apply Hen; exact Hg |].
      destruct (t =? 2); [apply Hen; exact Hg |].
      destruct (t =? 3); [apply Hen; exact Hg | exact Hg]. }
    destruct (l =? 0); [exact Hsinks |].
    destruct (l =? 1); [exact Hsinks |].
    destruct (l =? 2); [exact Hsinks |].
    destruct (l =? 3); [exact Hsinks |].
    destruct (l =? 4); [exact Hsinks |].
    destruct (l =? 5); exact Hsinks.
  - unfold LogUtils.DeInitialize. apply Hcl.
Qed.

(** What one call on the logger does to the outputs: the console and the
    count of complaints only grow, and so does a file unless the call asks
    for it to be opened without [append]. *)
Lemma run_op_grows (op : LogUtils.Op) (g : LogUtils.Logger) (path : string) :
  (exists l, LogUtils.wcout (LogUtils.run_op op g) = LogUtils.wcout g ++ l) /\
  (LogUtils.wcerr g <= LogUtils.wcerr (LogUtils.run_op op g))%nat /\
  (LogUtils.truncates path op = false ->
   exists l, LogUtils.files (LogUtils.run_op op g) path
             = LogUtils.files g path ++ l).
Proof.
  assert (Hnil : forall A (x : list A), exists l, x = x ++ l)
    by (intros A x; exists []; rewrite app_nil_r; reflexivity).
  assert (Hlog : forall l m g0,
            (exists x, LogUtils.wcout (LogUtils.Log l m g0)
                       = LogUtils.wcout g0 ++ x) /\
            (LogUtils.wcerr g0 <= LogUtils.wcerr (LogUtils.Log l m g0))%nat /\
            (exists x, LogUtils.files (LogUtils.Log l m g0) path
                       = LogUtils.files g0 path ++ x)).
  { intros l m g0.
    destruct (Log_fields l m g0) as (_ & _ & _ & _ & He & Ho & Hf).
    rewrite He, Ho, Hf. split; [eexists; reflexivity |].
    split; [lia | eexists; reflexivity]. }
  assert (Hen : forall e p a c g0,
            (exists x, LogUtils.wcout (LogUtils.EnableFileLogging e p a c g0)
                       = LogUtils.wcout g0 ++ x) /\
            (LogUtils.wcerr g0
             <= LogUtils.wcerr (LogUtils.EnableFileLogging e p a c g0))%nat /\
            (LogUtils.truncates path (LogUtils.OpEnableFileLogging e p a c)
             = false ->
             exists x, LogUtils.files (LogUtils.EnableFileLogging e p a c g0) path
                       = LogUtils.files g0 path ++ x)).
  { intros e p a c [lvl con en st out fs err].
    destruct en, st, e, a, c; cbn; unfold LogUtils.write_file;
      (split; [apply Hnil |]); (split; [lia |]);
      intros Ht; rewrite ?Ht; apply Hnil. }
  assert (Hcl : forall g0,
            (exists x, LogUtils.wcout (LogUtils.CloseFileLog g0)
                       = LogUtils.wcout g0 ++ x) /\
            (LogUtils.wcerr g0 <= LogUtils.wcerr (LogUtils.CloseFileLog g0))%nat /\
            (exists x, LogUtils.files (LogUtils.CloseFileLog g0) path
                       = LogUtils.files g0 path ++ x)).
  { intros [lvl con en st out fs err]. destruct st; cbn;
      (split; [apply Hnil |]); (split; [lia | apply Hnil]). }
  assert (Htrans : forall (g0 g1 g2 : LogUtils.Logger),
            ((exists x, LogUtils.wcout g1 = LogUtils.wcout g0 ++ x) /\
             (LogUtils.wcerr g0 <= LogUtils.wcerr g1)%nat /\
             (exists x, LogUtils.files g1 path = LogUtils.files g0 path ++ x)) ->
            ((exists x, LogUtils.wcout g2 = LogUtils.wcout g1 ++ x) /\
             (LogUtils.wcerr g1 <= LogUtils.wcerr g2)%nat /\
             (exists x, LogUtils.files g2 path = LogUtils.files g1 path ++ x)) ->
            (exists x, LogUtils.wcout g2 = LogUtils.wcout g0 ++ x) /\
            (LogUtils.wcerr g0 <= LogUtils.wcerr g2)%nat /\
            (exists x, LogUtils.files g2 path = LogUtils.files g0 path ++ x)).
  { intros g0 g1 g2 ((a1 & A1) & A2 & (a3 & A3)) ((b1 & B1) & B2 & (b3 & B3)).
    split; [exists (a1 ++ b1); rewrite B1, A1, app_assoc; reflexivity |].
    split; [lia |].
    exists (a3 ++ b3). rewrite B3, A3, app_assoc. reflexivity. }
  assert (Hself : forall g0 : LogUtils.Logger,
            (exists x, LogUtils.wcout g0 = LogUtils.wcout g0 ++ x) /\
            (LogUtils.wcerr g0 <= LogUtils.wcerr g0)%nat /\
            (exists x, LogUtils.files g0 path = LogUtils.files g0 path ++ x)).
  { intros g0. split; [apply Hnil |]. split; [lia | apply Hnil]. }
  assert (Hdrop : forall (g1 : LogUtils.Logger) (P : Prop),
            ((exists x, LogUtils.wcout g1 = LogUtils.wcout g ++ x) /\
             (LogUtils.wcerr g <= LogUtils.wcerr g1)%nat /\
             (exists x, LogUtils.files g1 path = LogUtils.files g path ++ x)) ->
            (exists x, LogUtils.wcout g1 = LogUtils.wcout g ++ x) /\
            (LogUtils.wcerr g <= LogUtils.wcerr g1)%nat /\
            (P -> exists x, LogUtils.files g1 path = LogUtils.files g path ++ x)).
  { intros g1 P (A & B & C). split; [exact A |]. split; [exact B |].
    intros _. exact C. }
  assert (Hsame : forall g0 g1 : LogUtils.Logger,
            LogUtils.wcout g1 = LogUtils.wcout g0 ->
            LogUtils.wcerr g1 = LogUtils.wcerr g0 ->
            LogUtils.files g1 path = LogUtils.files g0 path ->
            (exists x, LogUtils.wcout g1 = LogUtils.wcout g0 ++ x) /\
            (LogUtils.wcerr g0 <= LogUtils.wcerr g1)%nat /\
            (exists x, LogUtils.files g1 path = LogUtils.files g0 path ++ x)).
  { intros g0 g1 -> -> ->. apply Hself. }
  destruct op as [l | e | e p a c | | l m | t l c |]; cbn [LogUtils.run_op].
  - apply Hdrop. apply Hsame; reflexivity.
  - apply Hdrop. apply Hsame; reflexivity.
  - apply Hen.
  - apply Hdrop. apply Hcl.
  - apply Hdrop. apply Hlog.
  - apply Hdrop. unfold LogUtils.Initialize, LogUtils.Info.
    eapply Htrans; [| apply Hlog].
    eapply (Htrans g
              (if t =? 1 then
                 LogUtils.EnableFileLogging false LogUtils.DEFAULT_LOG_FILE_PATH
                   true c (LogUtils.EnableConsoleLogging true g)
               else if t =? 2 then
                 LogUtils.EnableFileLogging true LogUtils.DEFAULT_LOG_FILE_PATH
                   true c (LogUtils.EnableConsoleLogging false g)
               else if t =? 3 then
                 LogUtils.EnableFileLogging true LogUtils.DEFAULT_LOG_FILE_PATH
                   true c (LogUtils.EnableConsoleLogging true g)
               else g)).
    + destruct (t =? 1); [| destruct (t =? 2); [| destruct (t =? 3)]];
        try apply Hself;
        match goal with
        | |- context [LogUtils.EnableFileLogging ?e ?p ?a ?c0 ?g0] =>
          destruct (Hen e p a c0 g0) as (A & B & C)
        end;
        (split; [exact A |]); (split; [exact B |]);
        apply C; destruct c; reflexivity.
    + destruct (l =? 0); [| destruct (l =? 1); [| destruct (l =? 2);
        [| destruct (l =? 3); [| destruct (l =? 4); [| destruct (l =? 5)]]]]];
        apply Hsame; reflexivity.
  - apply Hdrop. unfold LogUtils.DeInitialize, LogUtils.Info.
    eapply Htrans; [apply Hlog | apply Hcl].
Qed.

(** X18.  The logger under any sequence of calls.  Whatever is called on
    the logger through its public interface, in whatever order and
    whatever the file system answers, the file sink stays enabled exactly
    when the stream is open, what was written to the console is never taken
    back, and the count of complaints on [std::wcerr] never goes down.  The
    lines of a log file are never taken back either, as long as no call
    asks for that file to be opened without [append]; such a call, when the
    file can be opened, empties the file. *)
Theorem logger_invariant (ops : list LogUtils.Op) (g : LogUtils.Logger)
    (path : string) :
  file_sink_consistent g ->
  let g' := LogUtils.run_ops ops g in
  file_sink_consistent g' /\
  (exists l, LogUtils.wcout g' = LogUtils.wcout g ++ l) /\
  (LogUtils.wcerr g <= LogUtils.wcerr g')%nat /\
  (existsb (LogUtils.truncates path) ops = false ->
   exists l, LogUtils.files g' path = LogUtils.files g path ++ l) /\
  LogUtils.files (LogUtils.EnableFileLogging true path false true g) path = [].
Proof.
  intros Hg0. cbn zeta.
  assert (Hlast :
    LogUtils.files (LogUtils.EnableFileLogging true path false true g) path
    = []).
  { unfold file_sink_consistent in Hg0.
    destruct g as [lvl con en st out fs err].
    unfold LogUtils.is_open in Hg0. cbn in Hg0. subst en.
    destruct st; cbn; unfold LogUtils.write_file;
      rewrite String.eqb_refl; reflexivity. }
  split; [| split; [| split; [| split; [| exact Hlast]]]];
    clear Hlast; unfold LogUtils.run_ops; revert g Hg0;
    induction ops as [| op ops IH]; intros g Hg; cbn [fold_left existsb].
  - exact Hg.
  - apply IH. apply run_op_consistent. exact Hg.
  - exists []. rewrite app_nil_r. reflexivity.
  - destruct (IH (LogUtils.run_op op g) (run_op_consistent op g Hg))
      as (l1 & H1).
    destruct (run_op_grows op g path) as ((x1 & G1) & _).
    exists (x1 ++ l1). rewrite H1, G1, app_assoc. reflexivity.
  - lia.
  - pose proof (IH (LogUtils.run_op op g) (run_op_consistent op g Hg)) as H1.
    destruct (run_op_grows op g path) as (_ & G & _). lia.
  - intros _. exists []. rewrite app_nil_r. reflexivity.
  - intros Hno. apply orb_false_iff in Hno. destruct Hno as [Hop Hrest].
    destruct (IH (LogUtils.run_op op g) (run_op_consistent op g Hg) Hrest)
      as (l1 & H1).
    destruct (run_op_grows op g path) as (_ & _ & G).
    destruct (G Hop) as (x1 & G1).
    exists (x1 ++ l1). rewrite H1, G1, app_assoc. reflexivity.
Qed.

Lemma logger_invariant_witness :
  let path := LogUtils.DEFAULT_LOG_FILE_PATH in
  let g := LogUtils.Logger_new (fun _ => []) in
  let ops := [LogUtils.OpInitialize 2 0 false;
              LogUtils.OpLog LogUtils.ERROR_LEVEL "lost";
              LogUtils.OpEnableFileLogging true path true true;
              LogUtils.OpLog LogUtils.ERROR_LEVEL "kept";
              LogUtils.OpDeInitialize] in
  let g' := LogUtils.run_ops ops g in
  file_sink_consistent g' /\
  (exists l, LogUtils.wcout g' = LogUtils.wcout g ++ l) /\
  (LogUtils.wcerr g <= LogUtils.wcerr g')%nat /\
  (existsb (LogUtils.truncates path) ops = false ->
   exists l, LogUtils.files g' path = LogUtils.files g path ++ l) /\
  LogUtils.files (LogUtils.EnableFileLogging true path false true g) path = [].
Proof.
  intros path g ops.
  apply (logger_invariant ops g path).
  reflexivity.
Defined.

(** Logging a sequence of lines, field by field. *)
Lemma log_all_fields (calls : list LogUtils.Line) :
  forall g : LogUtils.Logger,
  let g' := LogUtils.log_all calls g in
  let lines := LogUtils.passing (LogUtils.m_currentLogLevel g) calls in
  LogUtils.m_currentLogLevel g' = LogUtils.m_currentLogLevel g /\
  LogUtils.m_consoleLoggingEnabled g' = LogUtils.m_consoleLoggingEnabled g /\
  LogUtils.m_fileLoggingEnabled g' = LogUtils.m_fileLoggingEnabled g /\
  LogUtils.m_logFileStream g' = LogUtils.m_logFileStream g /\
  LogUtils.wcerr g' = LogUtils.wcerr g /\
  LogUtils.wcout g' =
    LogUtils.wcout g ++
    (if LogUtils.m_consoleLoggingEnabled g then lines else []) /\
  forall path,
    LogUtils.files g' path =
    LogUtils.files g path ++ (if LogUtils.writes_to g path then lines else []).
Proof.
  unfold LogUtils.log_all.
  induction calls as [| [l m] calls IH]; intros g; cbn zeta.
  - cbn [fold_left LogUtils.passing filter].
    repeat split; try reflexivity.
    + destruct (LogUtils.m_consoleLoggingEnabled g); rewrite app_nil_r;
        reflexivity.
    + intros path. destruct (LogUtils.writes_to g path); rewrite app_nil_r;
        reflexivity.
  - cbn [fold_left LogUtils.passing filter fst snd].
    destruct (IH (LogUtils.Log l m g)) as (I1 & I2 & I3 & I4 & I5 & I6 & I7).
    destruct (Log_fields l m g) as (L1 & L2 & L3 & L4 & L5 & L6 & L7).
    cbn zeta in *.
    assert (Hw : forall path,
              LogUtils.writes_to (LogUtils.Log l m g) path
              = LogUtils.writes_to g path).
    { intros path. unfold LogUtils.writes_to. rewrite L3, L4. reflexivity. }
    rewrite I1, I2, I3, I4, I5, I6, L1, L2, L3, L4, L5, L6.
    repeat split; try reflexivity.
    + unfold LogUtils.passing.
      destruct (LogUtils.rank l <? LogUtils.rank (LogUtils.m_currentLogLevel g));
        destruct (LogUtils.m_consoleLoggingEnabled g); cbn [negb];
        rewrite <- ?app_assoc; reflexivity.
    + intros path. rewrite I7, L7, Hw, L1. unfold LogUtils.passing.
      destruct (LogUtils.rank l <? LogUtils.rank (LogUtils.m_currentLogLevel g));
        destruct (LogUtils.writes_to g path); cbn [negb];
        rewrite <- ?app_assoc; reflexivity.
Qed.

(** X19.  The level filter of the logger.  Logging a sequence of lines
    writes to each enabled sink exactly the lines whose level is not below
    the current level, in order, and changes nothing in the configuration:
    to the console when it is enabled, and to the file the stream is open
    on when the file sink is enabled, and to no other file.  Raising the
    level only removes lines, and at level [NONE] no line of the five
    public logging methods is written at all. *)
Theorem log_filter (calls : list LogUtils.Line) (g : LogUtils.Logger) :
  let g' := LogUtils.log_all calls g in
  let lines := LogUtils.passing (LogUtils.m_currentLogLevel g) calls in
  LogUtils.wcout g' =
    LogUtils.wcout g ++
    (if LogUtils.m_consoleLoggingEnabled g then lines else []) /\
  (forall path,
     LogUtils.files g' path =
     LogUtils.files g path ++
     (if LogUtils.writes_to g path then lines else [])) /\
  LogUtils.m_currentLogLevel g' = LogUtils.m_currentLogLevel g /\
  same_sinks g g' /\ LogUtils.wcerr g' = LogUtils.wcerr g /\
  (forall higher,
     LogUtils.rank (LogUtils.m_currentLogLevel g) <= LogUtils.rank higher ->
     LogUtils.passing higher calls = LogUtils.passing higher lines) /\
  (Forall (fun l => fst l <> LogUtils.NONE) calls ->
   LogUtils.passing LogUtils.NONE calls = []).
Proof.
  cbn zeta.
  destruct (log_all_fields calls g) as (F1 & F2 & F3 & F4 & F5 & F6 & F7).
  cbn zeta in *. unfold same_sinks.
  split; [exact F6 |]. split; [exact F7 |]. split; [exact F1 |].
  split; [repeat split; assumption |]. split; [exact F5 |].
  clear F1 F2 F3 F4 F5 F6 F7.
  split.
  - intros higher Hle. unfold LogUtils.passing.
    induction calls as [| [l m] calls IH]; [reflexivity |].
    cbn [filter fst].
    destruct (Z.ltb_spec (LogUtils.rank l) (LogUtils.rank higher)) as [H1 | H1];
      destruct (Z.ltb_spec (LogUtils.rank l)
                  (LogUtils.rank (LogUtils.m_currentLogLevel g))) as [H2 | H2];
      cbn [negb filter fst]; try lia.
    + exact IH.
    + destruct (Z.ltb_spec (LogUtils.rank l) (LogUtils.rank higher));
        [| lia]. exact IH.
    + destruct (Z.ltb_spec (LogUtils.rank l) (LogUtils.rank higher));
        [lia |]. cbn [negb]. rewrite IH. reflexivity.
  - intros Hpub. unfold LogUtils.passing.
    induction Hpub as [| [l m] calls Hl _ IH]; [reflexivity |].
    cbn [filter fst]. cbn [fst] in Hl. rewrite IH.
    destruct l; try reflexivity. contradiction.
Qed.

Lemma log_filter_witness :
  LogUtils.passing LogUtils.NONE
    [(LogUtils.ERROR_LEVEL, "read error"%string);
     (LogUtils.CRITICAL, "stop"%string)] = [].
Proof.
  pose proof (log_filter [(LogUtils.ERROR_LEVEL, "read error"%string);
                          (LogUtils.CRITICAL, "stop"%string)]
                (LogUtils.Logger_new (fun _ => []))) as H.
  cbn zeta in H.
  apply (proj2 (proj2 (proj2 (proj2 (proj2 (proj2 H)))))).
  repeat constructor; discriminate.
Defined.

(** The level [Initialize] sets and the sinks it chooses do not depend on
    each other: the sinks first, then the level, then one line. *)
Lemma logger_Initialize_run (logType logLevel : Z) (can_open : bool)
    (g : LogUtils.Logger) :
  LogUtils.Initialize logType logLevel can_open g =
  LogUtils.Info "Log Open"
    (LogUtils.SetLogLevel
       (if logLevel =? 0 then LogUtils.DEBUG
        else if logLevel =? 2 then LogUtils.WARNING
        else if logLevel =? 3 then LogUtils.ERROR_LEVEL
        else if logLevel =? 4 then LogUtils.CRITICAL
        else if logLevel =? 5 then LogUtils.NONE
        else LogUtils.INFO)
       (if logType =? 1 then
          LogUtils.EnableFileLogging false LogUtils.DEFAULT_LOG_FILE_PATH true
            can_open
            (LogUtils.EnableConsoleLogging true g)
        else if logType =? 2 then
          LogUtils.EnableFileLogging true LogUtils.DEFAULT_LOG_FILE_PATH true
            can_open
            (LogUtils.EnableConsoleLogging false g)
        else if logType =? 3 then
          LogUtils.EnableFileLogging true LogUtils.DEFAULT_LOG_FILE_PATH true
            can_open
            (LogUtils.EnableConsoleLogging true g)
        else g)).
Proof.
  unfold LogUtils.Initialize.
  destruct (Z.eqb_spec logLevel 0), (Z.eqb_spec logLevel 1),
    (Z.eqb_spec logLevel 2), (Z.eqb_spec logLevel 3),
    (Z.eqb_spec logLevel 4), (Z.eqb_spec logLevel 5);
    solve [reflexivity | exfalso; lia].
Qed.

(** X20.  The choices of [LogUtils::Initialize].  The level becomes the one
    chosen by a number from 0 to 5, and [INFO] for any other number.  A
    sink choice other than 1, 2 or 3 leaves the sinks as they were.  With
    the choice 2, file only, and a log file that cannot be opened, the
    console is switched off and the file sink stays off: one complaint goes
    to [std::wcerr], and neither the opening line nor any later line, of
    whatever level, is written anywhere. *)
Theorem logger_Initialize_choices (logType logLevel : Z) (can_open : bool)
    (g : LogUtils.Logger) (calls : list LogUtils.Line) :
  file_sink_consistent g ->
  let g' := LogUtils.Initialize logType logLevel can_open g in
  LogUtils.rank (LogUtils.m_currentLogLevel g')
  = (if (0 <=? logLevel) && (logLevel <=? 5) then logLevel else 1) /\
  (logType <> 1 -> logType <> 2 -> logType <> 3 -> same_sinks g g') /\
  (logType = 2 -> can_open = false ->
   nothing_written g (LogUtils.log_all calls g') /\
   LogUtils.wcerr (LogUtils.log_all calls g') = S (LogUtils.wcerr g)).
Proof.
  unfold file_sink_consistent. intros Hg. cbn zeta.
  rewrite logger_Initialize_run. unfold LogUtils.Info.
  split; [| split].
  - destruct (Log_fields LogUtils.INFO "Log Open"
                (LogUtils.SetLogLevel
                   (if logLevel =? 0 then LogUtils.DEBUG
                    else if logLevel =? 2 then LogUtils.WARNING
                    else if logLevel =? 3 then LogUtils.ERROR_LEVEL
                    else if logLevel =? 4 then LogUtils.CRITICAL
                    else if logLevel =? 5 then LogUtils.NONE
                    else LogUtils.INFO)
                   (if logType =? 1 then
                      LogUtils.EnableFileLogging false
                        LogUtils.DEFAULT_LOG_FILE_PATH true can_open
                        (LogUtils.EnableConsoleLogging true g)
                    else if logType =? 2 then
                      LogUtils.EnableFileLogging true
                        LogUtils.DEFAULT_LOG_FILE_PATH true can_open
                        (LogUtils.EnableConsoleLogging false g)
                    else if logType =? 3 then
                      LogUtils.EnableFileLogging true
                        LogUtils.DEFAULT_LOG_FILE_PATH true can_open
                        (LogUtils.EnableConsoleLogging true g)
                    else g))) as (L1 & _).
    cbn zeta in L1. rewrite L1. cbn [LogUtils.SetLogLevel
                                     LogUtils.m_currentLogLevel].
    destruct (Z.eqb_spec logLevel 0), (Z.eqb_spec logLevel 2),
      (Z.eqb_spec logLevel 3), (Z.eqb_spec logLevel 4),
      (Z.eqb_spec logLevel 5); try (exfalso; lia); subst;
      try reflexivity;
      destruct (Z.leb_spec 0 logLevel), (Z.leb_spec logLevel 5);
      cbn [andb LogUtils.rank]; lia.
  - intros H1 H2 H3.
    destruct (Z.eqb_spec logType 1), (Z.eqb_spec logType 2),
      (Z.eqb_spec logType 3); try contradiction.
    match goal with
    | |- same_sinks g (LogUtils.Log ?l ?m ?g0) =>
      destruct (Log_fields l m g0) as (_ & L2 & L3 & L4 & _)
    end.
    unfold same_sinks. rewrite L2, L3, L4.
    destruct g. repeat split; reflexivity.
  - intros -> ->. change (2 =? 1) with false. change (2 =? 2) with true.
    cbv iota.
    match goal with
    | |- context [LogUtils.log_all calls ?g1] =>
      destruct (log_all_fields calls g1) as (_ & _ & _ & _ & F5 & F6 & F7)
    end.
    cbn zeta in *. unfold nothing_written. rewrite F5, F6.
    match goal with
    | |- context [LogUtils.Log ?l ?m ?g0] =>
      destruct (Log_fields l m g0) as (_ & L2 & L3 & L4 & L5 & L6 & L7)
    end.
    cbn zeta in *. rewrite L2, L5, L6.
    assert (Hw : forall path lines,
              (if LogUtils.writes_to
                    (LogUtils.Log LogUtils.INFO "Log Open"
                       (LogUtils.SetLogLevel
                          (if logLevel =? 0 then LogUtils.DEBUG
                           else if logLevel =? 2 then LogUtils.WARNING
                           else if logLevel =? 3 then LogUtils.ERROR_LEVEL
                           else if logLevel =? 4 then LogUtils.CRITICAL
                           else if logLevel =? 5 then LogUtils.NONE
                           else LogUtils.INFO)
                          (LogUtils.EnableFileLogging true
                             LogUtils.DEFAULT_LOG_FILE_PATH true false
                             (LogUtils.EnableConsoleLogging false g)))) path
               then lines else @nil LogUtils.Line) = []).
    { intros path lines. unfold LogUtils.writes_to. rewrite L3.
      destruct g as [lvl con en st out fs err].
      unfold LogUtils.is_open in Hg. cbn in Hg. subst en.
      destruct st; reflexivity. }
    destruct g as [lvl con en st out fs err].
    unfold LogUtils.is_open in Hg. cbn in Hg. subst en.
    split; [split |].
    + destruct st; cbn; rewrite ?app_nil_r; reflexivity.
    + intros path. rewrite F7, Hw, app_nil_r, L7.
      unfold LogUtils.writes_to.
      destruct st; cbn; rewrite ?app_nil_r; reflexivity.
    + destruct st; reflexivity.
Qed.

Lemma logger_Initialize_choices_witness :
  let g := LogUtils.Logger_new (fun _ => []) in
  let calls := [(LogUtils.ERROR_LEVEL, "Failed to open source"%string)] in
  let g' := LogUtils.Initialize 2 3 false g in
  LogUtils.rank (LogUtils.m_currentLogLevel g')
  = (if (0 <=? 3) && (3 <=? 5) then 3 else 1) /\
  (2 <> 1 -> 2 <> 2 -> 2 <> 3 -> same_sinks g g') /\
  (2 = 2 -> false = false ->
   nothing_written g (LogUtils.log_all calls g') /\
   LogUtils.wcerr (LogUtils.log_all calls g') = S (LogUtils.wcerr g)).
Proof.
  intros g calls.
  apply (logger_Initialize_choices 2 3 false g calls).
  reflexivity.
Defined.

(* ===================================================================== *)
(** ** The counter of operations in flight *)
(* ===================================================================== *)

(** Removes the wrap-around of [int] arithmetic that stays in range. *)
Ltac int_id :=
  repeat match goal with
         | |- context [to_int ?z] =>
           lazymatch z with
           | context [to_int _] => fail
           | _ => rewrite (to_int_id z)
                    by (unfold is_int, INT_MIN, INT_MAX; lia)
           end
         end.

(** X21.  [m_pendingIOs] counts the operations in flight.  As long as the
    counter does not overflow, [IssueRead] and [IssueWrite] raise it by one
    exactly when they return [true], which they do only when the operating
    system took the operation, and they leave the context not completed
    then.  A read completion lowers it by one and raises it again exactly
    when its write was taken; a write completion lowers it by one and
    marks the context completed.  After a read completion a context that is
    not completed has its write in flight, unless [m_errOccurred] is
    set. *)
Theorem pending_balance (os : SubmitResult) (h : HANDLE) (c : IOContext)
    (b T errCode n : Z) (w : World) :
  curInst c = true ->
  INT_MIN < m_pendingIOs (io w) < INT_MAX ->
  let p := m_pendingIOs (io w) in
  (let r := IssueRead os h c b T w in
   m_pendingIOs (io (snd r)) = p + (if fst (fst r) then 1 else 0) /\
   (fst (fst r) = true ->
    accepted os = true /\ completed (snd (fst r)) = false)) /\
  (let r := IssueWrite os h c n w in
   m_pendingIOs (io (snd r)) = p + (if fst (fst r) then 1 else 0) /\
   (fst (fst r) = true ->
    accepted os = true /\ completed (snd (fst r)) = false)) /\
  (exists c' w' es,
     StaticReadCompletion os errCode n (Some c) w = (Some c', w') /\
     events w' = events w ++ es /\
     let in_flight := existsb is_submission es && accepted os in
     m_pendingIOs (io w') = p - 1 + (if in_flight then 1 else 0) /\
     (in_flight = true -> completed c' = false) /\
     (completed c' = false -> m_errOccurred (io w') = false ->
      in_flight = true)) /\
  (exists c' w',
     StaticWriteCompletion errCode n (Some c) w = (Some c', w') /\
     m_pendingIOs (io w') = p - 1 /\ completed c' = true).
Proof.
  intros Hcur Hp p.
  unfold INT_MIN, INT_MAX in Hp. fold p in Hp.
  unfold p, io in *.
  split; [| split; [| split]].
  - cbn zeta. unfold IssueRead, claim_block. run_x.
    destruct (m_readComplete (ioUtilsObj (copier w))) eqn:Hrc; run_x.
    { split; [lia | discriminate]. }
    destruct (m_errOccurred (ioUtilsObj (copier w))) eqn:Herr; run_x.
    { split; [lia | discriminate]. }
    destruct (m_fileOffset (ioUtilsObj (copier w)) >=? T); run_x.
    { split; [lia | discriminate]. }
    match goal with
    | |- context [if ?x =? 0 then _ else _] => destruct (x =? 0); run_x
    end.
    { split; [lia | discriminate]. }
    destruct os as [| e]; run_x.
    { int_id. split; [reflexivity | intros _; split; reflexivity]. }
    destruct (e =? ERROR_HANDLE_EOF); run_x; int_id;
      (split; [lia | discriminate]).
  - cbn zeta. rewrite IssueWrite_run. unfold io.
    destruct (m_errOccurred (ioUtilsObj (copier w))); cbn;
      [split; [lia | discriminate] |].
    destruct os; cbn; int_id.
    + split; [reflexivity | intros _; split; reflexivity].
    + split; [lia | discriminate].
  - unfold StaticReadCompletion. rewrite Hcur. cbn [negb].
    unfold OnReadCompletion. run_x. rewrite Hcur. run_x.
    destruct (errCode =? ERROR_SUCCESS); run_x.
    2: { destruct (errCode =? ERROR_HANDLE_EOF); run_x;
         [destruct (n =? 0); run_x |].
         - eexists. eexists. exists []. split; [reflexivity |].
           cbn. rewrite app_nil_r. int_id.
           repeat split; solve [lia | discriminate | reflexivity].
         - eexists. eexists. exists []. split; [reflexivity |].
           cbn. rewrite app_nil_r. int_id.
           repeat split; solve [lia | discriminate | reflexivity].
         - eexists. eexists. exists [EvLog LVL_ERROR MsgReadError].
           split; [reflexivity |].
           cbn. int_id.
           repeat split; solve [lia | discriminate | reflexivity]. }
    destruct (n =? 0); run_x.
    { eexists. eexists. exists []. split; [reflexivity |].
      cbn. rewrite app_nil_r. int_id.
      repeat split; solve [lia | discriminate | reflexivity]. }
    destruct (m_destSectorSize (copier w) =? 0); run_x;
      match goal with
      | |- context [if ?b && ?b' then _ else _] =>
        destruct b; run_x; [destruct b'; run_x |]
      end;
      rewrite ?IssueWrite_run; run_x;
      try (destruct (m_errOccurred (ioUtilsObj (copier w))) eqn:Herr; run_x);
      try (destruct os; run_x);
      (do 3 eexists; split; [reflexivity |];
       split; [cbn; rewrite <- ?app_assoc; reflexivity |];
       cbn; int_id; repeat split; intros;
       solve [lia | discriminate | reflexivity | congruence]).
  - unfold StaticWriteCompletion. rewrite Hcur. cbn [negb].
    rewrite (OnWriteCompletion_run _ _ _ _ Hcur).
    do 2 eexists. split; [reflexivity |].
    unfold io. destruct (errCode =? ERROR_SUCCESS); cbn; int_id;
      split; solve [lia | reflexivity].
Qed.

Lemma pending_balance_witness :
  let os := Submitted in
  let h := 8 in
  let c := ex_context 1024 in
  let w := ex_engine 512 in
  let p := m_pendingIOs (io w) in
  (let r := IssueRead os h c 1024 4096 w in
   m_pendingIOs (io (snd r)) = p + (if fst (fst r) then 1 else 0) /\
   (fst (fst r) = true ->
    accepted os = true /\ completed (snd (fst r)) = false)) /\
  (let r := IssueWrite os h c 512 w in
   m_pendingIOs (io (snd r)) = p + (if fst (fst r) then 1 else 0) /\
   (fst (fst r) = true ->
    accepted os = true /\ completed (snd (fst r)) = false)) /\
  (exists c' w' es,
     StaticReadCompletion os 0 512 (Some c) w = (Some c', w') /\
     events w' = events w ++ es /\
     let in_flight := existsb is_submission es && accepted os in
     m_pendingIOs (io w') = p - 1 + (if in_flight then 1 else 0) /\
     (in_flight = true -> completed c' = false) /\
     (completed c' = false -> m_errOccurred (io w') = false ->
      in_flight = true)) /\
  (exists c' w',
     StaticWriteCompletion 0 512 (Some c) w = (Some c', w') /\
     m_pendingIOs (io w') = p - 1 /\ completed c' = true).
Proof.
  intros os h c w.
  apply (pending_balance os h c 1024 4096 0 512 w).
  - reflexivity.
  - unfold INT_MIN, INT_MAX. cbn. lia.
Defined.

(* ===================================================================== *)
(** ** The copier after StartCopy and after its destructor *)
(* ===================================================================== *)

(** X22.  What [StartCopy] leaves behind.  When the monitoring loop is left
    and every worker returns, [StartCopy] returns with one worker per
    configured thread in the thread vector, every one of them joined.  It
    closes no handle and keeps handles and contexts, so that the copier
    still passes the initialisation check of a further [StartCopy]; it
    starts each worker once, in index order, before anything else, and
    flushes the destination. *)
Theorem StartCopy_leaves_copier_ready (env : CopyEnv) (w : World) :
  initialized (copier w) -> monitor_exits (env_polls env) = true ->
  workers_return env (Z.to_nat (m_numOfThreads (copier w))) = true ->
  let N := Z.to_nat (m_numOfThreads (copier w)) in
  exists ok w' es,
    StartCopy env w = (Some ok, w') /\
    events w' = events w ++ map EvThreadStart (seq 0 N) ++ es /\
    existsb starts_work es = false /\ closes es = [] /\
    In (EvFlushFileBuffers (m_hDest (copier w))) es /\
    initialized (copier w') /\
    length (m_workerThreads (copier w')) = N /\
    forallb (fun t => negb (joinable t)) (m_workerThreads (copier w')) = true.
Proof.
  intros Hinit Hexit Hret N.
  destruct (StartCopy_returns env w Hinit Hexit Hret)
    as (w' & es0 & Hsc & Hev & Hcl & Hfl & Hs & Hd & Hc & Hth).
  destruct (StartCopy_run env w Hinit Hexit)
    as (r & w2 & wake & k & tail & Hsc2 & Hev2 & Hwake & Hk & Htail).
  cbn zeta in Htail. fold N in Hret, Htail, Hev2, Hwake, Hth.
  rewrite Hret in Htail. destruct Htail as (-> & -> & _ & ->).
  rewrite Hsc in Hsc2. injection Hsc2 as <-.
  rewrite Hev in Hev2. apply app_inv_head in Hev2.
  do 2 eexists. exists (wake ++ map EvJoin (seq 0 N) ++
                        EvFlushFileBuffers (m_hDest (copier w)) ::
                        (if env_FlushFileBuffers env then []
                         else [EvLog LVL_ERROR MsgFlushFailed]) ++
                        (if m_errOccurred (env_at_joined env)
                            || negb (env_FlushFileBuffers env)
                         then [EvLog LVL_ERROR MsgCompletedWithErrors]
                         else [])).
  split; [exact Hsc |].
  split; [rewrite Hev, Hev2; reflexivity |].
  assert (Hw : existsb starts_work wake = false).
  { destruct (m_errOccurred (env_at_wakeup env));
      [subst wake; reflexivity | apply Hwake]. }
  assert (Hj : existsb starts_work (map EvJoin (seq 0 N)) = false).
  { generalize (seq 0 N). intros l.
    induction l as [| a l IHl]; [reflexivity | exact IHl]. }
  split.
  { rewrite !existsb_app, Hw, Hj. cbn.
    destruct (env_FlushFileBuffers env),
      (m_errOccurred (env_at_joined env)); reflexivity. }
  split.
  { rewrite Hev2, closes_app, closes_map_start in Hcl. exact Hcl. }
  split.
  { apply in_or_app. right. apply in_or_app. right. left. reflexivity. }
  split.
  { destruct Hinit as (H1 & H2 & H3). unfold initialized.
    rewrite Hs, Hd, Hc. repeat split; assumption. }
  rewrite Hth. split; [unfold joined; rewrite length_map, length_seq;
                       reflexivity | apply joined_idle].
Qed.

Lemma StartCopy_leaves_copier_ready_witness :
  let env := ex_copy_env 1 ex_drained true in
  let w := ex_ready in
  let N := Z.to_nat (m_numOfThreads (copier w)) in
  exists ok w' es,
    StartCopy env w = (Some ok, w') /\
    events w' = events w ++ map EvThreadStart (seq 0 N) ++ es /\
    existsb starts_work es = false /\ closes es = [] /\
    In (EvFlushFileBuffers (m_hDest (copier w))) es /\
    initialized (copier w') /\
    length (m_workerThreads (copier w')) = N /\
    forallb (fun t => negb (joinable t)) (m_workerThreads (copier w')) = true.
Proof.
  intros env w.
  apply (StartCopy_leaves_copier_ready env w).
  - unfold initialized. vm_compute. repeat split; discriminate.
  - reflexivity.
  - vm_compute. reflexivity.
Defined.

(** X23.  The destructor of the copier.  When no worker is left to join,
    the destructor closes the source and the destination handle if they are
    valid, each once, and invalidates both.  Destroying again closes
    nothing, and a [StartCopy] on the destroyed copier is refused with an
    error line, before any thread is started. *)
Theorem destructor_invalidates (cenv : CopyEnv) (w : World) :
  forallb (fun t => negb (joinable t)) (m_workerThreads (copier w)) = true ->
  exists w1,
    BlockCopier_destroy cenv w = (true, w1) /\
    events w1 =
      events w ++
      (if m_hSrc (copier w) =? INVALID_HANDLE_VALUE then []
       else [EvCloseHandle (m_hSrc (copier w))]) ++
      (if m_hDest (copier w) =? INVALID_HANDLE_VALUE then []
       else [EvCloseHandle (m_hDest (copier w))]) /\
    m_hSrc (copier w1) = INVALID_HANDLE_VALUE /\
    m_hDest (copier w1) = INVALID_HANDLE_VALUE /\
    (exists w2, BlockCopier_destroy cenv w1 = (true, w2) /\
                events w2 = events w1) /\
    StartCopy cenv w1 = (Some false, logged MsgNotInitialized w1).
Proof.
  intros Hidle.
  destruct (BlockCopier_destroy_run cenv w Hidle)
    as (w1 & Heq & Hev & Hs & Hd & Hc & Hth).
  exists w1. split; [exact Heq |]. split; [exact Hev |].
  split; [exact Hs |]. split; [exact Hd |]. split.
  - destruct (BlockCopier_destroy_run cenv w1) as (w2 & Heq2 & Hev2 & _).
    { rewrite Hth. exact Hidle. }
    exists w2. split; [exact Heq2 |].
    rewrite Hev2, Hs, Hd. cbn. rewrite app_nil_r. reflexivity.
  - unfold StartCopy, logged. run_b. rewrite Hs. cbn. reflexivity.
Qed.

Lemma destructor_invalidates_witness :
  let cenv := ex_copy_env 1 ex_drained true in
  let w := ex_ready in
  exists w1,
    BlockCopier_destroy cenv w = (true, w1) /\
    events w1 =
      events w ++
      (if m_hSrc (copier w) =? INVALID_HANDLE_VALUE then []
       else [EvCloseHandle (m_hSrc (copier w))]) ++
      (if m_hDest (copier w) =? INVALID_HANDLE_VALUE then []
       else [EvCloseHandle (m_hDest (copier w))]) /\
    m_hSrc (copier w1) = INVALID_HANDLE_VALUE /\
    m_hDest (copier w1) = INVALID_HANDLE_VALUE /\
    (exists w2, BlockCopier_destroy cenv w1 = (true, w2) /\
                events w2 = events w1) /\
    StartCopy cenv w1 = (Some false, logged MsgNotInitialized w1).
Proof.
  intros cenv w.
  apply (destructor_invalidates cenv w).
  vm_compute. reflexivity.
Defined.

(* ===================================================================== *)
(** ** A worker once all reads are issued *)
(* ===================================================================== *)

(** X24.  A worker after [m_readComplete] was set by another worker.  A
    block whose read is in flight is not dropped: when the read completes
    its data is written, padded to a sector, at the offset of the read, and
    when that write completes the worker leaves by the loop condition,
    without claiming another block and without waiting again.  A worker
    that has no operation of its own in flight while others have, waits; woken
    by the no-op APC of the controller once the others are done, it leaves
    by the loop condition without touching anything. *)
Theorem worker_after_read_complete (hSrc : HANDLE) (s b T off n q rd wr : Z)
    (b0 : BlockCopier) (c : IOContext) (ev : list Event)
    (r r' : SubmitResult) (rest : list Wakeup) :
  0 < s -> (s | b) -> 0 < b <= DWORD_MAX -> 0 < n <= b ->
  0 <= rd -> rd + n <= LLONG_MAX -> 0 <= wr -> wr + b <= LLONG_MAX ->
  m_destSectorSize b0 = s -> curInst c = true -> bufSize c = b ->
  q <> 0 -> completed c = false ->
  (exists c',
     worker_loop
       (mkWakeup (fun x => x) [ApcReadDone ERROR_SUCCESS n Submitted] r
        :: mkWakeup (fun x => x) [ApcWriteDone ERROR_SUCCESS (padded_len s n)] r'
        :: rest)
       hSrc b T c (engine_state b0 1 off true rd wr ev)
     = ((ExitLoopCondition, c'),
        engine_state b0 0 off true (rd + n) (wr + padded_len s n)
          (ev ++ [EvWriteFileEx (m_hDest b0) (Offset (overlapped c))
                    (OffsetHigh (overlapped c)) (padded_len s n) 1]))) /\
  worker_loop
    (mkWakeup (fun _ => mkIOUtils 0 off true false) [ApcDummy] r :: rest)
    hSrc b T c (engine_state b0 q off true rd wr ev)
  = ((ExitLoopCondition, c), engine_state b0 0 off true rd wr ev).
Proof.
  intros Hs Hdiv Hb Hn Hrd Hrdm Hwr Hwrm Hsec Hcur HB Hq Hdone.
  pose proof (padded_len_bounds s n b Hs Hn Hdiv) as Hpad.
  unfold LLONG_MAX, DWORD_MAX in *.
  unfold engine_state.
  destruct b0 as [hS hD srcSz cap sec nT blk cs ths io0 rd0 wr0].
  cbn [m_destSectorSize m_hDest] in *. subst sec.
  split.
  - cbn [worker_loop]. run_x. change (1 =? 0) with false. run_x.
    cbn [run_apcs run_apc wk_apcs wk_others wk_read]. run_x.
    unfold StaticReadCompletion. rewrite Hcur. cbn [negb].
    rewrite (OnReadCompletion_run Submitted n c _ s Hcur);
      [| rewrite HB; exact Hn | rewrite HB; unfold is_DWORD, DWORD_MAX; lia
       | exact Hs | rewrite HB; exact Hdiv
       | cbn; destruct (Z.eqb_spec s 0); [lia | reflexivity]].
    rewrite IssueWrite_run.
    unfold io. run_x.
    change (to_int (1 - 1)) with 0. change (to_int (0 + 1)) with 1.
    rewrite (to_LONGLONG_id (rd + n))
      by (unfold is_LONGLONG, LLONG_MIN, LLONG_MAX; lia).
    destruct (Z.eqb_spec s 0) as [? | _]; [lia |]. rewrite app_nil_r.
    assert (Hov : overlapped (padded_context s n c) = overlapped c)
      by (unfold padded_context; destruct (n mod s =? 0); reflexivity).
    assert (Hc2 : curInst (set_completed false
                    (set_hEvent 0 (padded_context s n c))) = true)
      by (unfold padded_context; destruct (n mod s =? 0); exact Hcur).
    rewrite Hov.
    change (completed (set_completed false ?x)) with false. cbv iota beta.
    cbn [worker_loop]. run_x. change (1 =? 0) with false. run_x.
    cbn [run_apcs run_apc wk_apcs wk_others wk_read]. run_x.
    unfold StaticWriteCompletion. rewrite Hc2. cbn [negb].
    rewrite (OnWriteCompletion_run _ _ _ _ Hc2).
    change (ERROR_SUCCESS =? ERROR_SUCCESS) with true. cbv iota.
    unfold io. run_x.
    change (to_int (1 - 1)) with 0.
    rewrite (to_LONGLONG_id (wr + padded_len s n))
      by (unfold is_LONGLONG, LLONG_MIN, LLONG_MAX in *; lia).
    rewrite app_nil_r.
    change (completed (set_completed true ?x)) with true. cbv iota beta.
    run_x.
    destruct rest; cbn [worker_loop]; run_x; eexists; reflexivity.
  - cbn [worker_loop]. run_x.
    destruct (Z.eqb_spec q 0) as [? | _]; [contradiction |]. run_x.
    cbn [run_apcs run_apc wk_apcs wk_others wk_read]. run_x.
    rewrite Hdone.
    destruct rest; cbn [worker_loop]; run_x; reflexivity.
Qed.

Lemma worker_after_read_complete_witness :
  let b0 := copier (ex_engine 512) in
  let c := ex_context 1024 in
  (exists c',
     worker_loop
       [mkWakeup (fun x => x) [ApcReadDone ERROR_SUCCESS 1000 Submitted]
          Submitted;
        mkWakeup (fun x => x) [ApcWriteDone ERROR_SUCCESS (padded_len 512 1000)]
          Submitted]
       8 1024 4096 c (engine_state b0 1 2048 true 0 0 [])
     = ((ExitLoopCondition, c'),
        engine_state b0 0 2048 true (0 + 1000) (0 + padded_len 512 1000)
          ([] ++ [EvWriteFileEx (m_hDest b0) (Offset (overlapped c))
                    (OffsetHigh (overlapped c)) (padded_len 512 1000) 1]))) /\
  worker_loop
    [mkWakeup (fun _ => mkIOUtils 0 2048 true false) [ApcDummy] Submitted]
    8 1024 4096 c (engine_state b0 2 2048 true 0 0 [])
  = ((ExitLoopCondition, c), engine_state b0 0 2048 true 0 0 []).
Proof.
  intros b0 c.
  apply (worker_after_read_complete 8 512 1024 4096 2048 1000 2 0 0 b0 c []
           Submitted Submitted []).
  - lia.
  - exists 2. reflexivity.
  - unfold DWORD_MAX. lia.
  - lia.
  - lia.
  - unfold LLONG_MAX. lia.
  - lia.
  - unfold LLONG_MAX. lia.
  - reflexivity.
  - reflexivity.
  - reflexivity.
  - discriminate.
  - reflexivity.
Defined.

(* ===================================================================== *)
(** ** The wake-up that is skipped on the error exit *)
(* ===================================================================== *)

